(** * Chat rooms with an AI assistant: quota ledger, prompt composition,
      membership and rate limiting

    A shallow embedding of the TypeScript service:
    - [GeminiService] (services/geminiService.ts): prompt composition,
      [checkUsageQuota], [incrementUsage];
    - the chat routes (routes/chat.ts): [POST /:chatRoomId/ai-chat] and
      [POST /:chatRoomId/leave];
    - the socket handlers (services/socketService.ts): [send_message],
      [ai_chat] and [handleAIResponse];
    - the rate limiter (middleware/rateLimiter.ts): [createRedisStore] and
      [keyGenerator].

    Conventions of the embedding.
    - The relational store is a record of tables ([Db]); every handler takes
      the store and returns the new one.  Prisma [Int] columns are [Z].
    - A call that can throw returns [option] ([None] is the exception) or an
      [ApiResult]; [try/catch] is a [match].
    - The generation provider is a parameter of the environment; it either
      returns a text or throws.  The read of the ledger may throw as well.
      The other store calls throw where Prisma and PostgreSQL specify it: an
      update of a record that does not exist, an increment of an [Int]
      column that holds 2147483647, a row that breaks a foreign key, an
      enum or the text type.
    - A string is a Rocq string that holds the UTF-8 encoding of the
      JavaScript string; its JavaScript [length] counts UTF-16 code units.
    - The counting of [express-rate-limit] is not part of the sources: the
      number of hits it has counted for a request is an input. *)

From Stdlib Require Import ZArith Lia Bool Ascii String List.
From stdpp Require Import base option list strings gmap.

Local Open Scope Z_scope.

(** ** JavaScript string helpers *)

Module Js.

(** The line feed of the template literals. *)
Definition nl : string := String (ascii_of_nat 10) EmptyString.

(** [Array.prototype.join]. *)
Fixpoint join (sep : string) (l : list string) : string :=
  match l with
  | [] => ""
  | [x] => x
  | x :: rest => x +:+ sep +:+ join sep rest
  end.

(** [x || ''] and the truthiness test of a string: the empty string is
    falsy. *)
Definition truthy (s : string) : bool :=
  match s with EmptyString => false | _ => true end.

Definition lower_ascii (c : ascii) : ascii :=
  let n := nat_of_ascii c in
  if (65 <=? n)%nat && (n <=? 90)%nat then ascii_of_nat (n + 32)%nat else c.

Definition byte (n : nat) (c : ascii) : bool := (nat_of_ascii c =? n)%nat.

(** [String.prototype.toLowerCase], as far as ASCII is concerned: the ASCII
    capitals, and the two characters outside ASCII whose lower case holds an
    ASCII letter, U+0130 (bytes C4 B0, lower case [i] followed by U+0307) and
    U+212A (bytes E2 84 AA, lower case [k]).  Every other character outside
    ASCII has a lower case outside ASCII and is left as it stands, which
    changes no search for an ASCII needle in the result. *)
Fixpoint toLowerCase (s : string) : string :=
  match s with
  | EmptyString => EmptyString
  | String c rest =>
      match rest with
      | String d rest1 =>
          if byte 196 c && byte 176 d
          then String "i" (String (ascii_of_nat 204) (String (ascii_of_nat 135)
                 (toLowerCase rest1)))
          else
            match rest1 with
            | String e rest2 =>
                if byte 226 c && byte 132 d && byte 170 e
                then String "k" (toLowerCase rest2)
                else String (lower_ascii c) (toLowerCase rest)
            | EmptyString => String (lower_ascii c) (toLowerCase rest)
            end
      | EmptyString => String (lower_ascii c) EmptyString
      end
  end.

(** [String.prototype.length]: the number of UTF-16 code units.  A
    continuation byte (10xxxxxx) adds nothing; the lead byte of a four-byte
    sequence (11110xxx) stands for a surrogate pair. *)
Definition continuation (c : ascii) : bool :=
  let n := nat_of_ascii c in (128 <=? n)%nat && (n <? 192)%nat.

Definition units (c : ascii) : nat :=
  if continuation c then 0%nat
  else if (240 <=? nat_of_ascii c)%nat then 2%nat else 1%nat.

Fixpoint length (s : string) : nat :=
  match s with
  | EmptyString => 0%nat
  | String c rest => (units c + length rest)%nat
  end.

(** Every byte is below 128. *)
Fixpoint isAscii (s : string) : bool :=
  match s with
  | EmptyString => true
  | String c rest => (nat_of_ascii c <? 128)%nat && isAscii rest
  end.

(** The number of code points. *)
Fixpoint codePoints (s : string) : nat :=
  match s with
  | EmptyString => 0%nat
  | String c rest => ((if continuation c then 0 else 1) + codePoints rest)%nat
  end.

(** The number of variation selectors U+FE0E and U+FE0F (bytes EF B8 8E and
    EF B8 8F). *)
Fixpoint variationSelectors (s : string) : nat :=
  match s with
  | String c (String d (String e _ as rest2) as rest1) =>
      ((if byte 239 c && byte 184 d && (byte 142 e || byte 143 e) then 1 else 0)
       + variationSelectors rest1)%nat
  | _ => 0%nat
  end.

(** [String.prototype.includes]. *)
Fixpoint includes (s needle : string) : bool :=
  String.prefix needle s ||
  match s with
  | EmptyString => false
  | String _ rest => includes rest needle
  end.

(** [Math.ceil(n / 4)] for a length [n]. *)
Definition ceil_div4 (n : nat) : Z := (Z.of_nat n + 3) / 4.

(** [arr.filter(p).pop()]: the last element that satisfies [p]. *)
Definition last_such {A} (p : A -> bool) (l : list A) : option A :=
  last (filter (fun x => p x = true) l).

End Js.

(** ** The schema (prisma/schema.prisma) *)

Inductive ChatRoomRole := OWNER | ADMIN | MODERATOR | MEMBER.

Inductive MessageSender := USER | AI | SYSTEM.

#[global] Instance ChatRoomRole_eq_dec : EqDecision ChatRoomRole.
Proof. solve_decision. Defined.

#[global] Instance MessageSender_eq_dec : EqDecision MessageSender.
Proof. solve_decision. Defined.

(** [model User]: the row is keyed by [id]; only the lifetime usage counter is
    read or written by the code embedded here. *)
Record User := mkUser {
  messageCount : Z
}.

(** [model Subscription]: keyed by [userId] ([@unique]). *)
Record Subscription := mkSubscription {
  monthlyMessageLimit : Z;
  messagesUsed : Z
}.

(** [model ChatRoom]: keyed by [id]. *)
Record ChatRoom := mkChatRoom {
  allowAI : bool;
  aiModel : string
}.

(** [model ChatRoomMember]. *)
Record ChatRoomMember := mkMember {
  mem_id : string;
  mem_userId : string;
  mem_chatRoomId : string;
  mem_role : ChatRoomRole
}.

(** [model Message]; the [id] of a message is its position in the table. *)
Record Message := mkMessage {
  msg_content : string;
  msg_type : string;
  msg_sender : MessageSender;
  msg_userId : option string;
  msg_chatRoomId : string;
  msg_aiModel : option string;
  msg_promptTokens : option Z;
  msg_completionTokens : option Z
}.

Record Db := mkDb {
  users : gmap string User;
  subscriptions : gmap string Subscription;
  chatRooms : gmap string ChatRoom;
  chatRoomMembers : list ChatRoomMember;
  messages : list Message
}.

#[global] Instance ChatRoomMember_eq_dec : EqDecision ChatRoomMember.
Proof. solve_decision. Defined.

(** ** Store calls used by the handlers *)

Module Prisma.

(** [prisma.chatRoomMember.findFirst({ where: { userId, chatRoomId } })]. *)
Definition member_matches (userId chatRoomId : string) (m : ChatRoomMember) : bool :=
  bool_decide (mem_userId m = userId) && bool_decide (mem_chatRoomId m = chatRoomId).

Definition findFirstMember (db : Db) (userId chatRoomId : string)
  : option ChatRoomMember :=
  find (member_matches userId chatRoomId) (chatRoomMembers db).

(** [prisma.chatRoomMember.delete({ where: { id } })]. *)
Definition deleteMember (db : Db) (id : string) : Db :=
  mkDb (users db) (subscriptions db) (chatRooms db)
       (filter (fun m => mem_id m <> id) (chatRoomMembers db))
       (messages db).

(** The largest value of an [Int] column. *)
Definition maxInt : Z := 2147483647.

(** [{ increment: 1 }] on an [Int] column: the update throws when the column
    holds [maxInt]. *)
Definition incrementInt (x : Z) : option Z :=
  if x <? maxInt then Some (x + 1) else None.

(** [enum MessageType]. *)
Definition messageTypes : list string := ["TEXT"; "IMAGE"; "FILE"; "SYSTEM"].

(** The character U+0000, which a text column does not take. *)
Definition hasNul (s : string) : bool :=
  Js.includes s (String zero EmptyString).

(** The columns of a [messages] row hold their types: [type] is a value of
    the enum, the texts are without U+0000, the token counts are [Int]. *)
Definition validMessage (m : Message) : bool :=
  bool_decide (msg_type m ∈ messageTypes)
  && negb (hasNul (msg_content m))
  && negb (hasNul (default "" (msg_aiModel m)))
  && (default 0 (msg_promptTokens m) <=? maxInt)
  && (default 0 (msg_completionTokens m) <=? maxInt).

(** The foreign keys of a [messages] row: [chatRoomId] names a room, and
    [userId], when there is one, names a user. *)
Definition messageReferences (db : Db) (m : Message) : bool :=
  bool_decide (is_Some (chatRooms db !! msg_chatRoomId m))
  && match msg_userId m with
     | Some userId => bool_decide (is_Some (users db !! userId))
     | None => true
     end.

(** [prisma.message.create({ data })]: appends the row; throws on a row that
    the columns or the foreign keys refuse. *)
Definition createMessage (db : Db) (m : Message) : option Db :=
  if validMessage m && messageReferences db m
  then Some (mkDb (users db) (subscriptions db) (chatRooms db) (chatRoomMembers db)
               (messages db ++ [m]))
  else None.

(** [prisma.user.findUnique({ where: { id }, include: { subscription } })]:
    [None] is JavaScript's [null]. *)
Definition findUserWithSubscription (db : Db) (userId : string)
  : option (User * option Subscription) :=
  match users db !! userId with
  | Some u => Some (u, subscriptions db !! userId)
  | None => None
  end.

(** [prisma.subscription.update({ where: { userId },
    data: { messagesUsed: { increment: 1 } } })]: one statement of the
    store; throws when the record does not exist or the column is full. *)
Definition incrementMessagesUsed (db : Db) (userId : string) : option Db :=
  match subscriptions db !! userId with
  | Some s =>
      match incrementInt (messagesUsed s) with
      | Some used =>
          Some (mkDb (users db)
                  (<[userId := mkSubscription (monthlyMessageLimit s) used]>
                     (subscriptions db))
                  (chatRooms db) (chatRoomMembers db) (messages db))
      | None => None
      end
  | None => None
  end.

(** [prisma.user.update({ where: { id },
    data: { messageCount: { increment: 1 } } })]. *)
Definition incrementMessageCount (db : Db) (userId : string) : option Db :=
  match users db !! userId with
  | Some u =>
      match incrementInt (messageCount u) with
      | Some count =>
          Some (mkDb (<[userId := mkUser count]> (users db))
                  (subscriptions db) (chatRooms db) (chatRoomMembers db) (messages db))
      | None => None
      end
  | None => None
  end.

End Prisma.

(** ** The environment of a handler

    The two external calls whose failure the handlers treat specially: the
    generation provider ([generateContent], by model name and prompt) and the
    ledger read of [checkUsageQuota]. *)
Record Env := mkEnv {
  generateContent : string -> string -> option string;
  ledgerReadable : bool
}.

(** ** GeminiService (services/geminiService.ts) *)

Module GeminiService.

Inductive Role := user | assistant.

#[global] Instance Role_eq_dec : EqDecision Role.
Proof. solve_decision. Defined.

Record Turn := mkTurn { role : Role; content : string }.

Record ChatOptions := mkOptions {
  opt_model : option string;
  opt_systemPrompt : option string
}.

Record ChatResponse := mkResponse {
  r_content : string;
  r_promptTokens : Z;
  r_completionTokens : Z;
  r_model : string
}.

Record Quota := mkQuota { canUse : bool; remaining : Z }.

Definition defaultModel : string := "gemini-pro".

(** [systemPrompt ? `${systemPrompt}\n\nUser: ${prompt}` : prompt]. *)
Definition fullPrompt (systemPrompt : option string) (prompt : string) : string :=
  match systemPrompt with
  | Some sp =>
      if Js.truthy sp then sp +:+ Js.nl +:+ Js.nl +:+ "User: " +:+ prompt
      else prompt
  | None => prompt
  end.

(** [generateResponse]: [None] is the thrown
    [Error('Failed to generate AI response')]. *)
Definition generateResponse (env : Env) (prompt : string) (options : ChatOptions)
  : option ChatResponse :=
  let model := default defaultModel (opt_model options) in
  let full := fullPrompt (opt_systemPrompt options) prompt in
  match generateContent env model full with
  | Some text =>
      Some (mkResponse text
              (Js.ceil_div4 (Js.length full))
              (Js.ceil_div4 (Js.length text))
              model)
  | None => None
  end.

(** [`${msg.role === 'user' ? 'User' : 'Assistant'}: ${msg.content}`]. *)
Definition renderTurn (t : Turn) : string :=
  (if bool_decide (role t = user) then "User" else "Assistant") +:+ ": " +:+ content t.

Definition conversationHistory (msgs : list Turn) : string :=
  Js.join Js.nl (map renderTurn msgs).

(** [messages.filter(msg => msg.role === 'user').pop()?.content || '']. *)
Definition lastUserMessage (msgs : list Turn) : string :=
  match Js.last_such (fun t => bool_decide (role t = user)) msgs with
  | Some t => content t
  | None => ""
  end.

(** The prompt built by [generateChatResponse]. *)
Definition chatPrompt (msgs : list Turn) : string :=
  conversationHistory msgs +:+ Js.nl +:+ "User: " +:+ lastUserMessage msgs.

Definition generateChatResponse (env : Env) (msgs : list Turn) (options : ChatOptions)
  : option ChatResponse :=
  generateResponse env (chatPrompt msgs) options.

(** The outcome of the read at the head of [checkUsageQuota]. *)
Inductive LedgerRead :=
| ReadThrows
| ReadOk (row : option (User * option Subscription)).

Definition readLedger (env : Env) (db : Db) (userId : string) : LedgerRead :=
  if ledgerReadable env then ReadOk (Prisma.findUserWithSubscription db userId)
  else ReadThrows.

Definition quotaOfRead (r : LedgerRead) : Quota :=
  match r with
  | ReadOk (Some (_, Some subscription)) =>
      let remaining := monthlyMessageLimit subscription - messagesUsed subscription in
      mkQuota (0 <? remaining) (Z.max 0 remaining)
  | ReadOk _ => mkQuota false 0
  | ReadThrows => mkQuota false 0
  end.

Definition checkUsageQuota (env : Env) (db : Db) (userId : string) : Quota :=
  quotaOfRead (readLedger env db userId).

(** [incrementUsage]: the two updates in sequence.  The boolean is [false]
    when the function throws [Error('Failed to update usage statistics')];
    the store is returned as the failed call left it. *)
Definition incrementUsage (db : Db) (userId : string) : Db * bool :=
  match Prisma.incrementMessagesUsed db userId with
  | Some db1 =>
      match Prisma.incrementMessageCount db1 userId with
      | Some db2 => (db2, true)
      | None => (db1, false)
      end
  | None => (db, false)
  end.

End GeminiService.

(** ** The limiter of the ai-chat route (middleware/rateLimiter.ts)

    [aiChatLimiter] is [rateLimit({ windowMs: 60000, max: async () => 10,
    message })].  Its options are the source's.  The counting is done by
    [express-rate-limit] with its own store: [hits] is the number of requests
    it has counted for the address of a request in the current window, that
    request included, and the request is stopped when it is beyond [max]. *)

Module AiChatLimiter.

Definition windowMs : Z := 60000.

Definition max : Z := 10.

Definition message : string :=
  "AI chat rate limit exceeded. Please wait before sending another message.".

Definition admits (hits : Z) : bool := hits <=? max.

End AiChatLimiter.

(** ** The chat routes (routes/chat.ts) *)

Module ChatRoutes.
Import GeminiService.

(** What a route answers: the JSON body of a successful response, or the
    error made by [createApiError(message, status)]. *)
Inductive ApiResult (A : Type) :=
| Ok (body : A)
| ApiError (message : string) (status : Z).
Arguments Ok {A} body.
Arguments ApiError {A} message status.

Record AiChatData := mkAiChatData {
  data_message : Message;
  usage_remaining : Z;
  usage_promptTokens : Z;
  usage_completionTokens : Z
}.

Definition personaPrompt : string :=
  "You are a helpful AI assistant in a chat room. Be concise and friendly.".

(** The generation call of the route, inside its [try]. *)
Definition generateForRoute (env : Env) (message : string)
    (context : option (list Turn)) (model : string) : option ChatResponse :=
  match context with
  | Some ctx =>
      generateChatResponse env (ctx ++ [mkTurn user message]) (mkOptions (Some model) None)
  | None =>
      generateResponse env message (mkOptions (Some model) (Some personaPrompt))
  end.

(** The row written for an assistant message. *)
Definition aiMessageRow (chatRoomId : string) (r : ChatResponse) : Message :=
  mkMessage (r_content r) "TEXT" AI None chatRoomId
    (Some (r_model r)) (Some (r_promptTokens r)) (Some (r_completionTokens r)).

(** The handler of [POST /:chatRoomId/ai-chat], for the authenticated
    [userId].  The 500 without a message is the exception of a membership
    whose room row is missing, which the foreign key excludes.  The [try]
    holds the generation, the [create] and [incrementUsage]: whichever
    throws, the answer is the same 500, and what was written before stays. *)
Definition aiChat (env : Env) (db : Db) (userId chatRoomId message : string)
    (context : option (list Turn)) (model : string) : Db * ApiResult AiChatData :=
  if negb (Js.truthy message) then (db, ApiError "Message content is required" 400)
  else
    match Prisma.findFirstMember db userId chatRoomId with
    | None => (db, ApiError "Chat room not found or access denied" 404)
    | Some membership =>
        match chatRooms db !! mem_chatRoomId membership with
        | None => (db, ApiError "" 500)
        | Some room =>
            if negb (allowAI room)
            then (db, ApiError "AI is not enabled for this chat room" 403)
            else
              let quota := checkUsageQuota env db userId in
              if negb (canUse quota)
              then (db, ApiError
                          "AI usage quota exceeded. Please upgrade your subscription." 429)
              else
                match generateForRoute env message context model with
                | None => (db, ApiError "Failed to generate AI response" 500)
                | Some aiResponse =>
                    let aiMessage := aiMessageRow chatRoomId aiResponse in
                    match Prisma.createMessage db aiMessage with
                    | None => (db, ApiError "Failed to generate AI response" 500)
                    | Some db1 =>
                        match incrementUsage db1 userId with
                        | (db2, true) =>
                            (db2, Ok (mkAiChatData aiMessage (remaining quota - 1)
                                        (r_promptTokens aiResponse)
                                        (r_completionTokens aiResponse)))
                        | (db2, false) =>
                            (db2, ApiError "Failed to generate AI response" 500)
                        end
                    end
                end
        end
    end.

(** The route with its limiter: [aiChatLimiter] runs before the handler and
    answers 429 with its message when it stops the request. *)
Definition aiChatRoute (env : Env) (db : Db) (hits : Z)
    (userId chatRoomId message : string) (context : option (list Turn)) (model : string)
  : Db * ApiResult AiChatData :=
  if AiChatLimiter.admits hits
  then aiChat env db userId chatRoomId message context model
  else (db, ApiError AiChatLimiter.message 429).

(** [POST /:chatRoomId/leave]. *)
Definition leave (db : Db) (userId chatRoomId : string) : Db * ApiResult string :=
  match Prisma.findFirstMember db userId chatRoomId with
  | None => (db, ApiError "Not a member of this chat room" 404)
  | Some membership =>
      if bool_decide (mem_role membership = OWNER)
      then (db, ApiError "Room owner cannot leave. Please transfer ownership first." 400)
      else (Prisma.deleteMember db (mem_id membership), Ok "Successfully left chat room")
  end.

(** A request to the route: the hits counted by the limiter, and the
    parameters and the body. *)
Record AiChatCall := mkCall {
  call_hits : Z;
  call_room : string;
  call_message : string;
  call_context : option (list Turn);
  call_model : string
}.

Definition answer (env : Env) (db : Db) (userId : string) (c : AiChatCall)
  : Db * ApiResult AiChatData :=
  aiChatRoute env db (call_hits c) userId (call_room c) (call_message c)
    (call_context c) (call_model c).

Fixpoint aiChatSeq (env : Env) (db : Db) (userId : string) (calls : list AiChatCall)
  : Db * list (ApiResult AiChatData) :=
  match calls with
  | [] => (db, [])
  | c :: rest =>
      let '(db1, r) := answer env db userId c in
      let '(db2, rs) := aiChatSeq env db1 userId rest in
      (db2, r :: rs)
  end.

Fixpoint leaveSeq (db : Db) (calls : list (string * string)) : Db :=
  match calls with
  | [] => db
  | (userId, chatRoomId) :: rest => leaveSeq (fst (leave db userId chatRoomId)) rest
  end.

End ChatRoutes.

(** ** The socket handlers (services/socketService.ts) *)

Module SocketService.
Import GeminiService.

Inductive Payload :=
| NewMessage (id : nat) (m : Message)
| ErrorMessage (message : string).

(** [io.to(room).emit(event, payload)] and [socket.emit(event, payload)]. *)
Inductive Emit :=
| ToRoom (chatRoomId event : string) (p : Payload)
| ToSocket (event : string) (p : Payload).

Record State := mkState {
  st_db : Db;
  st_emitted : list Emit
}.

Definition emit (st : State) (e : Emit) : State :=
  mkState (st_db st) (st_emitted st ++ [e]).

(** The generation call of [handleAIResponse]. *)
Definition generateForSocket (env : Env) (userMessage : string)
    (context : option (list Turn)) : option ChatResponse :=
  match context with
  | Some (t :: ctx) =>
      generateChatResponse env ((t :: ctx) ++ [mkTurn user userMessage])
        (mkOptions None None)
  | _ =>
      generateResponse env userMessage
        (mkOptions None (Some ChatRoutes.personaPrompt))
  end.

Definition handleAIResponse (env : Env) (st : State)
    (chatRoomId userMessage userId : string) (context : option (list Turn)) : State :=
  let quota := checkUsageQuota env (st_db st) userId in
  if negb (canUse quota)
  then emit st (ToRoom chatRoomId "ai_error"
                  (ErrorMessage "AI usage quota exceeded. Please upgrade your subscription."))
  else
    match generateForSocket env userMessage context with
    | None =>
        emit st (ToRoom chatRoomId "ai_error"
                   (ErrorMessage "Failed to generate AI response"))
    | Some aiResponse =>
        let aiMessage := ChatRoutes.aiMessageRow chatRoomId aiResponse in
        let id := length (messages (st_db st)) in
        match Prisma.createMessage (st_db st) aiMessage with
        | None =>
            emit st (ToRoom chatRoomId "ai_error"
                       (ErrorMessage "Failed to generate AI response"))
        | Some db1 =>
            match incrementUsage db1 userId with
            | (db2, true) =>
                emit (mkState db2 (st_emitted st))
                  (ToRoom chatRoomId "new_message" (NewMessage id aiMessage))
            | (db2, false) =>
                emit (mkState db2 (st_emitted st))
                  (ToRoom chatRoomId "ai_error"
                     (ErrorMessage "Failed to generate AI response"))
            end
        end
    end.

(** [socket.on('send_message', ...)] for the socket of [userId].  A [create]
    that throws is taken by the [catch] of the handler. *)
Definition send_message (env : Env) (st : State) (userId chatRoomId content : string)
    (type : option string) : State :=
  match Prisma.findFirstMember (st_db st) userId chatRoomId with
  | None =>
      emit st (ToSocket "error"
                 (ErrorMessage "Not authorized to send messages to this room"))
  | Some _ =>
      let message :=
        mkMessage content (default "TEXT" type) USER (Some userId) chatRoomId
          None None None in
      let id := length (messages (st_db st)) in
      match Prisma.createMessage (st_db st) message with
      | None => emit st (ToSocket "error" (ErrorMessage "Failed to send message"))
      | Some db1 =>
          let st1 :=
            emit (mkState db1 (st_emitted st))
              (ToRoom chatRoomId "new_message" (NewMessage id message)) in
          match chatRooms (st_db st1) !! chatRoomId with
          | Some chatRoom =>
              if allowAI chatRoom && Js.includes (Js.toLowerCase content) "@ai"
              then handleAIResponse env st1 chatRoomId content userId None
              else st1
          | None => st1
          end
      end
  end.

(** [socket.on('ai_chat', ...)] for the socket of [userId]. *)
Definition ai_chat (env : Env) (st : State) (userId chatRoomId message : string)
    (context : option (list Turn)) : State :=
  handleAIResponse env st chatRoomId message userId context.

End SocketService.

(** ** The rate limiter (middleware/rateLimiter.ts) *)

Module RateLimiter.

Record Request := mkRequest {
  ip : string;
  authorization : option string
}.

(** The counter store: a Redis key holds an integer and, once [EXPIRE] has
    been called on it, the time (in ms) at which it disappears. *)
Record RedisEntry := mkEntry {
  value : Z;
  expireAt : option Z
}.

Definition live (now : Z) (e : RedisEntry) : bool :=
  match expireAt e with
  | Some t => now <? t
  | None => true
  end.

Definition redis_get (r : gmap string RedisEntry) (now : Z) (key : string)
  : option RedisEntry :=
  match r !! key with
  | Some e => if live now e then Some e else None
  | None => None
  end.

(** [INCR key]. *)
Definition redis_incr (r : gmap string RedisEntry) (now : Z) (key : string)
  : gmap string RedisEntry * Z :=
  match redis_get r now key with
  | Some e => (<[key := mkEntry (value e + 1) (expireAt e)]> r, value e + 1)
  | None => (<[key := mkEntry 1 None]> r, 1)
  end.

(** [EXPIRE key seconds]. *)
Definition redis_expire (r : gmap string RedisEntry) (now : Z) (key : string)
    (seconds : Z) : gmap string RedisEntry :=
  match redis_get r now key with
  | Some e => <[key := mkEntry (value e) (Some (now + seconds * 1000))]> r
  | None => r
  end.

(** [createRedisStore().incr]: the pair is [{ totalHits, resetTime }]. *)
Definition incr (r : gmap string RedisEntry) (now : Z) (key : string)
  : gmap string RedisEntry * (Z * Z) :=
  let '(r1, result) := redis_incr r now key in
  let r2 := if result =? 1 then redis_expire r1 now key 900 else r1 in
  (r2, (result, now + 900000)).

(** [keyGenerator]. *)
Definition keyGenerator (req : Request) : string :=
  match authorization req with
  | Some authHeader =>
      if Js.truthy authHeader then "rate_limit:" +:+ ip req +:+ ":auth"
      else "rate_limit:" +:+ ip req
  | None => "rate_limit:" +:+ ip req
  end.

(** The environment variables read by the limiter, already parsed. *)
Record Config := mkConfig {
  RATE_LIMIT_WINDOW_MS : option Z;
  RATE_LIMIT_MAX_REQUESTS : option Z;
  RATE_LIMIT_PREMIUM_MAX_REQUESTS : option Z
}.

Definition windowMs (cfg : Config) : Z := default 900000 (RATE_LIMIT_WINDOW_MS cfg).

(** [String.prototype.split] on a one-character separator. *)
Fixpoint split (sep : ascii) (s : string) : list string :=
  match s with
  | EmptyString => [EmptyString]
  | String c rest =>
      if bool_decide (c = sep) then EmptyString :: split sep rest
      else
        match split sep rest with
        | x :: xs => String c x :: xs
        | [] => [String c EmptyString]
        end
  end.

(** [authHeader && authHeader.split(' ')[1]], as a truth value. *)
Definition hasToken (req : Request) : bool :=
  match authorization req with
  | Some authHeader =>
      Js.truthy authHeader &&
      match split " "%char authHeader !! 1%nat with
      | Some token => Js.truthy token
      | None => false
      end
  | None => false
  end.

(** The [max] option of [rateLimiter]. *)
Definition max (cfg : Config) (req : Request) : Z :=
  if hasToken req then default 1000 (RATE_LIMIT_PREMIUM_MAX_REQUESTS cfg)
  else default 100 (RATE_LIMIT_MAX_REQUESTS cfg).

Record CheckResult := mkCheck {
  allowed : bool;
  totalHits : Z;
  resetAt : Z
}.

(** Modelled from the spec: the decision of the limiter middleware, which is
    the [express-rate-limit] dependency and not part of the sources.  It
    calls the store's [incr] for the key and rejects a hit beyond [maxHits].
    The configured window [windowMs] is an option of the middleware; the
    store of [createRedisStore] has no access to it. *)
Definition check (r : gmap string RedisEntry) (now : Z) (key : string)
    (windowMs maxHits : Z) : gmap string RedisEntry * CheckResult :=
  let '(r', (hits, resetTime)) := incr r now key in
  (r', mkCheck (hits <=? maxHits) hits resetTime).

(** The general limiter mounted on every request. *)
Definition rateLimiter (cfg : Config) (r : gmap string RedisEntry) (now : Z)
    (req : Request) : gmap string RedisEntry * CheckResult :=
  check r now (keyGenerator req) (windowMs cfg) (max cfg req).

End RateLimiter.

(** ** Overlapping invocations of the ai-chat route

    The route is an [async] function: between two [await]s another request
    may run.  A task records where an invocation stands; one step runs it up
    to its next [await], against the shared store. *)

Module Interleaving.
Import GeminiService ChatRoutes.

Inductive Pc :=
| AtLimiter
| AtMembership
| AtQuota
| AtGenerate (quota : Quota)
| AtCreate (quota : Quota) (aiResponse : ChatResponse)
| AtIncrementSubscription (quota : Quota) (aiResponse : ChatResponse)
| AtIncrementUser (quota : Quota) (aiResponse : ChatResponse)
| Finished (r : ApiResult AiChatData).

Record Task := mkTask {
  task_user : string;
  task_call : AiChatCall;
  task_pc : Pc
}.

Definition start (userId : string) (c : AiChatCall) : Task :=
  mkTask userId c AtLimiter.

Definition step (env : Env) (db : Db) (t : Task) : Db * Task :=
  let userId := task_user t in
  let c := task_call t in
  let goto db' pc := (db', mkTask userId c pc) in
  let failed := Finished (ApiError "Failed to generate AI response" 500) in
  match task_pc t with
  | AtLimiter =>
      if AiChatLimiter.admits (call_hits c) then goto db AtMembership
      else goto db (Finished (ApiError AiChatLimiter.message 429))
  | AtMembership =>
      if negb (Js.truthy (call_message c))
      then goto db (Finished (ApiError "Message content is required" 400))
      else
        match Prisma.findFirstMember db userId (call_room c) with
        | None => goto db (Finished (ApiError "Chat room not found or access denied" 404))
        | Some membership =>
            match chatRooms db !! mem_chatRoomId membership with
            | None => goto db (Finished (ApiError "" 500))
            | Some room =>
                if negb (allowAI room)
                then goto db (Finished (ApiError "AI is not enabled for this chat room" 403))
                else goto db AtQuota
            end
        end
  | AtQuota =>
      let quota := checkUsageQuota env db userId in
      if negb (canUse quota)
      then goto db (Finished (ApiError
                      "AI usage quota exceeded. Please upgrade your subscription." 429))
      else goto db (AtGenerate quota)
  | AtGenerate quota =>
      match generateForRoute env (call_message c) (call_context c) (call_model c) with
      | None => goto db failed
      | Some aiResponse => goto db (AtCreate quota aiResponse)
      end
  | AtCreate quota aiResponse =>
      match Prisma.createMessage db (aiMessageRow (call_room c) aiResponse) with
      | Some db1 => goto db1 (AtIncrementSubscription quota aiResponse)
      | None => goto db failed
      end
  | AtIncrementSubscription quota aiResponse =>
      match Prisma.incrementMessagesUsed db userId with
      | Some db1 => goto db1 (AtIncrementUser quota aiResponse)
      | None => goto db failed
      end
  | AtIncrementUser quota aiResponse =>
      match Prisma.incrementMessageCount db userId with
      | Some db1 =>
          goto db1 (Finished (Ok (mkAiChatData
                                    (aiMessageRow (call_room c) aiResponse)
                                    (remaining quota - 1)
                                    (r_promptTokens aiResponse)
                                    (r_completionTokens aiResponse))))
      | None => goto db failed
      end
  | Finished r => (db, t)
  end.

(** [n] turns in a row of one task. *)
Fixpoint turns (env : Env) (n : nat) (db : Db) (t : Task) : Db * Task :=
  match n with
  | O => (db, t)
  | S n' => let '(db', t') := step env db t in turns env n' db' t'
  end.

(** One turn of the event loop: task number [i] runs to its next [await]. *)
Definition schedule1 (env : Env) (st : Db * list Task) (i : nat) : Db * list Task :=
  match snd st !! i with
  | Some t =>
      let '(db', t') := step env (fst st) t in
      (db', <[i := t']> (snd st))
  | None => st
  end.

Definition run (env : Env) (sched : list nat) (st : Db * list Task) : Db * list Task :=
  fold_left (schedule1 env) sched st.

(** The schedule in which every invocation completes before the next one
    starts: seven turns for task 0, then seven for task 1, and so on. *)
Definition sequentialSchedule (k : nat) : list nat :=
  flat_map (fun i => repeat i 7) (seq 0 k).

Definition isFinished (t : Task) : bool :=
  match task_pc t with Finished _ => true | _ => false end.

Definition succeeded (t : Task) : bool :=
  match task_pc t with Finished (Ok _) => true | _ => false end.

(** The invocation was refused by the quota check of the handler. *)
Definition quotaExceeded (t : Task) : bool :=
  match task_pc t with
  | Finished (ApiError message status) =>
      bool_decide
        (message = "AI usage quota exceeded. Please upgrade your subscription.")
      && (status =? 429)
  | _ => false
  end.

(** The invocation has passed its [subscription.update]. *)
Definition incremented (t : Task) : bool :=
  match task_pc t with
  | AtIncrementUser _ _ | Finished (Ok _) => true
  | _ => false
  end.

Definition countIf (p : Task -> bool) (tasks : list Task) : Z :=
  Z.of_nat (length (filter (fun t => p t = true) tasks)).

End Interleaving.

(** ** Vocabulary of the statements *)

(** The first two checks of the ai-chat route pass: the caller has a
    membership row for the room, and the room of that row allows the
    assistant. *)
Definition memberOfAiRoom (db : Db) (userId chatRoomId : string) : Prop :=
  exists membership room,
    Prisma.findFirstMember db userId chatRoomId = Some membership /\
    chatRooms db !! mem_chatRoomId membership = Some room /\
    allowAI room = true.

(** The store with one more row in [messages]. *)
Definition withMessage (db : Db) (m : Message) : Db :=
  mkDb (users db) (subscriptions db) (chatRooms db) (chatRoomMembers db)
       (messages db ++ [m]).

(** The store after both updates of [incrementUsage] went through for
    [userId]. *)
Definition consumed (db : Db) (userId : string) (u : User) (s : Subscription) : Db :=
  mkDb (<[userId := mkUser (messageCount u + 1)]> (users db))
       (<[userId := mkSubscription (monthlyMessageLimit s) (messagesUsed s + 1)]>
          (subscriptions db))
       (chatRooms db) (chatRoomMembers db) (messages db).

(** The bodies of the successful answers in a list of answers. *)
Definition okBodies {A} (rs : list (ChatRoutes.ApiResult A)) : list A :=
  omap (fun r => match r with ChatRoutes.Ok b => Some b | _ => None end) rs.

(** The constraints of the membership table: [@id] on [id] and
    [@@unique([userId, chatRoomId])]. *)
Definition wellFormedMembers (db : Db) : Prop :=
  NoDup (mem_id <$> chatRoomMembers db) /\
  NoDup ((fun m => (mem_userId m, mem_chatRoomId m)) <$> chatRoomMembers db).

(** [userId] holds the owner role of [chatRoomId]. *)
Definition holdsOwner (db : Db) (userId chatRoomId : string) : Prop :=
  exists m, m ∈ chatRoomMembers db /\ mem_userId m = userId /\
            mem_chatRoomId m = chatRoomId /\ mem_role m = OWNER.

Definition ownerCannotLeave {A} : ChatRoutes.ApiResult A :=
  ChatRoutes.ApiError "Room owner cannot leave. Please transfer ownership first." 400.

Definition quotaExceededError {A} : ChatRoutes.ApiResult A :=
  ChatRoutes.ApiError "AI usage quota exceeded. Please upgrade your subscription." 429.

Definition generationFailedError {A} : ChatRoutes.ApiResult A :=
  ChatRoutes.ApiError "Failed to generate AI response" 500.

(** A call that the limiter lets through, that passes the first two checks
    of the handler, and on which the provider answers with a text that the
    columns of a message take. *)
Definition eligible (env : Env) (db : Db) (userId : string)
    (c : ChatRoutes.AiChatCall) : Prop :=
  AiChatLimiter.admits (ChatRoutes.call_hits c) = true /\
  Js.truthy (ChatRoutes.call_message c) = true /\
  memberOfAiRoom db userId (ChatRoutes.call_room c) /\
  exists r,
    ChatRoutes.generateForRoute env (ChatRoutes.call_message c)
      (ChatRoutes.call_context c) (ChatRoutes.call_model c) = Some r /\
    Prisma.validMessage (ChatRoutes.aiMessageRow (ChatRoutes.call_room c) r) = true.

(** A task of [userId] on an eligible call; the response it is about to
    store is one the columns take; if it has finished, it has either
    succeeded or been refused for quota. *)
Definition taskOk (env : Env) (db0 : Db) (userId : string) (t : Interleaving.Task) : Prop :=
  Interleaving.task_user t = userId /\
  eligible env db0 userId (Interleaving.task_call t) /\
  (forall quota r,
      Interleaving.task_pc t = Interleaving.AtCreate quota r ->
      Prisma.validMessage
        (ChatRoutes.aiMessageRow (ChatRoutes.call_room (Interleaving.task_call t)) r)
      = true) /\
  (forall r, Interleaving.task_pc t = Interleaving.Finished r ->
             (exists b, r = ChatRoutes.Ok b) \/ r = quotaExceededError).

(** The invariant of overlapping invocations by one user, started on the
    store [db0] where the account was [u0] and the subscription [s0]: the
    lifetime counter is the initial one plus the number of successes, the
    consumed count is the initial one plus the number of tasks past their
    increment, and a task was refused for quota only once that number had
    reached the initial allowance. *)
Definition ledgerInv (env : Env) (db0 : Db) (userId : string) (u0 : User)
    (s0 : Subscription) (st : Db * list Interleaving.Task) : Prop :=
  users (fst st) !! userId
  = Some (mkUser (messageCount u0 + Interleaving.countIf Interleaving.succeeded (snd st))) /\
  subscriptions (fst st) !! userId
  = Some (mkSubscription (monthlyMessageLimit s0)
            (messagesUsed s0 + Interleaving.countIf Interleaving.incremented (snd st))) /\
  chatRooms (fst st) = chatRooms db0 /\
  chatRoomMembers (fst st) = chatRoomMembers db0 /\
  Forall (taskOk env db0 userId) (snd st) /\
  (0 < Interleaving.countIf Interleaving.quotaExceeded (snd st) ->
   monthlyMessageLimit s0 - messagesUsed s0
   <= Interleaving.countIf Interleaving.incremented (snd st)).

(** ** Fixtures used by the examples *)

Module Fixtures.
Import GeminiService.

(** A provider that answers every prompt with the prompt itself. *)
Definition echo : Env := mkEnv (fun _ prompt => Some prompt) true.


(** Room [r1] is owned by [alice]; [bob] and [dave] are plain members.
    [alice] has one unit of allowance left, [bob] has used all of his, [dave]
    has no subscription record.  [carol] has an account and a subscription
    but belongs to no room.  Room [r2] has the assistant switched off and
    [alice] as its only member. *)
Definition db0 : Db :=
  mkDb
    (<["alice" := mkUser 0]> (<["bob" := mkUser 50]> (<["carol" := mkUser 0]>
       (<["dave" := mkUser 0]> ∅))))
    (<["alice" := mkSubscription 1 0]>
       (<["bob" := mkSubscription 50 50]> (<["carol" := mkSubscription 50 0]> ∅)))
    (<["r1" := mkChatRoom true "gemini-pro"]> (<["r2" := mkChatRoom false "gemini-pro"]> ∅))
    [ mkMember "m1" "alice" "r1" OWNER;
      mkMember "m2" "bob" "r1" MEMBER;
      mkMember "m3" "alice" "r2" OWNER;
      mkMember "m4" "dave" "r1" MEMBER ]
    [].

Definition usedBy (db : Db) (userId : string) : option Z :=
  messagesUsed <$> subscriptions db !! userId.

(** The first request of a window. *)
Definition hello : ChatRoutes.AiChatCall :=
  ChatRoutes.mkCall 1 "r1" "hello" None "gemini-pro".

End Fixtures.

(** ** Columns beside the core store

    The handlers below read columns of [users] and [chat_rooms] that the
    handlers above never touch.  They are kept in maps of their own, keyed
    like the tables they belong to. *)

Module Tables.

Inductive UserRole := USER | ADMIN | MODERATOR.

Inductive UserStatus := ACTIVE | INACTIVE | SUSPENDED | PENDING_VERIFICATION.

Inductive ChatRoomType := PRIVATE | PUBLIC | GROUP.

#[global] Instance UserRole_eq_dec : EqDecision UserRole.
Proof. solve_decision. Defined.

#[global] Instance UserStatus_eq_dec : EqDecision UserStatus.
Proof. solve_decision. Defined.

#[global] Instance ChatRoomType_eq_dec : EqDecision ChatRoomType.
Proof. solve_decision. Defined.

(** [email], [role] and [status] of a [users] row. *)
Record Account := mkAccount {
  acc_email : string;
  acc_role : UserRole;
  acc_status : UserStatus
}.

(** [type] and [maxMembers] of a [chat_rooms] row. *)
Record RoomAccess := mkAccess {
  room_type : ChatRoomType;
  maxMembers : Z
}.

Record Store := mkStore {
  core : Db;
  accounts : gmap string Account;
  access : gmap string RoomAccess
}.

(** What a handler answers: the JSON of a success, a failure with its status
    and message ([createApiError], or [res.status(..).json] with
    [success: false]), or an exception that no [catch] of the sources takes. *)
Inductive Answer (A : Type) :=
| Success (body : A)
| Failure (status : Z) (message : string)
| Uncaught.
Arguments Success {A} body.
Arguments Failure {A} status message.
Arguments Uncaught {A}.

End Tables.

(** ** Authentication (middleware/auth.ts and the socket middleware) *)

Module Auth.
Import Tables.

(** [req.user] and [socket.user]. *)
Record ReqUser := mkReqUser {
  ru_id : string;
  ru_email : string;
  ru_role : UserRole
}.

Inductive Outcome :=
| Next (user : ReqUser)
| Reject (status : Z) (message : string).

(** [authHeader && authHeader.split(' ')[1]], when it is truthy. *)
Definition bearerToken (authorization : option string) : option string :=
  match authorization with
  | Some authHeader =>
      if Js.truthy authHeader then
        match RateLimiter.split " "%char authHeader !! 1%nat with
        | Some token => if Js.truthy token then Some token else None
        | None => None
        end
      else None
  | None => None
  end.

(** [prisma.user.findUnique({ where: { id, status: 'ACTIVE' } })]. *)
Definition findActive (accounts : gmap string Account) (userId : string)
  : option ReqUser :=
  match accounts !! userId with
  | Some a =>
      if bool_decide (acc_status a = ACTIVE)
      then Some (mkReqUser userId (acc_email a) (acc_role a))
      else None
  | None => None
  end.

(** [authenticateToken].  [verify] is [jwt.verify] followed by the read of
    [decoded.userId]: [None] when it throws or the payload has no user id,
    which the [catch] answers alike. *)
Definition authenticateToken (verify : string -> option string)
    (accounts : gmap string Account) (authorization : option string) : Outcome :=
  match bearerToken authorization with
  | None => Reject 401 "Access token required"
  | Some token =>
      match verify token with
      | None => Reject 401 "Invalid or expired token"
      | Some userId =>
          match findActive accounts userId with
          | Some u => Next u
          | None => Reject 401 "Invalid or expired token"
          end
      end
  end.

(** [requireRole(roles)], on the [req.user] left by the middleware before. *)
Definition requireRole (roles : list UserRole) (user : option ReqUser) : Outcome :=
  match user with
  | None => Reject 401 "Authentication required"
  | Some u =>
      if bool_decide (ru_role u ∈ roles) then Next u
      else Reject 403 "Insufficient permissions"
  end.

Definition requireAdmin := requireRole [ADMIN].

Definition requireModeratorOrAdmin := requireRole [MODERATOR; ADMIN].

(** The [io.use] middleware of the socket server, on
    [socket.handshake.auth.token]: the user or the message of the error
    handed to [next]. *)
Definition socketAuth (verify : string -> option string)
    (accounts : gmap string Account) (token : option string) : ReqUser + string :=
  match token with
  | Some t =>
      if Js.truthy t then
        match verify t with
        | None => inr "Authentication failed"
        | Some userId =>
            match findActive accounts userId with
            | Some u => inl u
            | None => inr "Invalid token"
            end
        end
      else inr "Authentication token required"
  | None => inr "Authentication token required"
  end.

End Auth.

(** ** The registry of live sockets (services/socketService.ts)

    Socket.IO keeps, for every room, the sockets that joined it.  The
    registry is that relation, together with the [connectedUsers] map of the
    module. *)

Module Registry.
Import Tables Auth.

Record Socket := mkSocket {
  sock_id : string;
  sock_user : ReqUser
}.

Record Hub := mkHub {
  joined : gset (string * string);
  connectedUsers : gmap string string
}.

Inductive Notice :=
| JoinedRoom (chatRoomId : string)
| LeftRoom (chatRoomId : string)
| ErrorNotice (message : string)
| UserTyping (userId username : string)
| UserStopTyping (userId : string).

(** One [emit]: the sockets it reaches, the event name and the payload. *)
Record Delivery := mkDelivery {
  dl_to : gset string;
  dl_event : string;
  dl_notice : Notice
}.

(** The sockets in a room. *)
Definition socketsIn (hub : Hub) (chatRoomId : string) : gset string :=
  set_map fst (filter (fun p => snd p = chatRoomId) (joined hub)).

(** [socket.join(room)] and [socket.leave(room)]. *)
Definition socketJoin (hub : Hub) (socketId chatRoomId : string) : Hub :=
  mkHub ({[(socketId, chatRoomId)]} ∪ joined hub) (connectedUsers hub).

Definition socketLeave (hub : Hub) (socketId chatRoomId : string) : Hub :=
  mkHub (joined hub ∖ {[(socketId, chatRoomId)]}) (connectedUsers hub).

(** [socket.emit], [socket.to(room).emit] (the room except the sender) and
    [io.to(room).emit] (the whole room). *)
Definition toSelf (s : Socket) (event : string) (n : Notice) : Delivery :=
  mkDelivery {[sock_id s]} event n.

Definition toOthers (hub : Hub) (s : Socket) (chatRoomId event : string) (n : Notice)
  : Delivery :=
  mkDelivery (socketsIn hub chatRoomId ∖ {[sock_id s]}) event n.


(** [prisma.chatRoomMember.findMany({ where: { userId } })], as room ids. *)
Definition roomsOf (db : Db) (userId : string) : list string :=
  mem_chatRoomId <$> filter (fun m => mem_userId m = userId) (chatRoomMembers db).

(** [joinUserChatRooms]. *)
Definition joinUserChatRooms (db : Db) (hub : Hub) (s : Socket) : Hub :=
  foldl (fun h chatRoomId => socketJoin h (sock_id s) chatRoomId) hub
    (roomsOf db (ru_id (sock_user s))).

(** [io.on('connection', ...)], up to the registration of the handlers. *)
Definition connection (db : Db) (hub : Hub) (s : Socket) : Hub :=
  joinUserChatRooms db
    (mkHub (joined hub) (<[ru_id (sock_user s) := sock_id s]> (connectedUsers hub))) s.

(** [socket.on('join_room', ...)]. *)
Definition join_room (db : Db) (hub : Hub) (s : Socket) (chatRoomId : string)
  : Hub * Delivery :=
  match Prisma.findFirstMember db (ru_id (sock_user s)) chatRoomId with
  | None => (hub, toSelf s "error" (ErrorNotice "Not authorized to join this room"))
  | Some _ =>
      (socketJoin hub (sock_id s) chatRoomId,
       toSelf s "joined_room" (JoinedRoom chatRoomId))
  end.

(** [socket.on('leave_room', ...)]. *)
Definition leave_room (hub : Hub) (s : Socket) (chatRoomId : string) : Hub * Delivery :=
  (socketLeave hub (sock_id s) chatRoomId, toSelf s "left_room" (LeftRoom chatRoomId)).

(** [email.split('@')[0]]. *)
Definition usernameOf (email : string) : string :=
  default "" (RateLimiter.split "@"%char email !! 0%nat).

(** [socket.on('typing_start', ...)] and [socket.on('typing_stop', ...)]. *)
Definition typing_start (hub : Hub) (s : Socket) (chatRoomId : string) : Delivery :=
  toOthers hub s chatRoomId "user_typing"
    (UserTyping (ru_id (sock_user s)) (usernameOf (ru_email (sock_user s)))).

Definition typing_stop (hub : Hub) (s : Socket) (chatRoomId : string) : Delivery :=
  toOthers hub s chatRoomId "user_stop_typing" (UserStopTyping (ru_id (sock_user s))).

(** [socket.on('disconnect', ...)]: Socket.IO has taken the socket out of
    its rooms when the handler runs; the handler deletes the user's entry. *)
Definition disconnect (hub : Hub) (s : Socket) : Hub :=
  mkHub (filter (fun p => fst p <> sock_id s) (joined hub))
        (delete (ru_id (sock_user s)) (connectedUsers hub)).

End Registry.

(** ** Resets of the ledger *)

Module Ledger.
Import Tables.

(** [GeminiService.resetMonthlyUsage]:
    [prisma.subscription.updateMany({ data: { messagesUsed: 0 } })]. *)
Definition resetMonthlyUsage (db : Db) : Db :=
  mkDb (users db)
       ((fun s => mkSubscription (monthlyMessageLimit s) 0) <$> subscriptions db)
       (chatRooms db) (chatRoomMembers db) (messages db).

(** [prisma.subscription.update({ where: { userId }, data: { messagesUsed: 0 } })];
    throws when the record does not exist. *)
Definition resetMessagesUsed (db : Db) (userId : string) : option Db :=
  match subscriptions db !! userId with
  | Some s =>
      Some (mkDb (users db)
              (<[userId := mkSubscription (monthlyMessageLimit s) 0]> (subscriptions db))
              (chatRooms db) (chatRoomMembers db) (messages db))
  | None => None
  end.

(** [GET /stats], the [remaining] field:
    [(monthlyMessageLimit || 0) - (messagesUsed || 0)] on
    [user.subscription?]. *)
Definition orZero (x : option Z) : Z := default 0 x.

Definition statsRemaining (db : Db) (userId : string) : Z :=
  orZero (monthlyMessageLimit <$> subscriptions db !! userId)
  - orZero (messagesUsed <$> subscriptions db !! userId).

End Ledger.

(** ** The admin routes (routes/admin.ts) *)

Module Admin.
Import Tables Auth.

(** [validRoles.includes(role)], with the enum value the string names. *)
Definition parseRole (role : string) : option UserRole :=
  if bool_decide (role = "USER") then Some USER
  else if bool_decide (role = "MODERATOR") then Some MODERATOR
  else if bool_decide (role = "ADMIN") then Some ADMIN
  else None.

(** [validStatuses.includes(status)]. *)
Definition parseStatus (status : string) : option UserStatus :=
  if bool_decide (status = "ACTIVE") then Some ACTIVE
  else if bool_decide (status = "INACTIVE") then Some INACTIVE
  else if bool_decide (status = "SUSPENDED") then Some SUSPENDED
  else if bool_decide (status = "PENDING_VERIFICATION") then Some PENDING_VERIFICATION
  else None.

(** [PUT /users/:userId/role], for the admin [actor]. *)
Definition putUserRole (st : Store) (actor : ReqUser) (userId role : string)
  : Store * Answer string :=
  match parseRole role with
  | None => (st, Failure 400 "Invalid role")
  | Some r =>
      if bool_decide (userId = ru_id actor) && negb (bool_decide (role = "ADMIN"))
      then (st, Failure 400 "Cannot change your own admin role")
      else
        match accounts st !! userId with
        | Some a =>
            (mkStore (core st)
               (<[userId := mkAccount (acc_email a) r (acc_status a)]> (accounts st))
               (access st),
             Success "User role updated successfully")
        | None => (st, Uncaught)
        end
  end.

(** [PUT /users/:userId/status]. *)
Definition putUserStatus (st : Store) (actor : ReqUser) (userId status : string)
  : Store * Answer string :=
  match parseStatus status with
  | None => (st, Failure 400 "Invalid status")
  | Some s =>
      match accounts st !! userId with
      | Some a =>
          (mkStore (core st)
             (<[userId := mkAccount (acc_email a) (acc_role a) s]> (accounts st))
             (access st),
           Success "User status updated successfully")
      | None => (st, Uncaught)
      end
  end.

(** [POST /users/:userId/reset-usage]. *)
Definition postResetUsage (st : Store) (actor : ReqUser) (userId : string)
  : Store * Answer string :=
  match Ledger.resetMessagesUsed (core st) userId with
  | Some db => (mkStore db (accounts st) (access st), Success "User usage reset successfully")
  | None => (st, Uncaught)
  end.

Inductive Call :=
| PutRole (userId role : string)
| PutStatus (userId status : string)
| ResetUsage (userId : string).

Definition route (st : Store) (actor : ReqUser) (c : Call) : Store * Answer string :=
  match c with
  | PutRole userId role => putUserRole st actor userId role
  | PutStatus userId status => putUserStatus st actor userId status
  | ResetUsage userId => postResetUsage st actor userId
  end.

(** A request to the admin router: [router.use(authenticateToken)],
    [router.use(requireAdmin)], then the route. *)
Definition request (verify : string -> option string) (st : Store)
    (authorization : option string) (c : Call) : Store * Answer string :=
  match authenticateToken verify (accounts st) authorization with
  | Reject status message => (st, Failure status message)
  | Next u =>
      match requireAdmin (Some u) with
      | Reject status message => (st, Failure status message)
      | Next actor => route st actor c
      end
  end.

Fixpoint requests (verify : string -> option string) (st : Store)
    (rs : list (option string * Call)) : Store :=
  match rs with
  | [] => st
  | (authorization, c) :: rest =>
      requests verify (fst (request verify st authorization c)) rest
  end.

End Admin.

(** ** Rooms: create, join and send over HTTP (routes/chat.ts) *)

Module Rooms.
Import Tables.

(** [isLength({ min, max })] of express-validator.  The length it compares
    is [str.length] less the number of surrogate pairs and of variation
    selectors: the code points that are not variation selectors. *)
Definition validatorLength (s : string) : nat :=
  (Js.codePoints s - Js.variationSelectors s)%nat.

Definition isLength (lo hi : nat) (s : string) : bool :=
  (lo <=? validatorLength s)%nat && (validatorLength s <=? hi)%nat.

Definition parseType (type : string) : option ChatRoomType :=
  if bool_decide (type = "PRIVATE") then Some PRIVATE
  else if bool_decide (type = "PUBLIC") then Some PUBLIC
  else if bool_decide (type = "GROUP") then Some GROUP
  else None.

(** [createChatRoomValidator], as [errors.isEmpty()]. *)
Definition createChatRoomValid (name : string) (description type : option string)
    (maxMembers : option Z) : bool :=
  isLength 1 100 name
  && match description with Some d => isLength 0 500 d | None => true end
  && match type with Some t => bool_decide (is_Some (parseType t)) | None => true end
  && match maxMembers with Some n => (2 <=? n) && (n <=? 100) | None => true end.

(** [sendMessageValidator], as [errors.isEmpty()]. *)
Definition sendMessageValid (content : string) (type : option string) : bool :=
  isLength 1 4000 content
  && match type with
     | Some t => bool_decide (t = "TEXT" \/ t = "IMAGE" \/ t = "FILE")
     | None => true
     end.

Definition memberCount (db : Db) (chatRoomId : string) : Z :=
  Z.of_nat (length (filter (fun m => mem_chatRoomId m = chatRoomId) (chatRoomMembers db))).

(** [prisma.chatRoomMember.create]: the row gets the identifier [newId] drawn
    for it; the call throws on a value already used ([@id]) and on a pair
    already present ([@@unique]). *)
Definition createMember (db : Db) (m : ChatRoomMember) : option Db :=
  if bool_decide (mem_id m ∈ mem_id <$> chatRoomMembers db) then None
  else if bool_decide ((mem_userId m, mem_chatRoomId m)
                       ∈ (fun x => (mem_userId x, mem_chatRoomId x)) <$> chatRoomMembers db)
  then None
  else Some (mkDb (users db) (subscriptions db) (chatRooms db)
               (chatRoomMembers db ++ [m]) (messages db)).

(** [POST /]: the room is created with the schema's defaults for the
    assistant and with its creator as [OWNER].  The [create] throws on an
    identifier already used and on a text with U+0000. *)
Definition postRoom (st : Store) (userId newRoomId newMemberId name : string)
    (description type : option string) (maxMembers : option Z)
  : Store * Answer string :=
  if negb (createChatRoomValid name description type maxMembers)
  then (st, Failure 400 "Validation failed")
  else
    match chatRooms (core st) !! newRoomId, access st !! newRoomId with
    | None, None =>
        if Prisma.hasNul name || Prisma.hasNul (default "" description)
        then (st, Uncaught)
        else
          let db := core st in
          let db1 := mkDb (users db) (subscriptions db)
                       (<[newRoomId := mkChatRoom true "gemini-pro"]> (chatRooms db))
                       (chatRoomMembers db) (messages db) in
          match createMember db1 (mkMember newMemberId userId newRoomId OWNER) with
          | Some db2 =>
              (mkStore db2 (accounts st)
                 (<[newRoomId := mkAccess (default PRIVATE (type ≫= parseType))
                                   (default 10 maxMembers)]> (access st)),
               Success "Chat room created successfully")
          | None => (st, Uncaught)
          end
    | _, _ => (st, Uncaught)
    end.

(** [POST /:chatRoomId/join]. *)
Definition postJoin (st : Store) (userId newMemberId chatRoomId : string)
  : Store * Answer string :=
  match chatRooms (core st) !! chatRoomId, access st !! chatRoomId with
  | Some _, Some a =>
      if bool_decide (room_type a = PRIVATE)
      then (st, Failure 403 "Cannot join private chat room")
      else if maxMembers a <=? memberCount (core st) chatRoomId
      then (st, Failure 403 "Chat room is full")
      else
        match Prisma.findFirstMember (core st) userId chatRoomId with
        | Some _ => (st, Failure 400 "Already a member of this chat room")
        | None =>
            match createMember (core st) (mkMember newMemberId userId chatRoomId MEMBER) with
            | Some db => (mkStore db (accounts st) (access st),
                          Success "Successfully joined chat room")
            | None => (st, Uncaught)
            end
        end
  | _, _ => (st, Failure 404 "Chat room not found")
  end.

(** [POST /:chatRoomId/leave], on the store with its side tables. *)
Definition postLeave (st : Store) (userId chatRoomId : string)
  : Store * ChatRoutes.ApiResult string :=
  let '(db, r) := ChatRoutes.leave (core st) userId chatRoomId in
  (mkStore db (accounts st) (access st), r).

End Rooms.

(** ** Messages over HTTP (routes/chat.ts) *)

Module HttpMessages.

(** [POST /:chatRoomId/messages]. *)
Definition postMessage (db : Db) (userId chatRoomId content : string)
    (type : option string) : Db * Tables.Answer Message :=
  if negb (Rooms.sendMessageValid content type)
  then (db, Tables.Failure 400 "Validation failed")
  else
    match Prisma.findFirstMember db userId chatRoomId with
    | None => (db, Tables.Failure 404 "Chat room not found or access denied")
    | Some _ =>
        let message :=
          mkMessage content (default "TEXT" type) USER (Some userId) chatRoomId
            None None None in
        match Prisma.createMessage db message with
        | Some db1 => (db1, Tables.Success message)
        | None => (db, Tables.Uncaught)
        end
    end.

End HttpMessages.

(** ** The account routes (routes/users.ts) *)

Module Users.
Import Tables.




End Users.

(** ** The other calls of the limiter's store (middleware/rateLimiter.ts) *)

Module RedisStore.
Import RateLimiter.

(** [DECR key]. *)
Definition redis_decr (r : gmap string RedisEntry) (now : Z) (key : string)
  : gmap string RedisEntry :=
  match redis_get r now key with
  | Some e => <[key := mkEntry (value e - 1) (expireAt e)]> r
  | None => <[key := mkEntry (-1) None]> r
  end.

(** [createRedisStore().decrement] and [createRedisStore().resetKey]
    ([DEL key]). *)
Definition decrement (r : gmap string RedisEntry) (now : Z) (key : string)
  : gmap string RedisEntry :=
  redis_decr r now key.

Definition resetKey (r : gmap string RedisEntry) (key : string)
  : gmap string RedisEntry :=
  delete key r.

End RedisStore.

(** ** Requests of several users, one after the other *)

Module Traffic.
Import ChatRoutes.

Fixpoint aiChatMany (env : Env) (db : Db) (calls : list (string * AiChatCall))
  : Db * list (ApiResult AiChatData) :=
  match calls with
  | [] => (db, [])
  | (userId, c) :: rest =>
      let '(db1, r) := answer env db userId c in
      let '(db2, rs) := aiChatMany env db1 rest in
      (db2, r :: rs)
  end.

End Traffic.

(** ** Fixtures of the side tables *)

Module Fixtures2.

(** [alice] is an administrator, [bob] a plain user, [erin] a suspended
    administrator. *)
Definition accounts0 : gmap string Tables.Account :=
  <["alice" := Tables.mkAccount "alice@example.org" Tables.ADMIN Tables.ACTIVE]>
    (<["bob" := Tables.mkAccount "bob@example.org" Tables.USER Tables.ACTIVE]>
       (<["erin" := Tables.mkAccount "erin@example.org" Tables.ADMIN Tables.SUSPENDED]> ∅)).

Definition store0 : Tables.Store :=
  Tables.mkStore Fixtures.db0 accounts0
    (<["r1" := Tables.mkAccess Tables.PUBLIC 4]>
       (<["r2" := Tables.mkAccess Tables.PRIVATE 10]> ∅)).

(** The two bytes of U+00E9, and a string repeated. *)
Definition eAcute : string :=
  String (ascii_of_nat 195) (String (ascii_of_nat 169) EmptyString).

Fixpoint times (n : nat) (s : string) : string :=
  match n with
  | O => EmptyString
  | S n' => s +:+ times n' s
  end.

(** A token is the user id after ["tok-"]. *)
Definition verify0 (token : string) : option string :=
  match token with
  | String "t" (String "o" (String "k" (String "-" userId))) => Some userId
  | _ => None
  end.

End Fixtures2.

(** * Properties *)

Import GeminiService ChatRoutes.

(** ** Prompt composition *)

Lemma last_such_snoc {A} (p : A -> bool) (l : list A) (x : A) :
  p x = true -> Js.last_such p (l ++ [x]) = Some x.
Proof.
  intros Hx. unfold Js.last_such.
  rewrite filter_app, filter_cons_True, filter_nil by exact Hx.
  apply last_snoc.
Qed.

Lemma lastUserMessage_snoc (ctx : list Turn) (message : string) :
  lastUserMessage (ctx ++ [mkTurn user message]) = message.
Proof.
  unfold lastUserMessage. rewrite last_such_snoc; [reflexivity |].
  apply bool_decide_eq_true. reflexivity.
Qed.

(** Without context the prompt is the persona, a blank line, and the user
    message after ["User: "]. *)
Lemma single_turn_prompt (env : Env) (message model : string) :
  generateForRoute env message None model =
  generateResponse env message (mkOptions (Some model) (Some personaPrompt))
  /\ fullPrompt (Some personaPrompt) message =
     personaPrompt +:+ Js.nl +:+ Js.nl +:+ "User: " +:+ message.
Proof. split; reflexivity. Qed.

(** The composition is a function of its inputs: equal inputs, equal prompt. *)
Lemma chatPrompt_deterministic (msgs1 msgs2 : list Turn) :
  msgs1 = msgs2 -> chatPrompt msgs1 = chatPrompt msgs2.
Proof. intros ->. reflexivity. Qed.

(** C8. With conversation context the route hands [generateChatResponse] the
    prior turns followed by the new user turn, and [chatPrompt] then appends
    the last user turn once more: the new message is rendered twice at the
    end of the prompt, not exactly once.  Shown in general and on the context
    [User: hi] with the new message [q]. *)
Theorem context_prompt_repeats_new_message :
  (forall (ctx : list Turn) (message : string),
      chatPrompt (ctx ++ [mkTurn user message]) =
      Js.join Js.nl (map renderTurn ctx ++ ["User: " +:+ message])
        +:+ Js.nl +:+ "User: " +:+ message)
  /\ (r_content <$> generateForRoute Fixtures.echo "q" (Some [mkTurn user "hi"]) "gemini-pro")
     = Some ("User: hi" +:+ Js.nl +:+ "User: q" +:+ Js.nl +:+ "User: q").
Proof.
  split.
  - intros ctx message. unfold chatPrompt.
    rewrite lastUserMessage_snoc. unfold conversationHistory.
    rewrite map_app. reflexivity.
  - reflexivity.
Qed.

(** ** The quota check *)

Import SocketService.

Lemma quotaOfRead_nonneg (r : LedgerRead) : 0 <= remaining (quotaOfRead r).
Proof.
  destruct r as [| [[u [s |]] |]]; simpl; lia.
Qed.

Lemma quotaOfRead_canUse (r : LedgerRead) :
  canUse (quotaOfRead r) = true <->
  exists u s, r = ReadOk (Some (u, Some s)) /\ messagesUsed s < monthlyMessageLimit s.
Proof.
  destruct r as [| [[u [s |]] |]]; simpl.
  2: { split.
       - intros H. apply Z.ltb_lt in H. exists u, s. split; [reflexivity | lia].
       - intros (u' & s' & Heq & Hlt). injection Heq as -> ->. apply Z.ltb_lt. lia. }
  all: split; [discriminate | intros (u' & s' & Heq & _); discriminate].
Qed.

(** The route, once its first two checks pass, is decided by the quota. *)
Lemma aiChat_after_room_checks (env : Env) (db : Db)
    (userId chatRoomId message : string) (context : option (list Turn)) (model : string) :
  Js.truthy message = true ->
  memberOfAiRoom db userId chatRoomId ->
  aiChat env db userId chatRoomId message context model =
  let quota := checkUsageQuota env db userId in
  if negb (canUse quota) then (db, quotaExceededError)
  else
    match generateForRoute env message context model with
    | None => (db, generationFailedError)
    | Some aiResponse =>
        let aiMessage := aiMessageRow chatRoomId aiResponse in
        match Prisma.createMessage db aiMessage with
        | None => (db, generationFailedError)
        | Some db1 =>
            match incrementUsage db1 userId with
            | (db2, true) =>
                (db2, Ok (mkAiChatData aiMessage (remaining quota - 1)
                            (r_promptTokens aiResponse) (r_completionTokens aiResponse)))
            | (db2, false) => (db2, generationFailedError)
            end
        end
    end.
Proof.
  intros Hmsg (membership & room & Hm & Hr & Hai).
  unfold aiChat. rewrite Hmsg, Hm, Hr, Hai. reflexivity.
Qed.

(** C10. [checkUsageQuota] fails closed: without a user row, without a
    subscription row, or when the read throws, it answers
    [{ canUse: false, remaining: 0 }]; the remaining value is never negative,
    and is 0 when as much or more was consumed than the allowance; and a
    refused check makes the ai-chat route answer 429 (quota exceeded), and
    the socket handler emit [ai_error] with the quota text, with the store
    untouched. *)
Theorem quota_check_fails_closed (env : Env) (db : Db) (userId : string) :
  (users db !! userId = None \/ subscriptions db !! userId = None \/
   ledgerReadable env = false ->
   checkUsageQuota env db userId = mkQuota false 0)
  /\ 0 <= remaining (checkUsageQuota env db userId)
  /\ (forall sub, subscriptions db !! userId = Some sub ->
        monthlyMessageLimit sub <= messagesUsed sub ->
        remaining (checkUsageQuota env db userId) = 0 /\
        canUse (checkUsageQuota env db userId) = false)
  /\ (canUse (checkUsageQuota env db userId) = false ->
      forall chatRoomId message context model,
        Js.truthy message = true ->
        memberOfAiRoom db userId chatRoomId ->
        aiChat env db userId chatRoomId message context model = (db, quotaExceededError))
  /\ (canUse (checkUsageQuota env db userId) = false ->
      forall emitted chatRoomId message context,
        handleAIResponse env (mkState db emitted) chatRoomId message userId context
        = mkState db
            (emitted ++ [ToRoom chatRoomId "ai_error"
                           (ErrorMessage
                              "AI usage quota exceeded. Please upgrade your subscription.")])).
Proof.
  repeat split.
  - intros H. unfold checkUsageQuota, readLedger, Prisma.findUserWithSubscription.
    destruct (ledgerReadable env); [| reflexivity].
    destruct H as [H | [H | H]]; [| | discriminate].
    + rewrite H. reflexivity.
    + rewrite H. destruct (users db !! userId); reflexivity.
  - apply quotaOfRead_nonneg.
  - unfold checkUsageQuota, readLedger, Prisma.findUserWithSubscription.
    destruct (ledgerReadable env); [| reflexivity].
    destruct (users db !! userId); [| reflexivity].
    rewrite H. simpl. lia.
  - unfold checkUsageQuota, readLedger, Prisma.findUserWithSubscription.
    destruct (ledgerReadable env); [| reflexivity].
    destruct (users db !! userId); [| reflexivity].
    rewrite H. simpl. apply Z.ltb_ge. lia.
  - intros Hq chatRoomId message context model Hmsg Hroom.
    rewrite aiChat_after_room_checks by assumption. simpl.
    rewrite Hq. reflexivity.
  - intros Hq emitted chatRoomId message context.
    unfold handleAIResponse. cbn [st_db]. rewrite Hq. reflexivity.
Qed.

Lemma quota_check_fails_closed_witness :
  checkUsageQuota Fixtures.echo Fixtures.db0 "dave" = mkQuota false 0
  /\ remaining (checkUsageQuota Fixtures.echo Fixtures.db0 "bob") = 0
  /\ aiChat Fixtures.echo Fixtures.db0 "dave" "r1" "hello" None "gemini-pro"
     = (Fixtures.db0, quotaExceededError).
Proof.
  split; [| split].
  - apply (quota_check_fails_closed Fixtures.echo Fixtures.db0 "dave").
    right; left. reflexivity.
  - apply (quota_check_fails_closed Fixtures.echo Fixtures.db0 "bob")
      with (sub := mkSubscription 50 50); [reflexivity | simpl; lia].
  - apply (quota_check_fails_closed Fixtures.echo Fixtures.db0 "dave").
    + reflexivity.
    + reflexivity.
    + exists (mkMember "m4" "dave" "r1" MEMBER), (mkChatRoom true "gemini-pro").
      repeat split; reflexivity.
Defined.

(** ** Provider failure *)

(** The generation step fails exactly when the provider throws on the prompt
    that was composed. *)
Lemma generateResponse_fails_iff (env : Env) (prompt : string) (options : ChatOptions) :
  generateResponse env prompt options = None <->
  generateContent env (default defaultModel (opt_model options))
    (fullPrompt (opt_systemPrompt options) prompt) = None.
Proof.
  unfold generateResponse.
  destruct (generateContent env _ _); split; congruence.
Qed.


(** A socket is reached by an emit to a room exactly when it has joined the
    room. *)
Lemma elem_of_socketsIn (hub : Registry.Hub) (chatRoomId socketId : string) :
  socketId ∈ Registry.socketsIn hub chatRoomId <->
  (socketId, chatRoomId) ∈ Registry.joined hub.
Proof.
  unfold Registry.socketsIn. rewrite elem_of_map. split.
  - intros [[a b] [-> H]]. apply elem_of_filter in H as [Hr Hin].
    simpl in *. subst b. exact Hin.
  - intros H. exists (socketId, chatRoomId). split; [reflexivity |].
    apply elem_of_filter. split; [reflexivity | exact H].
Qed.




(** ** The order of the checks *)

(** On the route the three checks run in the order membership, assistant
    flag, quota: a caller without membership gets 404 whatever the flag and
    the quota are, a member of a room without the assistant gets 403
    whatever the quota is, and only then is the quota consulted. *)
Lemma aiChat_check_order (env : Env) (db : Db)
    (userId chatRoomId message : string) (context : option (list Turn)) (model : string) :
  Js.truthy message = true ->
  (Prisma.findFirstMember db userId chatRoomId = None ->
   aiChat env db userId chatRoomId message context model
   = (db, ApiError "Chat room not found or access denied" 404))
  /\ (forall membership room,
        Prisma.findFirstMember db userId chatRoomId = Some membership ->
        chatRooms db !! mem_chatRoomId membership = Some room ->
        allowAI room = false ->
        aiChat env db userId chatRoomId message context model
        = (db, ApiError "AI is not enabled for this chat room" 403))
  /\ (memberOfAiRoom db userId chatRoomId ->
      canUse (checkUsageQuota env db userId) = false ->
      aiChat env db userId chatRoomId message context model = (db, quotaExceededError)).
Proof.
  intros Hmsg. repeat split.
  - intros Hm. unfold aiChat. rewrite Hmsg, Hm. reflexivity.
  - intros membership room Hm Hr Hai. unfold aiChat.
    rewrite Hmsg, Hm, Hr, Hai. reflexivity.
  - intros Hroom Hq. rewrite aiChat_after_room_checks by assumption.
    simpl. rewrite Hq. reflexivity.
Qed.

(** [handleAIResponse] never reads the membership table: with any other
    table of members it emits the same events and writes the same rows. *)
Lemma handleAIResponse_ignores_members (env : Env) (db : Db) (emitted : list Emit)
    (chatRoomId message userId : string) (context : option (list Turn))
    (members : list ChatRoomMember) :
  let db' := mkDb (users db) (subscriptions db) (chatRooms db) members (messages db) in
  let st := handleAIResponse env (mkState db emitted) chatRoomId message userId context in
  let st' := handleAIResponse env (mkState db' emitted) chatRoomId message userId context in
  st_emitted st' = st_emitted st /\
  messages (st_db st') = messages (st_db st) /\
  subscriptions (st_db st') = subscriptions (st_db st) /\
  users (st_db st') = users (st_db st).
Proof.
  simpl. unfold handleAIResponse, checkUsageQuota, readLedger,
    Prisma.findUserWithSubscription, incrementUsage, Prisma.createMessage,
    Prisma.messageReferences, Prisma.incrementMessagesUsed,
    Prisma.incrementMessageCount. simpl.
  destruct (negb (canUse _)); [repeat split |].
  destruct (generateForSocket env message context) as [r |]; [| repeat split].
  destruct (Prisma.validMessage _ && _); simpl; [| repeat split].
  destruct (subscriptions db !! userId) as [s |]; simpl; [| repeat split].
  destruct (Prisma.incrementInt (messagesUsed s)); simpl; [| repeat split].
  destruct (users db !! userId) as [u |]; simpl; [| repeat split].
  destruct (Prisma.incrementInt (messageCount u)); simpl; repeat split.
Qed.

(** C1. The [ai_chat] socket event goes straight to [handleAIResponse], which
    checks the quota only.  [carol] is not a member of room [r2], and [r2]
    has the assistant switched off; her [ai_chat] event on [r2] nevertheless
    writes an assistant message, broadcasts it to the room and consumes one
    unit of her quota, where the route answers the same request with the
    membership error. *)
Theorem ai_chat_event_skips_room_checks :
  let st := ai_chat Fixtures.echo (mkState Fixtures.db0 []) "carol" "r2" "hello" None in
  Prisma.findFirstMember Fixtures.db0 "carol" "r2" = None
  /\ (allowAI <$> chatRooms Fixtures.db0 !! "r2") = Some false
  /\ map msg_sender (messages (st_db st)) = [AI]
  /\ map msg_chatRoomId (messages (st_db st)) = ["r2"]
  /\ (exists m, st_emitted st = [ToRoom "r2" "new_message" (NewMessage 0 m)])
  /\ Fixtures.usedBy Fixtures.db0 "carol" = Some 0
  /\ Fixtures.usedBy (st_db st) "carol" = Some 1
  /\ aiChat Fixtures.echo Fixtures.db0 "carol" "r2" "hello" None "gemini-pro"
     = (Fixtures.db0, ApiError "Chat room not found or access denied" 404).
Proof.
  simpl. repeat split; try reflexivity.
  eexists. reflexivity.
Qed.

(** ** The key of the rate limiter *)

Import RateLimiter.

(** With an [Authorization] header the key is the address followed by
    [:auth]; the header's content does not enter it. *)
Lemma keyGenerator_ignores_token (address header1 header2 : string) :
  Js.truthy header1 = true -> Js.truthy header2 = true ->
  keyGenerator (mkRequest address (Some header1))
  = keyGenerator (mkRequest address (Some header2))
  /\ keyGenerator (mkRequest address (Some header1))
     = "rate_limit:" +:+ address +:+ ":auth".
Proof.
  intros H1 H2. unfold keyGenerator. simpl. rewrite H1, H2. split; reflexivity.
Qed.

Lemma keyGenerator_anonymous (address : string) :
  keyGenerator (mkRequest address None) = "rate_limit:" +:+ address.
Proof. reflexivity. Qed.

(** C5. Two requests from the same address that carry the tokens of two
    different identities get the same key, [rate_limit:<address>:auth], and
    are counted in one window: after one hit by the first, the first hit of
    the second is hit number 2. *)
Theorem authenticated_key_is_the_address :
  let cfg := mkConfig None None None in
  let a := mkRequest "10.0.0.1" (Some "Bearer token-of-alice") in
  let b := mkRequest "10.0.0.1" (Some "Bearer token-of-bob") in
  keyGenerator a = "rate_limit:10.0.0.1:auth"
  /\ keyGenerator b = "rate_limit:10.0.0.1:auth"
  /\ totalHits (snd (rateLimiter cfg ∅ 0 a)) = 1
  /\ totalHits (snd (rateLimiter cfg (fst (rateLimiter cfg ∅ 0 a)) 1 b)) = 2.
Proof.
  simpl. repeat split; vm_compute; reflexivity.
Qed.

(** ** Leaving a room *)

Section Leave.

Lemma NoDup_fmap_elem_inj {A B} (f : A -> B) (l : list A) (x y : A) :
  NoDup (f <$> l) -> x ∈ l -> y ∈ l -> f x = f y -> x = y.
Proof.
  induction l as [| a l IH]; intros Hnd Hx Hy Hf.
  - inversion Hx.
  - rewrite fmap_cons in Hnd. apply NoDup_cons in Hnd as [Hnotin Hnd].
    apply elem_of_cons in Hx as [-> | Hx]; apply elem_of_cons in Hy as [-> | Hy].
    + reflexivity.
    + exfalso. apply Hnotin. rewrite Hf. apply list_elem_of_fmap. eauto.
    + exfalso. apply Hnotin. rewrite <- Hf. apply list_elem_of_fmap. eauto.
    + apply IH; assumption.
Qed.

Lemma findFirstMember_elem (db : Db) (userId chatRoomId : string) (m : ChatRoomMember) :
  Prisma.findFirstMember db userId chatRoomId = Some m ->
  m ∈ chatRoomMembers db /\ mem_userId m = userId /\ mem_chatRoomId m = chatRoomId.
Proof.
  unfold Prisma.findFirstMember. intros H.
  apply find_some in H as [Hin Hmatch].
  unfold Prisma.member_matches in Hmatch.
  apply andb_true_iff in Hmatch as [Hu Hr].
  apply bool_decide_eq_true in Hu, Hr.
  split; [apply list_elem_of_In; exact Hin | split; assumption].
Qed.

(** Under the unique constraint [findFirst] returns the one row of the pair. *)
Lemma findFirstMember_unique (db : Db) (m : ChatRoomMember) :
  wellFormedMembers db -> m ∈ chatRoomMembers db ->
  Prisma.findFirstMember db (mem_userId m) (mem_chatRoomId m) = Some m.
Proof.
  intros [_ Hpairs] Hin.
  destruct (Prisma.findFirstMember db (mem_userId m) (mem_chatRoomId m)) as [m' |] eqn:Hfind.
  - apply findFirstMember_elem in Hfind as (Hin' & Hu & Hr).
    f_equal.
    apply (NoDup_fmap_elem_inj _ _ _ _ Hpairs Hin' Hin). simpl. congruence.
  - exfalso. unfold Prisma.findFirstMember in Hfind.
    assert (Prisma.member_matches (mem_userId m) (mem_chatRoomId m) m = false) as Hno
      by (apply (find_none _ _ Hfind m), list_elem_of_In, Hin).
    unfold Prisma.member_matches in Hno.
    rewrite !bool_decide_eq_true_2 in Hno by reflexivity. discriminate.
Qed.

Lemma leave_owner_rejected (db : Db) (userId chatRoomId : string) :
  wellFormedMembers db -> holdsOwner db userId chatRoomId ->
  leave db userId chatRoomId = (db, ownerCannotLeave).
Proof.
  intros Hwf (m & Hin & <- & <- & Hrole).
  unfold leave. rewrite (findFirstMember_unique db m Hwf Hin).
  rewrite bool_decide_eq_true_2 by exact Hrole. reflexivity.
Qed.

Lemma leave_wellFormed (db : Db) (userId chatRoomId : string) :
  wellFormedMembers db -> wellFormedMembers (fst (leave db userId chatRoomId)).
Proof.
  intros Hwf. unfold leave.
  destruct (Prisma.findFirstMember db userId chatRoomId) as [m |]; [| exact Hwf].
  destruct (bool_decide (mem_role m = OWNER)); [exact Hwf |].
  destruct Hwf as [Hids Hpairs]. unfold wellFormedMembers. simpl.
  split; (eapply sublist_NoDup; [eassumption | apply fmap_sublist, sublist_filter]).
Qed.

Lemma leave_keeps_owner_rows (db : Db) (userId chatRoomId : string) (m : ChatRoomMember) :
  wellFormedMembers db -> m ∈ chatRoomMembers db -> mem_role m = OWNER ->
  m ∈ chatRoomMembers (fst (leave db userId chatRoomId)).
Proof.
  intros [Hids _] Hin Hrole. unfold leave.
  destruct (Prisma.findFirstMember db userId chatRoomId) as [found |] eqn:Hfind;
    [| exact Hin].
  destruct (bool_decide (mem_role found = OWNER)) eqn:Hfound; [exact Hin |].
  simpl. apply list_elem_of_filter. split; [| exact Hin].
  intros Hsame.
  apply findFirstMember_elem in Hfind as (Hin' & _ & _).
  assert (m = found) as -> by (apply (NoDup_fmap_elem_inj _ _ _ _ Hids Hin Hin' Hsame)).
  apply bool_decide_eq_false in Hfound. contradiction.
Qed.

Lemma leaveSeq_keeps_owner_rows (calls : list (string * string)) :
  forall (db : Db) (m : ChatRoomMember),
    wellFormedMembers db -> m ∈ chatRoomMembers db -> mem_role m = OWNER ->
    m ∈ chatRoomMembers (leaveSeq db calls).
Proof.
  induction calls as [| [userId chatRoomId] calls IH]; intros db m Hwf Hin Hrole.
  - exact Hin.
  - simpl. apply IH.
    + apply leave_wellFormed, Hwf.
    + apply leave_keeps_owner_rows; assumption.
    + exact Hrole.
Qed.

End Leave.

(** The room of a membership found for [chatRoomId] is [chatRoomId]. *)
Lemma memberOfAiRoom_room (db : Db) (userId chatRoomId : string) :
  memberOfAiRoom db userId chatRoomId -> is_Some (chatRooms db !! chatRoomId).
Proof.
  intros (m & room & Hm & Hr & _).
  apply findFirstMember_elem in Hm as (_ & _ & <-). eauto.
Qed.

(** C7. On a membership table that satisfies the schema's constraints, a
    caller who holds the owner role of a room has their leave request
    rejected (400, [Room owner cannot leave]) with the store unchanged, and
    after any sequence of leave requests, by any callers on any rooms, every
    owner row is still in the table. *)
Theorem owner_membership_survives_leave (db : Db) :
  wellFormedMembers db ->
  (forall userId chatRoomId,
      holdsOwner db userId chatRoomId ->
      leave db userId chatRoomId = (db, ownerCannotLeave))
  /\ (forall (calls : list (string * string)) (m : ChatRoomMember),
        m ∈ chatRoomMembers db -> mem_role m = OWNER ->
        m ∈ chatRoomMembers (leaveSeq db calls)).
Proof.
  intros Hwf. split.
  - intros userId chatRoomId Hown. apply leave_owner_rejected; assumption.
  - intros calls m Hin Hrole. apply leaveSeq_keeps_owner_rows; assumption.
Qed.

Lemma wellFormed_db0 : wellFormedMembers Fixtures.db0.
Proof.
  split; (eapply bool_decide_unpack; vm_compute; exact I).
Defined.

Lemma owner_membership_survives_leave_witness :
  leave Fixtures.db0 "alice" "r1" = (Fixtures.db0, ownerCannotLeave)
  /\ mkMember "m1" "alice" "r1" OWNER
     ∈ chatRoomMembers
         (leaveSeq Fixtures.db0 [("alice", "r1"); ("bob", "r1"); ("alice", "r1")]).
Proof.
  destruct (owner_membership_survives_leave Fixtures.db0 wellFormed_db0) as [Hrej Hseq].
  split.
  - apply Hrej. exists (mkMember "m1" "alice" "r1" OWNER).
    repeat split; try reflexivity. simpl. apply elem_of_cons. left. reflexivity.
  - apply Hseq; [| reflexivity]. simpl. apply elem_of_cons. left. reflexivity.
Defined.

(** ** What a successful invocation does to the store *)

Lemma canUse_inv (env : Env) (db : Db) (userId : string) :
  canUse (checkUsageQuota env db userId) = true ->
  exists u s,
    ledgerReadable env = true /\
    users db !! userId = Some u /\
    subscriptions db !! userId = Some s /\
    messagesUsed s < monthlyMessageLimit s /\
    remaining (checkUsageQuota env db userId) = monthlyMessageLimit s - messagesUsed s.
Proof.
  intros H. pose proof H as H'.
  apply quotaOfRead_canUse in H' as (u & s & Hread & Hlt).
  unfold checkUsageQuota in *. rewrite Hread. simpl.
  unfold readLedger, Prisma.findUserWithSubscription in Hread.
  destruct (ledgerReadable env); [| discriminate].
  destruct (users db !! userId) as [u' |] eqn:Hu; [| discriminate].
  injection Hread as -> Hs.
  exists u, s. repeat split; try assumption. lia.
Qed.

(** What [create] does when it does not throw, and when it throws. *)
Lemma createMessage_Some (db db1 : Db) (m : Message) :
  Prisma.createMessage db m = Some db1 <->
  Prisma.validMessage m = true /\ Prisma.messageReferences db m = true /\
  db1 = withMessage db m.
Proof.
  unfold Prisma.createMessage.
  destruct (Prisma.validMessage m); destruct (Prisma.messageReferences db m); simpl;
    split; try discriminate; try (intros (H1 & H2 & _); discriminate).
  - intros H. injection H as <-. auto.
  - intros (_ & _ & ->). reflexivity.
Qed.

Lemma createMessage_None (db : Db) (m : Message) :
  Prisma.createMessage db m = None <->
  Prisma.validMessage m = false \/ Prisma.messageReferences db m = false.
Proof.
  unfold Prisma.createMessage.
  destruct (Prisma.validMessage m); destruct (Prisma.messageReferences db m); simpl;
    split; auto; try discriminate; intros [H | H]; discriminate.
Qed.

(** The row of an assistant message refers to its room only. *)
Lemma aiMessageRow_references (db : Db) (chatRoomId : string) (r : ChatResponse) :
  Prisma.messageReferences db (aiMessageRow chatRoomId r) = true <->
  is_Some (chatRooms db !! chatRoomId).
Proof.
  unfold Prisma.messageReferences. simpl. rewrite andb_true_r.
  apply bool_decide_eq_true.
Qed.

Lemma incrementInt_Some (x : Z) :
  x < Prisma.maxInt -> Prisma.incrementInt x = Some (x + 1).
Proof.
  intros H. unfold Prisma.incrementInt.
  assert ((x <? Prisma.maxInt) = true) as -> by (apply Z.ltb_lt; exact H).
  reflexivity.
Qed.

Lemma incrementInt_None (x : Z) :
  Prisma.maxInt <= x -> Prisma.incrementInt x = None.
Proof.
  intros H. unfold Prisma.incrementInt.
  assert ((x <? Prisma.maxInt) = false) as -> by (apply Z.ltb_ge; exact H).
  reflexivity.
Qed.

(** Below the top of the two [Int] columns both updates go through. *)
Lemma incrementUsage_ok (db : Db) (userId : string) (u : User) (s : Subscription) :
  users db !! userId = Some u -> subscriptions db !! userId = Some s ->
  messageCount u < Prisma.maxInt -> messagesUsed s < Prisma.maxInt ->
  incrementUsage db userId = (consumed db userId u s, true).
Proof.
  intros Hu Hs Hcount Hused. unfold incrementUsage, Prisma.incrementMessagesUsed.
  rewrite Hs, (incrementInt_Some _ Hused).
  unfold Prisma.incrementMessageCount. simpl.
  rewrite Hu, (incrementInt_Some _ Hcount). reflexivity.
Qed.

(** [incrementUsage] returns [true] only after both updates. *)
Lemma incrementUsage_true (db db2 : Db) (userId : string) :
  incrementUsage db userId = (db2, true) ->
  exists u s,
    users db !! userId = Some u /\ subscriptions db !! userId = Some s /\
    messageCount u < Prisma.maxInt /\ messagesUsed s < Prisma.maxInt /\
    db2 = consumed db userId u s.
Proof.
  unfold incrementUsage, Prisma.incrementMessagesUsed, Prisma.incrementMessageCount,
    Prisma.incrementInt.
  destruct (subscriptions db !! userId) as [s |] eqn:Hs; [| discriminate].
  destruct (messagesUsed s <? Prisma.maxInt) eqn:Hused; [| discriminate].
  simpl.
  destruct (users db !! userId) as [u |] eqn:Hu; [| discriminate].
  destruct (messageCount u <? Prisma.maxInt) eqn:Hcount; [| discriminate].
  intros H. injection H as <-.
  apply Z.ltb_lt in Hused, Hcount.
  exists u, s. repeat split; assumption.
Qed.

Lemma handleAIResponse_success (env : Env) (db : Db) (emitted : list Emit)
    (chatRoomId message userId : string) (context : option (list Turn))
    (r : ChatResponse) (u : User) (s : Subscription) :
  canUse (checkUsageQuota env db userId) = true ->
  generateForSocket env message context = Some r ->
  Prisma.validMessage (aiMessageRow chatRoomId r) = true ->
  is_Some (chatRooms db !! chatRoomId) ->
  users db !! userId = Some u -> subscriptions db !! userId = Some s ->
  messageCount u < Prisma.maxInt -> monthlyMessageLimit s <= Prisma.maxInt ->
  handleAIResponse env (mkState db emitted) chatRoomId message userId context
  = mkState
      (consumed (withMessage db (aiMessageRow chatRoomId r)) userId u s)
      (emitted ++ [ToRoom chatRoomId "new_message"
                     (NewMessage (length (messages db)) (aiMessageRow chatRoomId r))]).
Proof.
  intros Hq Hgen Hvalid Hroom Hu Hs Hcount Hlimit.
  destruct (canUse_inv env db userId Hq) as (u' & s' & _ & Hu' & Hs' & Hlt & _).
  rewrite Hu in Hu'. injection Hu' as <-. rewrite Hs in Hs'. injection Hs' as <-.
  unfold handleAIResponse. cbn [st_db st_emitted]. rewrite Hq, Hgen. cbn [negb].
  assert (Prisma.createMessage db (aiMessageRow chatRoomId r)
          = Some (withMessage db (aiMessageRow chatRoomId r))) as ->.
  { apply createMessage_Some. split; [exact Hvalid | split; [| reflexivity]].
    apply aiMessageRow_references, Hroom. }
  rewrite (incrementUsage_ok _ userId u s) by (try assumption; lia). reflexivity.
Qed.

(** ** Mentions of the assistant in [send_message] *)

(** C9, as amended.  A [send_message] event from a *member* of the room,
    whose content contains [@ai] in any letter case, in a room that allows
    the assistant.  The store takes the user's row exactly when its type is
    one of [TEXT], [IMAGE], [FILE], [SYSTEM], its content is without U+0000
    and the sender has a [users] row; when it does not, the sender gets
    [Failed to send message] and nothing else happens.  When it does, the
    handler persists and broadcasts the user message and then runs
    [handleAIResponse] on the same content, without context.  When the
    sender's quota check passes, the provider answers with a text the store
    takes and the counters are below the top of their columns, that writes an
    assistant message after the user message, broadcasts it to the room and
    adds one to the sender's [messagesUsed] and [messageCount]; when the
    check refuses or the provider fails, the room gets [ai_error] and the
    store holds the user message and nothing more. *)
Theorem mention_by_member_invokes_assistant (env : Env) (db : Db) (emitted : list Emit)
    (userId chatRoomId content : string) (type : option string) :
  is_Some (Prisma.findFirstMember db userId chatRoomId) ->
  (allowAI <$> chatRooms db !! chatRoomId) = Some true ->
  Js.includes (Js.toLowerCase content) "@ai" = true ->
  let userRow :=
    mkMessage content (default "TEXT" type) USER (Some userId) chatRoomId None None None in
  let st := send_message env (mkState db emitted) userId chatRoomId content type in
  (is_Some (Prisma.createMessage db userRow) <->
   default "TEXT" type ∈ Prisma.messageTypes /\ Prisma.hasNul content = false /\
   is_Some (users db !! userId))
  /\ (Prisma.createMessage db userRow = None ->
      st = mkState db (emitted ++ [ToSocket "error" (ErrorMessage "Failed to send message")]))
  /\ (forall db1,
        Prisma.createMessage db userRow = Some db1 ->
        let sent :=
          mkState db1
            (emitted ++ [ToRoom chatRoomId "new_message"
                           (NewMessage (length (messages db)) userRow)]) in
        db1 = withMessage db userRow
        /\ st = handleAIResponse env sent chatRoomId content userId None
        /\ (canUse (checkUsageQuota env db userId) = true ->
            forall r u s,
              generateForSocket env content None = Some r ->
              Prisma.validMessage (aiMessageRow chatRoomId r) = true ->
              users db !! userId = Some u -> subscriptions db !! userId = Some s ->
              messageCount u < Prisma.maxInt ->
              monthlyMessageLimit s <= Prisma.maxInt ->
              messages (st_db st) = messages db ++ [userRow; aiMessageRow chatRoomId r] /\
              st_emitted st
              = emitted ++ [ToRoom chatRoomId "new_message"
                              (NewMessage (length (messages db)) userRow);
                            ToRoom chatRoomId "new_message"
                              (NewMessage (S (length (messages db)))
                                 (aiMessageRow chatRoomId r))] /\
              subscriptions (st_db st) !! userId
              = Some (mkSubscription (monthlyMessageLimit s) (messagesUsed s + 1)) /\
              users (st_db st) !! userId = Some (mkUser (messageCount u + 1)))
        /\ (canUse (checkUsageQuota env db userId) = false \/
            generateForSocket env content None = None ->
            st_db st = db1 /\
            exists text,
              st_emitted st
              = emitted ++ [ToRoom chatRoomId "new_message"
                              (NewMessage (length (messages db)) userRow);
                            ToRoom chatRoomId "ai_error" (ErrorMessage text)])).
Proof.
  intros [m Hm] Hroom Hmention userRow st.
  destruct (chatRooms db !! chatRoomId) as [room |] eqn:Hr; [| discriminate].
  injection Hroom as Hai.
  split; [| split].
  - split.
    + intros [db1 Hcreate]. apply createMessage_Some in Hcreate as (Hvalid & Href & _).
      unfold Prisma.validMessage in Hvalid. unfold Prisma.messageReferences in Href.
      cbn [userRow msg_type msg_content msg_userId msg_chatRoomId] in Hvalid, Href.
      repeat (apply andb_true_iff in Hvalid as [Hvalid ?]).
      apply andb_true_iff in Href as [_ Huser].
      apply bool_decide_eq_true in Hvalid, Huser.
      split; [exact Hvalid | split; [| exact Huser]].
      destruct (Prisma.hasNul content); [discriminate | reflexivity].
    + intros (Htype & Hnul & Huser).
      exists (withMessage db userRow). apply createMessage_Some.
      split; [| split; [| reflexivity]].
      * unfold Prisma.validMessage.
        cbn [userRow msg_type msg_content msg_aiModel msg_promptTokens
             msg_completionTokens default].
        rewrite Hnul, bool_decide_eq_true_2 by exact Htype. reflexivity.
      * unfold Prisma.messageReferences. cbn [userRow msg_userId msg_chatRoomId].
        rewrite Hr, !bool_decide_eq_true_2 by eauto. reflexivity.
  - intros Hcreate. subst st. unfold send_message. cbn [st_db st_emitted].
    rewrite Hm. fold userRow. rewrite Hcreate. reflexivity.
  - intros db1 Hcreate sent.
    pose proof Hcreate as Hdb1. apply createMessage_Some in Hdb1 as (_ & _ & Hdb1).
    assert (st = handleAIResponse env sent chatRoomId content userId None) as Hst.
    { subst st. unfold send_message. cbn [st_db st_emitted]. rewrite Hm.
      fold userRow. rewrite Hcreate. cbn [emit st_db st_emitted].
      rewrite Hdb1 at 1. cbn [withMessage chatRooms].
      rewrite Hr, Hai, Hmention. reflexivity. }
    assert (checkUsageQuota env (st_db sent) userId = checkUsageQuota env db userId)
      as Hsame by (cbn [sent st_db]; rewrite Hdb1; reflexivity).
    split; [exact Hdb1 | split; [exact Hst | split]].
    + intros Hq r u s Hgen Hvalid Hu Hs Hcount Hlimit.
      rewrite Hst.
      change sent with (mkState (st_db sent) (st_emitted sent)).
      rewrite (handleAIResponse_success env (st_db sent) (st_emitted sent)
                 chatRoomId content userId None r u s).
      * cbn [sent st_db st_emitted]. rewrite Hdb1. simpl. repeat split.
        -- rewrite <- app_assoc. reflexivity.
        -- rewrite <- app_assoc. simpl. rewrite length_app. simpl.
           replace (length (messages db) + 1)%nat with (S (length (messages db))) by lia.
           reflexivity.
        -- apply lookup_insert_eq.
        -- apply lookup_insert_eq.
      * rewrite Hsame. exact Hq.
      * exact Hgen.
      * exact Hvalid.
      * cbn [sent st_db]. rewrite Hdb1. cbn [withMessage chatRooms]. rewrite Hr. eauto.
      * cbn [sent st_db]. rewrite Hdb1. exact Hu.
      * cbn [sent st_db]. rewrite Hdb1. exact Hs.
      * exact Hcount.
      * exact Hlimit.
    + intros Hfail. rewrite Hst. unfold handleAIResponse. rewrite Hsame.
      destruct (canUse (checkUsageQuota env db userId)) eqn:Hq; cbn [negb].
      * destruct Hfail as [Hfail | Hfail]; [discriminate |]. rewrite Hfail.
        split; [reflexivity |]. eexists. cbn [emit st_emitted sent].
        rewrite <- app_assoc. reflexivity.
      * split; [reflexivity |]. eexists. cbn [emit st_emitted sent].
        rewrite <- app_assoc. reflexivity.
Qed.

Lemma mention_by_member_invokes_assistant_witness :
  map msg_sender
    (messages (st_db (send_message Fixtures.echo (mkState Fixtures.db0 [])
                        "alice" "r1" "hey @AI, hello" None)))
  = [USER; AI].
Proof.
  destruct (mention_by_member_invokes_assistant Fixtures.echo Fixtures.db0 []
              "alice" "r1" "hey @AI, hello" None) as (_ & _ & Hrun).
  - eexists. reflexivity.
  - reflexivity.
  - reflexivity.
  - destruct (Hrun _ eq_refl) as (_ & _ & Hok & _).
    destruct (Hok eq_refl _ (mkUser 0) (mkSubscription 1 0) eq_refl eq_refl eq_refl eq_refl)
      as (Hmsgs & _).
    + unfold Prisma.maxInt. simpl. lia.
    + unfold Prisma.maxInt. simpl. lia.
    + rewrite Hmsgs. reflexivity.
Defined.

(** C9, as stated, fails for a sender who is not a member, for a member
    without allowance, and for a type that is not in the enum.  [carol] is
    not a member of [r1]: her message with [@AI] is refused and nothing is
    written or consumed.  [bob] is a member who has used his allowance: his
    message is written, but no assistant message follows and his count stays
    at 50; the room gets [ai_error].  [alice] is a member with allowance:
    her message of type [VIDEO] is refused by the store, nothing is written,
    and she gets [Failed to send message]. *)
Lemma mention_without_assistant_message :
  let carol := send_message Fixtures.echo (mkState Fixtures.db0 [])
                 "carol" "r1" "@AI hello" None in
  let bob := send_message Fixtures.echo (mkState Fixtures.db0 [])
               "bob" "r1" "@AI hello" None in
  let alice := send_message Fixtures.echo (mkState Fixtures.db0 [])
                 "alice" "r1" "@AI hello" (Some "VIDEO") in
  Js.includes (Js.toLowerCase "@AI hello") "@ai" = true
  /\ (allowAI <$> chatRooms Fixtures.db0 !! "r1") = Some true
  /\ messages (st_db carol) = []
  /\ st_emitted carol
     = [ToSocket "error" (ErrorMessage "Not authorized to send messages to this room")]
  /\ Fixtures.usedBy (st_db carol) "carol" = Fixtures.usedBy Fixtures.db0 "carol"
  /\ map msg_sender (messages (st_db bob)) = [USER]
  /\ Fixtures.usedBy (st_db bob) "bob" = Some 50
  /\ last (st_emitted bob)
     = Some (ToRoom "r1" "ai_error"
               (ErrorMessage "AI usage quota exceeded. Please upgrade your subscription."))
  /\ is_Some (Prisma.findFirstMember Fixtures.db0 "alice" "r1")
  /\ canUse (checkUsageQuota Fixtures.echo Fixtures.db0 "alice") = true
  /\ alice = mkState Fixtures.db0 [ToSocket "error" (ErrorMessage "Failed to send message")].
Proof.
  vm_compute. repeat split; try reflexivity. eexists. reflexivity.
Qed.

(** ** Sequential invocations and the ledger *)

Lemma aiChat_Ok_inv (env : Env) (db db1 : Db)
    (userId chatRoomId message : string) (context : option (list Turn)) (model : string)
    (body : AiChatData) :
  aiChat env db userId chatRoomId message context model = (db1, Ok body) ->
  exists u s,
    users db !! userId = Some u /\ subscriptions db !! userId = Some s /\
    messagesUsed s < monthlyMessageLimit s /\
    messageCount u < Prisma.maxInt /\ messagesUsed s < Prisma.maxInt /\
    usage_remaining body = remaining (checkUsageQuota env db userId) - 1 /\
    usage_remaining body = monthlyMessageLimit s - messagesUsed s - 1 /\
    db1 = consumed (withMessage db (data_message body)) userId u s.
Proof.
  unfold aiChat.
  destruct (negb (Js.truthy message)); [discriminate |].
  destruct (Prisma.findFirstMember db userId chatRoomId); [| discriminate].
  destruct (chatRooms db !! _) as [room |]; [| discriminate].
  destruct (negb (allowAI room)); [discriminate |].
  destruct (canUse (checkUsageQuota env db userId)) eqn:Hq; [| discriminate].
  simpl.
  destruct (generateForRoute env message context model) as [r |]; [| discriminate].
  destruct (Prisma.createMessage db (aiMessageRow chatRoomId r)) as [db' |] eqn:Hcreate;
    [| discriminate].
  apply createMessage_Some in Hcreate as (_ & _ & ->).
  destruct (incrementUsage _ userId) as [db2 [|]] eqn:Hinc; [| discriminate].
  apply incrementUsage_true in Hinc as (u & s & Hu & Hs & Hcount & Hused & ->).
  destruct (canUse_inv env db userId Hq) as (u' & s' & _ & Hu' & Hs' & Hlt & Hrem).
  cbn [withMessage users subscriptions] in Hu, Hs.
  rewrite Hu in Hu'. injection Hu' as <-. rewrite Hs in Hs'. injection Hs' as <-.
  intros H. injection H as <- <-. simpl.
  exists u, s. repeat split; try assumption. lia.
Qed.

(** While the lifetime counter is below the top of its column and the limit
    is an [Int], an answer of the handler that is not a success leaves the
    store as it was. *)
Lemma aiChat_error_unchanged (env : Env) (db db1 : Db)
    (userId chatRoomId message : string) (context : option (list Turn)) (model : string)
    (msg : string) (status : Z) :
  (forall u, users db !! userId = Some u -> messageCount u < Prisma.maxInt) ->
  (forall s, subscriptions db !! userId = Some s ->
             monthlyMessageLimit s <= Prisma.maxInt) ->
  aiChat env db userId chatRoomId message context model = (db1, ApiError msg status) ->
  db1 = db.
Proof.
  intros Hcount Hlimit. unfold aiChat.
  destruct (negb (Js.truthy message)); [congruence |].
  destruct (Prisma.findFirstMember db userId chatRoomId); [| congruence].
  destruct (chatRooms db !! _) as [room |]; [| congruence].
  destruct (negb (allowAI room)); [congruence |].
  destruct (canUse (checkUsageQuota env db userId)) eqn:Hq; [| simpl; congruence].
  simpl.
  destruct (generateForRoute env message context model) as [r |]; [| congruence].
  destruct (Prisma.createMessage db (aiMessageRow chatRoomId r)) as [db' |] eqn:Hcreate;
    [| congruence].
  apply createMessage_Some in Hcreate as (_ & _ & ->).
  destruct (canUse_inv env db userId Hq) as (u & s & _ & Hu & Hs & Hlt & _).
  specialize (Hcount u Hu). specialize (Hlimit s Hs).
  rewrite (incrementUsage_ok _ userId u s) by (try assumption; lia).
  discriminate.
Qed.

(** The same for the route with its limiter. *)
Lemma answer_error_unchanged (env : Env) (db db1 : Db) (userId : string)
    (c : AiChatCall) (msg : string) (status : Z) :
  (forall u, users db !! userId = Some u -> messageCount u < Prisma.maxInt) ->
  (forall s, subscriptions db !! userId = Some s ->
             monthlyMessageLimit s <= Prisma.maxInt) ->
  answer env db userId c = (db1, ApiError msg status) ->
  db1 = db.
Proof.
  intros Hcount Hlimit. unfold answer, aiChatRoute.
  destruct (AiChatLimiter.admits (call_hits c)).
  - apply aiChat_error_unchanged; assumption.
  - congruence.
Qed.

Lemma answer_Ok_inv (env : Env) (db db1 : Db) (userId : string) (c : AiChatCall)
    (body : AiChatData) :
  answer env db userId c = (db1, Ok body) ->
  AiChatLimiter.admits (call_hits c) = true /\
  aiChat env db userId (call_room c) (call_message c) (call_context c) (call_model c)
  = (db1, Ok body).
Proof.
  unfold answer, aiChatRoute.
  destruct (AiChatLimiter.admits (call_hits c)); [auto | discriminate].
Qed.

Lemma aiChatSeq_ledger (env : Env) (userId : string) (calls : list AiChatCall) :
  forall (db db' : Db) (u : User) (s : Subscription) (rs : list (ApiResult AiChatData)),
    users db !! userId = Some u ->
    subscriptions db !! userId = Some s ->
    messageCount u + Z.of_nat (length calls) <= Prisma.maxInt ->
    monthlyMessageLimit s <= Prisma.maxInt ->
    aiChatSeq env db userId calls = (db', rs) ->
    users db' !! userId
    = Some (mkUser (messageCount u + Z.of_nat (length (okBodies rs))))
    /\ subscriptions db' !! userId
       = Some (mkSubscription (monthlyMessageLimit s)
                 (messagesUsed s + Z.of_nat (length (okBodies rs))))
    /\ usage_remaining <$> okBodies rs
       = (fun k => monthlyMessageLimit s - messagesUsed s - Z.of_nat k - 1)
           <$> seq 0 (length (okBodies rs))
    /\ (okBodies rs <> [] ->
        messagesUsed s + Z.of_nat (length (okBodies rs)) <= monthlyMessageLimit s).
Proof.
  induction calls as [| c calls IH]; intros db db' u s rs Hu Hs Hcount Hlimit Hrun.
  - simpl in Hrun. injection Hrun as <- <-. simpl. repeat split.
    + rewrite Hu. destruct u. simpl. do 2 f_equal. lia.
    + rewrite Hs. destruct s. simpl. do 2 f_equal. lia.
    + intros H. contradiction.
  - simpl in Hrun. rewrite length_cons in Hcount.
    destruct (answer env db userId c) as [db1 r] eqn:Hcall.
    destruct (aiChatSeq env db1 userId calls) as [db2 rs'] eqn:Hrest.
    injection Hrun as <- <-.
    destruct r as [body | msg status].
    + apply answer_Ok_inv in Hcall as [_ Hcall].
      apply aiChat_Ok_inv in Hcall as (u0 & s0 & Hu0 & Hs0 & Hlt & _ & _ & _ & Hrem & ->).
      rewrite Hu in Hu0. injection Hu0 as <-.
      rewrite Hs in Hs0. injection Hs0 as <-.
      edestruct (IH (consumed (withMessage db (data_message body)) userId u s)
                   db2 (mkUser (messageCount u + 1))
                   (mkSubscription (monthlyMessageLimit s) (messagesUsed s + 1)) rs')
        as (Hu' & Hs' & Hrems & Hle).
      * simpl. apply lookup_insert_eq.
      * simpl. apply lookup_insert_eq.
      * cbn [messageCount]. lia.
      * exact Hlimit.
      * exact Hrest.
      * cbn [monthlyMessageLimit messagesUsed messageCount] in Hu', Hs', Hrems, Hle.
        change (okBodies (Ok body :: rs')) with (body :: okBodies rs').
        repeat split.
        -- rewrite Hu'. do 2 f_equal. rewrite length_cons. lia.
        -- rewrite Hs'. do 2 f_equal. rewrite length_cons. lia.
        -- rewrite fmap_cons, Hrem, Hrems, length_cons.
           cbn [seq]. rewrite fmap_cons. f_equal; [simpl; lia |].
           rewrite <- (fmap_S_seq 0), <- list_fmap_compose.
           apply list_fmap_ext. intros i k _. simpl. lia.
        -- intros _. rewrite length_cons. destruct (okBodies rs') as [| b bs].
           ++ simpl. lia.
           ++ assert (b :: bs <> []) as Hne by discriminate.
              specialize (Hle Hne). lia.
    + apply answer_error_unchanged in Hcall as ->.
      * change (okBodies (ApiError msg status :: rs')) with (okBodies rs').
        apply (IH db db2 u s rs' Hu Hs); [lia | exact Hlimit | exact Hrest].
      * intros u' Hu'. rewrite Hu in Hu'. injection Hu' as <-. lia.
      * intros s' Hs'. rewrite Hs in Hs'. injection Hs' as <-. exact Hlimit.
Qed.

(** C3. Starting from allowance [A] (limit minus consumed), after a run of
    requests to the route issued one after the other of which [N] succeeded,
    the consumed count is up by [N] and the remaining allowance reported by
    the ledger is [max 0 (A - N)]; the [k]-th success (from 0) returned
    [A - k - 1], which is the [remaining] of the quota snapshot taken before
    its increment, minus one; and a request made when the remaining allowance
    is 0, which the limiter lets through, is answered 429 (quota exceeded)
    and leaves the store, hence the consumed count, as it was.  The limit is
    an [Int], and the lifetime counter stays below the top of its column
    during the run. *)
Theorem quota_monotone (env : Env) (db db' : Db) (userId : string)
    (u : User) (s : Subscription) (calls : list AiChatCall)
    (rs : list (ApiResult AiChatData)) :
  ledgerReadable env = true ->
  users db !! userId = Some u ->
  subscriptions db !! userId = Some s ->
  messageCount u + Z.of_nat (length calls) <= Prisma.maxInt ->
  monthlyMessageLimit s <= Prisma.maxInt ->
  aiChatSeq env db userId calls = (db', rs) ->
  let A := monthlyMessageLimit s - messagesUsed s in
  let N := Z.of_nat (length (okBodies rs)) in
  remaining (checkUsageQuota env db' userId) = Z.max 0 (A - N)
  /\ (messagesUsed <$> subscriptions db' !! userId) = Some (messagesUsed s + N)
  /\ usage_remaining <$> okBodies rs
     = (fun k => A - Z.of_nat k - 1) <$> seq 0 (length (okBodies rs))
  /\ (forall d d1 hits chatRoomId message context model body,
        aiChatRoute env d hits userId chatRoomId message context model = (d1, Ok body) ->
        usage_remaining body = remaining (checkUsageQuota env d userId) - 1)
  /\ (remaining (checkUsageQuota env db' userId) = 0 ->
      forall hits chatRoomId message context model,
        AiChatLimiter.admits hits = true ->
        Js.truthy message = true -> memberOfAiRoom db' userId chatRoomId ->
        aiChatRoute env db' hits userId chatRoomId message context model
        = (db', quotaExceededError)).
Proof.
  intros Henv Hu Hs Hcount Hlimit Hrun A N.
  destruct (aiChatSeq_ledger env userId calls db db' u s rs Hu Hs Hcount Hlimit Hrun)
    as (Hu' & Hs' & Hrems & Hle).
  assert (remaining (checkUsageQuota env db' userId) = Z.max 0 (A - N)
          /\ canUse (checkUsageQuota env db' userId) = (0 <? A - N)) as [Hrem Hcan].
  { unfold checkUsageQuota, readLedger, Prisma.findUserWithSubscription.
    rewrite Henv, Hu', Hs'. simpl. subst A N. split; [f_equal; lia | f_equal; lia]. }
  repeat split.
  - exact Hrem.
  - rewrite Hs'. reflexivity.
  - exact Hrems.
  - intros d d1 hits chatRoomId message context model body Hcall.
    unfold aiChatRoute in Hcall.
    destruct (AiChatLimiter.admits hits); [| discriminate].
    apply aiChat_Ok_inv in Hcall as (_ & _ & _ & _ & _ & _ & _ & H & _). exact H.
  - intros Hzero hits chatRoomId message context model Hhits Hmsg Hroom.
    unfold aiChatRoute. rewrite Hhits.
    rewrite aiChat_after_room_checks by assumption. simpl.
    rewrite Hcan. rewrite Hrem in Hzero.
    assert ((0 <? A - N) = false) as -> by (apply Z.ltb_ge; lia).
    reflexivity.
Qed.

Lemma quota_monotone_witness :
  let db' := fst (aiChatSeq Fixtures.echo Fixtures.db0 "alice" [Fixtures.hello]) in
  remaining (checkUsageQuota Fixtures.echo db' "alice") = 0
  /\ (messagesUsed <$> subscriptions db' !! "alice") = Some 1
  /\ aiChatRoute Fixtures.echo db' 2 "alice" "r1" "again" None "gemini-pro"
     = (db', quotaExceededError).
Proof.
  intros db'.
  destruct (quota_monotone Fixtures.echo Fixtures.db0 db' "alice"
              (mkUser 0) (mkSubscription 1 0) [Fixtures.hello]
              (snd (aiChatSeq Fixtures.echo Fixtures.db0 "alice" [Fixtures.hello])))
    as (Hrem & Hused & _ & _ & Hnext).
  - reflexivity.
  - reflexivity.
  - reflexivity.
  - unfold Prisma.maxInt. simpl. lia.
  - unfold Prisma.maxInt. simpl. lia.
  - reflexivity.
  - split; [exact Hrem | split; [exact Hused |]].
    apply Hnext; [exact Hrem | reflexivity | reflexivity |].
    exists (mkMember "m1" "alice" "r1" OWNER), (mkChatRoom true "gemini-pro").
    repeat split; reflexivity.
Defined.

(** ** The window of the rate limiter *)

Section Window.

Variables (key : string) (windowMs maxHits : Z).

Lemma redis_get_expired (r : gmap string RedisEntry) (now c e : Z) :
  r !! key = Some (mkEntry c (Some e)) -> e <= now -> redis_get r now key = None.
Proof.
  intros Hr He. unfold redis_get, live. rewrite Hr. simpl.
  assert ((now <? e) = false) as -> by (apply Z.ltb_ge; lia). reflexivity.
Qed.

Lemma redis_get_live (r : gmap string RedisEntry) (now c e : Z) :
  r !! key = Some (mkEntry c (Some e)) -> now < e ->
  redis_get r now key = Some (mkEntry c (Some e)).
Proof.
  intros Hr He. unfold redis_get, live. rewrite Hr. simpl.
  assert ((now <? e) = true) as -> by (apply Z.ltb_lt; lia). reflexivity.
Qed.

(** The first hit on a key that is absent or expired: the counter is 1 and
    the key expires 900 000 ms later. *)
Lemma incr_fresh (r : gmap string RedisEntry) (now : Z) :
  redis_get r now key = None ->
  incr r now key
  = (<[key := mkEntry 1 (Some (now + 900000))]> r, (1, now + 900000)).
Proof.
  intros Hget. unfold incr, redis_incr. rewrite Hget. simpl.
  unfold redis_expire, redis_get. rewrite lookup_insert_eq. simpl.
  rewrite insert_insert_eq. reflexivity.
Qed.

(** A later hit inside the window: the counter goes up and the expiry stays. *)
Lemma incr_live (r : gmap string RedisEntry) (now c e : Z) :
  r !! key = Some (mkEntry c (Some e)) -> now < e -> 1 <= c ->
  incr r now key = (<[key := mkEntry (c + 1) (Some e)]> r, (c + 1, now + 900000)).
Proof.
  intros Hr He Hc. unfold incr, redis_incr.
  rewrite (redis_get_live r now c e Hr He). simpl.
  assert ((c + 1 =? 1) = false) as -> by (apply Z.eqb_neq; lia). reflexivity.
Qed.

End Window.

(** C6. The store of the limiter sets the expiry of a new window to 900
    seconds, a constant of [createRedisStore], where the limiter reads its
    window from [RATE_LIMIT_WINDOW_MS]: the [resetTime] it reports is always
    900 000 ms ahead, and a first hit at any time on any key expires 900 000
    ms later.  With [RATE_LIMIT_WINDOW_MS=60000], a first hit at time 0 sets
    the expiry to 900 000 and not to 60 000, and a hit at 60 001, after the
    configured window has elapsed, does not start a new window: it is hit
    number 2 of the first one, and the expiry stays at 900 000. *)
Theorem store_window_ignores_windowMs :
  (forall (r : gmap string RedisEntry) (now : Z) (key : string),
      snd (snd (incr r now key)) = now + 900000)
  /\ (forall (now : Z) (key : string),
        incr ∅ now key
        = (<[key := mkEntry 1 (Some (now + 900000))]> ∅, (1, now + 900000)))
  /\ (let cfg := mkConfig (Some 60000) (Some 1) None in
      let key := keyGenerator (mkRequest "10.0.0.1" None) in
      let first := incr ∅ 0 key in
      let second := incr (fst first) 60001 key in
      RateLimiter.windowMs cfg = 60000
      /\ fst first !! key = Some (mkEntry 1 (Some 900000))
      /\ fst (snd first) = 1
      /\ fst (snd second) = 2
      /\ fst second !! key = Some (mkEntry 2 (Some 900000))).
Proof.
  split; [| split].
  - intros r now key. unfold incr. destruct (redis_incr r now key). reflexivity.
  - intros now key. apply incr_fresh. reflexivity.
  - vm_compute. repeat split; reflexivity.
Qed.

(** ** Overlapping invocations *)

Import Interleaving.

(** An invocation that runs alone, seven turns in a row, is the route. *)
Lemma alone_is_route (env : Env) (db : Db) (userId : string) (c : AiChatCall) :
  let out := answer env db userId c in
  turns env 7 db (start userId c) = (fst out, mkTask userId c (Finished (snd out))).
Proof.
  unfold answer, aiChatRoute, aiChat, start.
  cbn [turns]. unfold step at 1. cbn [task_pc task_user task_call].
  destruct (AiChatLimiter.admits (call_hits c)); [| reflexivity].
  unfold step at 1. cbn [task_pc task_user task_call].
  destruct (negb (Js.truthy (call_message c))); [reflexivity |].
  destruct (Prisma.findFirstMember db userId (call_room c)); [| reflexivity].
  destruct (chatRooms db !! _) as [room |]; [| reflexivity].
  destruct (negb (allowAI room)); [reflexivity |].
  unfold step at 1. cbn [task_pc task_user task_call].
  destruct (negb (canUse (checkUsageQuota env db userId))); [reflexivity |].
  unfold step at 1. cbn [task_pc task_user task_call].
  destruct (generateForRoute env _ _ _) as [r |]; [| reflexivity].
  unfold step at 1. cbn [task_pc task_user task_call].
  destruct (Prisma.createMessage db _) as [db1 |]; [| reflexivity].
  unfold step at 1. cbn [task_pc task_user task_call].
  unfold incrementUsage.
  destruct (Prisma.incrementMessagesUsed _ userId) as [db2 |]; [| reflexivity].
  unfold step at 1. cbn [task_pc task_user task_call].
  destruct (Prisma.incrementMessageCount db2 userId); reflexivity.
Qed.

(** C2, as stated, fails: the check and the increment are two separate
    round trips.  [alice] has allowance 1; two invocations of hers, the
    first and the second request of a window, whose turns alternate both
    pass the check before either increments, both succeed, and the consumed
    count ends at 2 for a limit of 1. *)
Lemma two_overlapping_invocations_both_succeed :
  let tasks := [start "alice" Fixtures.hello;
                start "alice" (mkCall 2 "r1" "hello" None "gemini-pro")] in
  let out := run Fixtures.echo [0; 1; 0; 1; 0; 1; 0; 1; 0; 1; 0; 1; 0; 1]%nat
               (Fixtures.db0, tasks) in
  Fixtures.usedBy Fixtures.db0 "alice" = Some 0
  /\ (monthlyMessageLimit <$> subscriptions Fixtures.db0 !! "alice") = Some 1
  /\ countIf succeeded (snd out) = 2
  /\ countIf quotaExceeded (snd out) = 0
  /\ Fixtures.usedBy (fst out) "alice" = Some 2.
Proof.
  vm_compute. repeat split; reflexivity.
Qed.

(** *** Counting tasks *)

Lemma countIf_nil (p : Task -> bool) : countIf p [] = 0.
Proof. reflexivity. Qed.

Lemma countIf_cons (p : Task -> bool) (t : Task) (l : list Task) :
  countIf p (t :: l) = Z.b2z (p t) + countIf p l.
Proof.
  unfold countIf. destruct (p t) eqn:E; simpl.
  - rewrite filter_cons_True by exact E. rewrite length_cons. lia.
  - rewrite filter_cons_False by (rewrite E; discriminate). lia.
Qed.

Lemma countIf_bounds (p : Task -> bool) (l : list Task) :
  0 <= countIf p l <= Z.of_nat (length l).
Proof.
  induction l as [| t l IH].
  - rewrite countIf_nil. simpl. lia.
  - rewrite countIf_cons, length_cons. destruct (p t); simpl; lia.
Qed.

Lemma countIf_insert (p : Task -> bool) (l : list Task) :
  forall (i : nat) (t t' : Task),
    l !! i = Some t ->
    countIf p (<[i := t']> l) = countIf p l - Z.b2z (p t) + Z.b2z (p t').
Proof.
  induction l as [| x l IH]; intros i t t' Hi.
  - discriminate.
  - destruct i as [| i].
    + injection Hi as ->. simpl. rewrite !countIf_cons. lia.
    + simpl in Hi. simpl. rewrite !countIf_cons, (IH i t t' Hi). lia.
Qed.

(** A task outside the count leaves the count below the number of tasks. *)
Lemma countIf_lt (p : Task -> bool) (l : list Task) :
  forall (i : nat) (t : Task),
    l !! i = Some t -> p t = false -> countIf p l < Z.of_nat (length l).
Proof.
  induction l as [| x l IH]; intros i t Hi Hp.
  - discriminate.
  - rewrite countIf_cons, length_cons. destruct i as [| i].
    + injection Hi as ->. rewrite Hp. pose proof (countIf_bounds p l). simpl. lia.
    + simpl in Hi. specialize (IH i t Hi Hp). destruct (p x); simpl; lia.
Qed.

Lemma countIf_start (p : Task -> bool) (userId : string) (calls : list AiChatCall) :
  (forall c, p (start userId c) = false) ->
  countIf p (start userId <$> calls) = 0.
Proof.
  intros Hp. induction calls as [| c calls IH].
  - reflexivity.
  - rewrite fmap_cons, countIf_cons, IH, Hp. reflexivity.
Qed.

(** *** One turn preserves the ledger invariant *)

Section Overlap.

Variables (env : Env) (db0 : Db) (userId : string) (u0 : User) (s0 : Subscription).
Variable K : Z.
Hypothesis Hread : ledgerReadable env = true.
Hypothesis Hcount : messageCount u0 + K <= Prisma.maxInt.
Hypothesis Hused : messagesUsed s0 + K <= Prisma.maxInt.

Lemma memberOfAiRoom_frame (db : Db) (chatRoomId : string) :
  chatRooms db = chatRooms db0 -> chatRoomMembers db = chatRoomMembers db0 ->
  memberOfAiRoom db0 userId chatRoomId -> memberOfAiRoom db userId chatRoomId.
Proof.
  intros Hr Hm (m & room & H1 & H2 & H3). exists m, room.
  unfold Prisma.findFirstMember in *. rewrite Hr, Hm. auto.
Qed.

Lemma taskOk_going (c : AiChatCall) (pc : Pc) :
  eligible env db0 userId c ->
  (forall quota r, pc <> AtCreate quota r) -> (forall r, pc <> Finished r) ->
  taskOk env db0 userId (mkTask userId c pc).
Proof.
  intros Hel Hcreate Hpc. split; [reflexivity | split; [exact Hel | split]].
  - intros quota r Hr. simpl in Hr. exfalso. exact (Hcreate quota r Hr).
  - intros r Hr. simpl in Hr. exfalso. exact (Hpc r Hr).
Qed.

(** Splits the effect of a turn into its parts and closes those that hold
    by computation or by arithmetic. *)
Local Ltac parts Hu Hs :=
  cbn [fst snd withMessage users subscriptions chatRooms chatRoomMembers
       monthlyMessageLimit];
  unfold incremented, succeeded, quotaExceeded; cbn [task_pc Z.b2z];
  repeat match goal with |- _ /\ _ => split end;
  try (rewrite ?lookup_insert_eq, ?Hu; do 2 f_equal; lia);
  try (rewrite ?lookup_insert_eq, ?Hs; do 2 f_equal; lia);
  try assumption; try lia; try discriminate;
  try (apply taskOk_going; [assumption | discriminate | discriminate]).

Lemma step_effect (db : Db) (t : Task) (X Y : Z) :
  users db !! userId = Some (mkUser Y) ->
  subscriptions db !! userId = Some (mkSubscription (monthlyMessageLimit s0) X) ->
  chatRooms db = chatRooms db0 ->
  chatRoomMembers db = chatRoomMembers db0 ->
  taskOk env db0 userId t ->
  (incremented t = false -> X < Prisma.maxInt) ->
  (succeeded t = false -> Y < Prisma.maxInt) ->
  let out := step env db t in
  users (fst out) !! userId
  = Some (mkUser (Y - Z.b2z (succeeded t) + Z.b2z (succeeded (snd out))))
  /\ subscriptions (fst out) !! userId
     = Some (mkSubscription (monthlyMessageLimit s0)
               (X - Z.b2z (incremented t) + Z.b2z (incremented (snd out))))
  /\ chatRooms (fst out) = chatRooms db0
  /\ chatRoomMembers (fst out) = chatRoomMembers db0
  /\ taskOk env db0 userId (snd out)
  /\ Z.b2z (incremented t) <= Z.b2z (incremented (snd out))
  /\ Z.b2z (succeeded t) <= Z.b2z (succeeded (snd out))
  /\ Z.b2z (quotaExceeded t) <= Z.b2z (quotaExceeded (snd out))
  /\ (quotaExceeded t = false -> quotaExceeded (snd out) = true ->
      monthlyMessageLimit s0 <= X /\ incremented (snd out) = incremented t).
Proof.
  destruct t as [tu c pc].
  intros Hu Hs Hr Hm (Htu & Hel & Hvalid & Hfin) HX HY out.
  cbn [task_user task_call task_pc] in Htu, Hel, Hvalid. subst tu.
  pose proof Hel as (Hhits & Hmsg & Hroom & resp & Hgen & Hresp).
  destruct pc as [| | | quota | quota r | quota r | quota r | res];
    subst out; unfold step; cbn [task_pc task_user task_call].
  - (* AtLimiter *)
    rewrite Hhits. parts Hu Hs.
  - (* AtMembership *)
    rewrite Hmsg. cbn [negb].
    destruct (memberOfAiRoom_frame db (call_room c) Hr Hm Hroom)
      as (m & room & -> & -> & ->).
    cbn [negb]. parts Hu Hs.
  - (* AtQuota *)
    unfold checkUsageQuota, readLedger, Prisma.findUserWithSubscription.
    rewrite Hread, Hu, Hs. cbn [quotaOfRead monthlyMessageLimit messagesUsed canUse].
    destruct (0 <? monthlyMessageLimit s0 - X) eqn:Hlt; cbn [negb].
    + parts Hu Hs.
    + apply Z.ltb_ge in Hlt.
      cbn [fst snd]. unfold incremented, succeeded. cbn [task_pc Z.b2z].
      repeat match goal with |- _ /\ _ => split end;
        try (rewrite Hu; do 2 f_equal; lia);
        try (rewrite Hs; do 2 f_equal; lia);
        try assumption; try lia; try reflexivity.
      * split; [reflexivity | split; [exact Hel | split]].
        -- intros q r' Hr'. discriminate.
        -- intros r' Hr'. simpl in Hr'. injection Hr' as <-. right. reflexivity.
      * unfold quotaExceeded. cbn [task_pc Z.b2z]. destruct (_ && _); simpl; lia.
  - (* AtGenerate *)
    rewrite Hgen. parts Hu Hs.
    split; [reflexivity | split; [exact Hel | split]].
    + intros q r' Hr'. simpl in Hr'. injection Hr' as _ <-. exact Hresp.
    + intros r' Hr'. discriminate.
  - (* AtCreate *)
    assert (Prisma.createMessage db (aiMessageRow (call_room c) r)
            = Some (withMessage db (aiMessageRow (call_room c) r))) as ->.
    { apply createMessage_Some. split; [| split; [| reflexivity]].
      - apply (Hvalid quota r). reflexivity.
      - apply aiMessageRow_references. rewrite Hr.
        apply (memberOfAiRoom_room db0 userId), Hroom. }
    parts Hu Hs.
  - (* AtIncrementSubscription *)
    unfold Prisma.incrementMessagesUsed. rewrite Hs. cbn [messagesUsed].
    rewrite incrementInt_Some by (apply HX; reflexivity).
    parts Hu Hs.
  - (* AtIncrementUser *)
    unfold Prisma.incrementMessageCount. rewrite Hu. cbn [messageCount].
    rewrite incrementInt_Some by (apply HY; reflexivity).
    parts Hu Hs.
    split; [reflexivity | split; [exact Hel | split]].
    + intros q r' Hr'. discriminate.
    + intros r' Hr'. simpl in Hr'. injection Hr' as <-. left. eauto.
  - (* Finished *)
    cbn [fst snd].
    repeat match goal with |- _ /\ _ => split end;
      try (rewrite Hu; do 2 f_equal; lia);
      try (rewrite Hs; do 2 f_equal; lia);
      try assumption; try lia; try congruence.
    split; [reflexivity | split; [exact Hel | split; assumption]].
Qed.

Lemma schedule1_ledgerInv (st : Db * list Task) (i : nat) :
  Z.of_nat (length (snd st)) <= K ->
  ledgerInv env db0 userId u0 s0 st ->
  ledgerInv env db0 userId u0 s0 (schedule1 env st i).
Proof.
  destruct st as [db tasks].
  intros Hlen (Hu & Hs & Hr & Hm & Hall & Hden). cbn [fst snd] in *.
  unfold schedule1. cbn [fst snd].
  destruct (tasks !! i) as [t |] eqn:Hi; [| repeat split; assumption].
  assert (taskOk env db0 userId t) as Ht by (eapply Forall_lookup_1; eassumption).
  assert (incremented t = false ->
          messagesUsed s0 + countIf incremented tasks < Prisma.maxInt) as HX.
  { intros Hno. pose proof (countIf_lt incremented tasks i t Hi Hno). lia. }
  assert (succeeded t = false ->
          messageCount u0 + countIf succeeded tasks < Prisma.maxInt) as HY.
  { intros Hno. pose proof (countIf_lt succeeded tasks i t Hi Hno). lia. }
  pose proof (step_effect db t _ _ Hu Hs Hr Hm Ht HX HY) as Heff. cbv zeta in Heff.
  destruct (step env db t) as [db' t']. cbn [fst snd] in Heff.
  destruct Heff as (Hu' & Hs' & Hr' & Hm' & Ht' & Hinc & Hsucc & Hq & Hnew).
  pose proof (countIf_insert incremented tasks i t t' Hi) as Hci.
  pose proof (countIf_insert succeeded tasks i t t' Hi) as Hcs.
  pose proof (countIf_insert quotaExceeded tasks i t t' Hi) as Hcq.
  unfold ledgerInv. cbn [fst snd]. repeat split.
  - rewrite Hu'. do 2 f_equal. lia.
  - rewrite Hs'. do 2 f_equal. lia.
  - exact Hr'.
  - exact Hm'.
  - apply Forall_insert; assumption.
  - intros Hpos. rewrite Hci.
    destruct (decide (0 < countIf quotaExceeded tasks)) as [Hold | Hold].
    + specialize (Hden Hold). lia.
    + destruct (quotaExceeded t) eqn:Hqt; destruct (quotaExceeded t') eqn:Hqt';
        simpl in Hcq, Hq; try lia;
        destruct (Hnew eq_refl eq_refl) as [Hle Hsame]; rewrite Hsame; lia.
Qed.

Lemma run_length (sched : list nat) :
  forall st, length (snd (run env sched st)) = length (snd st).
Proof.
  unfold run. induction sched as [| i sched IH]; intros st.
  - reflexivity.
  - simpl. rewrite IH. unfold schedule1.
    destruct (snd st !! i); [| reflexivity].
    destruct (step env (fst st) _). simpl. apply length_insert.
Qed.

Lemma run_ledgerInv (sched : list nat) :
  forall st,
    Z.of_nat (length (snd st)) <= K ->
    ledgerInv env db0 userId u0 s0 st ->
    ledgerInv env db0 userId u0 s0 (run env sched st).
Proof.
  induction sched as [| i sched IH]; intros st Hlen Hinv.
  - exact Hinv.
  - change (run env (i :: sched) st) with (run env sched (schedule1 env st i)).
    apply IH.
    + change (schedule1 env st i) with (run env [i] st). rewrite run_length. exact Hlen.
    + apply schedule1_ledgerInv; assumption.
Qed.

(** When every task has finished, each one either succeeded or was refused
    for quota, and the tasks past their increment are the successes. *)
Lemma finished_counts (tasks : list Task) :
  Forall (taskOk env db0 userId) tasks ->
  Forall (fun t => isFinished t = true) tasks ->
  countIf succeeded tasks + countIf quotaExceeded tasks = Z.of_nat (length tasks)
  /\ countIf incremented tasks = countIf succeeded tasks.
Proof.
  induction 1 as [| t tasks Ht _ IH]; intros Hfin.
  - rewrite !countIf_nil. simpl. lia.
  - apply Forall_cons in Hfin as [Htfin Hfin].
    destruct (IH Hfin) as [Hsum Heq].
    rewrite !countIf_cons, length_cons, Heq.
    destruct Ht as (_ & _ & _ & Hres).
    remember (countIf succeeded tasks) as ok eqn:Hok.
    remember (countIf quotaExceeded tasks) as refused eqn:Hrefused.
    clear Hok Hrefused Heq IH.
    unfold isFinished in Htfin. unfold succeeded, quotaExceeded, incremented.
    destruct (task_pc t) as [| | | | | | | r]; try discriminate.
    destruct (Hres r eq_refl) as [[b ->] | ->]; simpl; lia.
Qed.

Lemma start_ledgerInv (calls : list AiChatCall) :
  users db0 !! userId = Some u0 ->
  subscriptions db0 !! userId = Some s0 ->
  Forall (eligible env db0 userId) calls ->
  ledgerInv env db0 userId u0 s0 (db0, start userId <$> calls).
Proof.
  intros Hu Hs Hel. unfold ledgerInv. cbn [fst snd].
  rewrite !countIf_start by reflexivity.
  repeat split; eauto.
  - rewrite Hu. destruct u0. simpl. do 2 f_equal. lia.
  - rewrite Hs. destruct s0. simpl. do 2 f_equal. lia.
  - apply Forall_fmap. eapply Forall_impl; [exact Hel |].
    intros c Hc. apply taskOk_going; [exact Hc | discriminate | discriminate].
  - lia.
Qed.

End Overlap.

(** *** The sequential schedule is the sequence of requests *)

Lemma run_app (env : Env) (sched1 sched2 : list nat) (st : Db * list Task) :
  run env (sched1 ++ sched2) st = run env sched2 (run env sched1 st).
Proof. unfold run. apply fold_left_app. Qed.

Lemma run_repeat (env : Env) (n : nat) :
  forall (db : Db) (before after : list Task) (t : Task),
    run env (repeat (length before) n) (db, before ++ t :: after)
    = (fst (turns env n db t), before ++ snd (turns env n db t) :: after).
Proof.
  induction n as [| n IH]; intros db before after t.
  - reflexivity.
  - cbn [repeat turns]. unfold run. cbn [fold_left].
    unfold schedule1 at 2. cbn [fst snd].
    rewrite list_lookup_middle by reflexivity.
    destruct (step env db t) as [db1 t1].
    rewrite insert_app_r_alt by reflexivity.
    rewrite Nat.sub_diag. cbn [insert list_insert].
    apply IH.
Qed.

Lemma sequential_run (env : Env) (userId : string) (calls : list AiChatCall) :
  forall (db : Db) (before : list Task),
    let out := run env (flat_map (fun i => repeat i 7) (seq (length before) (length calls)))
                 (db, before ++ (start userId <$> calls)) in
    fst out = fst (aiChatSeq env db userId calls)
    /\ exists finished,
        snd out = before ++ finished /\
        length finished = length calls /\
        Forall (fun t => isFinished t = true) finished.
Proof.
  induction calls as [| c calls IH]; intros db before out; subst out.
  - simpl. split; [reflexivity |]. exists []. repeat split. constructor.
  - cbn [length seq flat_map fmap list_fmap aiChatSeq].
    rewrite run_app, run_repeat, alone_is_route. cbn [fst snd].
    destruct (answer env db userId c) as [db1 r].
    cbn [fst snd].
    specialize (IH db1 (before ++ [mkTask userId c (Finished r)])).
    cbv zeta in IH. rewrite length_app in IH. cbn [length] in IH.
    replace (length before + 1)%nat with (S (length before)) in IH by lia.
    rewrite <- app_assoc in IH. cbn [app] in IH.
    destruct IH as (Hdb & finished & Htasks & Hlen & Hfin).
    destruct (aiChatSeq env db1 userId calls) as [db2 rs]. cbn [fst] in *.
    split; [exact Hdb |].
    exists (mkTask userId c (Finished r) :: finished).
    rewrite Htasks, <- app_assoc. repeat split.
    + simpl. rewrite Hlen. reflexivity.
    + constructor; [reflexivity | exact Hfin].
Qed.

(** C2, as amended.  Take [K >= 1] requests by one user whose allowance is
    exactly [K - 1], each let through by the limiter, on a room that passes
    the membership and assistant checks, and with a provider that answers
    with a text the store takes; the counters stay below the top of their
    columns.  The increment of [messagesUsed] is one statement of the store,
    so no increment is lost: whatever the interleaving, once all have
    finished the consumed count and the lifetime counter are up by exactly
    the number of successes.  The quota check is a separate, earlier read,
    so under an arbitrary interleaving the number of successes is [K - 1] or
    [K] (at most one invocation is refused for quota).  When the invocations
    do not overlap, exactly [K - 1] succeed and exactly one is refused with
    the quota error. *)
Theorem overlapping_invocations (env : Env) (db : Db) (userId : string)
    (u : User) (s : Subscription) (calls : list AiChatCall) :
  ledgerReadable env = true ->
  users db !! userId = Some u ->
  subscriptions db !! userId = Some s ->
  Forall (eligible env db userId) calls ->
  let K := Z.of_nat (length calls) in
  1 <= K ->
  monthlyMessageLimit s - messagesUsed s = K - 1 ->
  monthlyMessageLimit s < Prisma.maxInt ->
  messageCount u + K <= Prisma.maxInt ->
  (forall sched : list nat,
      let out := run env sched (db, start userId <$> calls) in
      Forall (fun t => isFinished t = true) (snd out) ->
      K - 1 <= countIf succeeded (snd out) <= K
      /\ countIf quotaExceeded (snd out) = K - countIf succeeded (snd out)
      /\ (messagesUsed <$> subscriptions (fst out) !! userId)
         = Some (messagesUsed s + countIf succeeded (snd out))
      /\ (messageCount <$> users (fst out) !! userId)
         = Some (messageCount u + countIf succeeded (snd out)))
  /\ (let out := run env (sequentialSchedule (length calls))
                   (db, start userId <$> calls) in
      Forall (fun t => isFinished t = true) (snd out)
      /\ countIf succeeded (snd out) = K - 1
      /\ countIf quotaExceeded (snd out) = 1).
Proof.
  intros Hread Hu Hs Hel K HK HA Hlimit Hcount.
  assert (messagesUsed s + K <= Prisma.maxInt) as Hused by lia.
  assert (forall sched : list nat,
             let out := run env sched (db, start userId <$> calls) in
             Forall (fun t => isFinished t = true) (snd out) ->
             K - 1 <= countIf succeeded (snd out) <= K
             /\ countIf quotaExceeded (snd out) = K - countIf succeeded (snd out)
             /\ (messagesUsed <$> subscriptions (fst out) !! userId)
                = Some (messagesUsed s + countIf succeeded (snd out))
             /\ (messageCount <$> users (fst out) !! userId)
                = Some (messageCount u + countIf succeeded (snd out))) as Hany.
  { intros sched out Hfin.
    assert (Z.of_nat (length (snd (db, start userId <$> calls))) <= K) as Hlen0.
    { cbn [snd]. rewrite length_fmap. subst K. lia. }
    assert (ledgerInv env db userId u s out) as Hinv.
    { subst out. apply (run_ledgerInv env db userId u s K Hread Hcount Hused sched _ Hlen0).
      eapply start_ledgerInv; eassumption. }
    destruct Hinv as (Husr & Hsub & _ & _ & Hall & Hden).
    destruct (finished_counts env db userId (snd out) Hall Hfin) as [Hsum Hinc].
    assert (length (snd out) = length calls) as Hlen.
    { subst out. rewrite run_length. cbn [snd]. apply length_fmap. }
    pose proof (countIf_bounds quotaExceeded (snd out)) as Hq.
    pose proof (countIf_bounds succeeded (snd out)) as Hok.
    rewrite Hlen in Hsum, Hq, Hok. fold K in Hsum, Hq, Hok.
    rewrite Hinc in Hsub, Hden.
    split; [| split; [| split]].
    - destruct (decide (0 < countIf quotaExceeded (snd out))) as [Hpos | Hzero].
      + specialize (Hden Hpos). lia.
      + lia.
    - lia.
    - rewrite Hsub. reflexivity.
    - rewrite Husr. reflexivity. }
  split; [exact Hany |].
  intros out.
  destruct (sequential_run env userId calls db []) as (Hdb & finished & Htasks & _ & Hfin).
  cbn [length app] in Hdb, Htasks. fold (sequentialSchedule (length calls)) in Hdb, Htasks.
  fold out in Hdb, Htasks. rewrite <- Htasks in Hfin.
  destruct (Hany (sequentialSchedule (length calls)) Hfin)
    as (Hrange & Hrefused & Hsub & _).
  fold out in Hrange, Hrefused, Hsub.
  destruct (aiChatSeq env db userId calls) as [db' rs] eqn:Hseq. cbn [fst] in Hdb.
  destruct (aiChatSeq_ledger env userId calls db db' u s rs Hu Hs) as (_ & Hsub' & _ & Hle);
    [fold K; lia | lia | exact Hseq |].
  rewrite Hdb, Hsub' in Hsub. cbn [fmap option_fmap option_map messagesUsed] in Hsub.
  injection Hsub as Hsub.
  assert (countIf succeeded (snd out) = K - 1) as Hexact.
  { destruct (okBodies rs) as [| b bs] eqn:Hbodies.
    - simpl in Hsub. lia.
    - assert (b :: bs <> []) as Hne by discriminate.
      specialize (Hle Hne). lia. }
  split; [exact Hfin | split; [exact Hexact | lia]].
Qed.

Lemma hello_eligible (hits : Z) :
  hits <= 10 ->
  eligible Fixtures.echo Fixtures.db0 "alice" (mkCall hits "r1" "hello" None "gemini-pro").
Proof.
  intros Hhits. split; [apply Z.leb_le; exact Hhits | split; [reflexivity | split]].
  - exists (mkMember "m1" "alice" "r1" OWNER), (mkChatRoom true "gemini-pro").
    repeat split; reflexivity.
  - eexists. split; reflexivity.
Defined.

Lemma overlapping_invocations_witness :
  let tasks := [start "alice" Fixtures.hello;
                start "alice" (mkCall 2 "r1" "hello" None "gemini-pro")] in
  countIf succeeded (snd (run Fixtures.echo (sequentialSchedule 2) (Fixtures.db0, tasks))) = 1
  /\ countIf quotaExceeded
       (snd (run Fixtures.echo (sequentialSchedule 2) (Fixtures.db0, tasks))) = 1.
Proof.
  destruct (overlapping_invocations Fixtures.echo Fixtures.db0 "alice"
              (mkUser 0) (mkSubscription 1 0)
              [Fixtures.hello; mkCall 2 "r1" "hello" None "gemini-pro"])
    as [_ (_ & Hok & Hrefused)].
  - reflexivity.
  - reflexivity.
  - reflexivity.
  - constructor; [apply hello_eligible; lia |].
    constructor; [apply hello_eligible; lia | constructor].
  - simpl. lia.
  - reflexivity.
  - unfold Prisma.maxInt. simpl. lia.
  - unfold Prisma.maxInt. simpl. lia.
  - split; [exact Hok | exact Hrefused].
Defined.

(** * Further properties of the code *)

(** ** The registry of live sockets *)

Section RegistryFacts.
Import Auth Registry.

(** X1. [join_room] subscribes a socket to a room only when its user has a
    membership row for the room: afterwards the subscriptions are the old
    ones plus, for a member, the pair of this socket and this room; nobody
    else's subscription changes, the answer goes to the sender alone, a
    non-member leaves the registry as it was, and joining twice is joining
    once. *)
Theorem join_room_subscribes_members_only (db : Db) (hub : Hub) (s : Socket)
    (chatRoomId : string) :
  let out := join_room db hub s chatRoomId in
  (forall socketId room,
      (socketId, room) ∈ joined (fst out) <->
      (socketId, room) ∈ joined hub \/
      (socketId = sock_id s /\ room = chatRoomId /\
       is_Some (Prisma.findFirstMember db (ru_id (sock_user s)) chatRoomId)))
  /\ connectedUsers (fst out) = connectedUsers hub
  /\ dl_to (snd out) = {[sock_id s]}
  /\ (Prisma.findFirstMember db (ru_id (sock_user s)) chatRoomId = None ->
      out = (hub, toSelf s "error" (ErrorNotice "Not authorized to join this room")))
  /\ join_room db (fst out) s chatRoomId = out.
Proof.
  unfold join_room.
  destruct (Prisma.findFirstMember db (ru_id (sock_user s)) chatRoomId) as [m |];
    cbn [fst snd].
  - split; [| split; [reflexivity | split; [reflexivity | split; [discriminate |]]]].
    + intros socketId room. cbn [socketJoin joined].
      rewrite elem_of_union, elem_of_singleton. split.
      * intros [H | H]; [| left; exact H]. injection H as -> ->. right. eauto.
      * intros [H | (-> & -> & _)]; [right; exact H | left; reflexivity].
    + unfold socketJoin. cbn [joined connectedUsers]. do 2 f_equal.
      apply set_eq. intros p. rewrite !elem_of_union. tauto.
  - split; [| split; [reflexivity | split; [reflexivity | split; reflexivity]]].
    intros socketId room. split.
    + intros H. left. exact H.
    + intros [H | (_ & _ & [x Hx])]; [exact H | discriminate].
Qed.

Lemma join_room_subscribes_members_only_witness :
  let carol := mkSocket "s3" (mkReqUser "carol" "carol@example.org" Tables.USER) in
  join_room Fixtures.db0 (mkHub ∅ ∅) carol "r1"
  = (mkHub ∅ ∅, toSelf carol "error" (ErrorNotice "Not authorized to join this room")).
Proof.
  intros carol.
  destruct (join_room_subscribes_members_only Fixtures.db0 (mkHub ∅ ∅) carol "r1")
    as (_ & _ & _ & Hrefused & _).
  apply Hrefused. reflexivity.
Defined.

Lemma joined_foldl_socketJoin (socketId : string) (rooms : list string) :
  forall hub,
    joined (foldl (fun h r => socketJoin h socketId r) hub rooms)
    = list_to_set ((fun r => (socketId, r)) <$> rooms) ∪ joined hub
    /\ connectedUsers (foldl (fun h r => socketJoin h socketId r) hub rooms)
       = connectedUsers hub.
Proof.
  induction rooms as [| r rooms IH]; intros hub.
  - simpl. split; [| reflexivity]. symmetry. apply (left_id_L ∅ (∪)).
  - cbn [foldl]. destruct (IH (socketJoin hub socketId r)) as [Hj Hc].
    rewrite Hj, Hc. cbn [socketJoin joined connectedUsers].
    split; [| reflexivity]. rewrite fmap_cons. cbn [list_to_set].
    apply set_eq. intros p. rewrite !elem_of_union. tauto.
Qed.

Lemma elem_of_roomsOf (db : Db) (userId chatRoomId : string) :
  chatRoomId ∈ roomsOf db userId <->
  exists m, m ∈ chatRoomMembers db /\ mem_userId m = userId /\
            mem_chatRoomId m = chatRoomId.
Proof.
  unfold roomsOf. rewrite list_elem_of_fmap. split.
  - intros (m & -> & Hm). apply list_elem_of_filter in Hm as [Hu Hin]. eauto.
  - intros (m & Hin & Hu & Hr). exists m. split; [symmetry; exact Hr |].
    apply list_elem_of_filter. split; assumption.
Qed.

Lemma connection_effect (db : Db) (hub : Hub) (s : Socket) :
  let hub' := connection db hub s in
  (forall room,
      (sock_id s, room) ∈ joined hub' <->
      (sock_id s, room) ∈ joined hub \/
      exists m, m ∈ chatRoomMembers db /\ mem_userId m = ru_id (sock_user s) /\
                mem_chatRoomId m = room)
  /\ (forall socketId room,
        socketId <> sock_id s ->
        ((socketId, room) ∈ joined hub' <-> (socketId, room) ∈ joined hub))
  /\ connectedUsers hub' !! ru_id (sock_user s) = Some (sock_id s)
  /\ (forall userId, userId <> ru_id (sock_user s) ->
        connectedUsers hub' !! userId = connectedUsers hub !! userId).
Proof.
  unfold connection, joinUserChatRooms.
  destruct (joined_foldl_socketJoin (sock_id s) (roomsOf db (ru_id (sock_user s)))
              (mkHub (joined hub)
                 (<[ru_id (sock_user s) := sock_id s]> (connectedUsers hub))))
    as [Hj Hc].
  cbv zeta. rewrite Hj, Hc. cbn [joined connectedUsers].
  split; [| split; [| split]].
  - intros room. split.
    + intros H. apply elem_of_union in H as [H | H]; [| left; exact H].
      right. apply elem_of_list_to_set, list_elem_of_fmap in H as (r & Heq & Hr).
      injection Heq as ->. apply elem_of_roomsOf. exact Hr.
    + intros [H | H]; [apply elem_of_union; right; exact H |].
      apply elem_of_union. left.
      apply elem_of_list_to_set, list_elem_of_fmap. exists room.
      split; [reflexivity | apply elem_of_roomsOf; exact H].
  - intros socketId room Hne. split.
    + intros H. apply elem_of_union in H as [H | H]; [| exact H].
      apply elem_of_list_to_set, list_elem_of_fmap in H as (r & Heq & _).
      injection Heq as -> _. contradiction.
    + intros H. apply elem_of_union. right. exact H.
  - apply lookup_insert_eq.
  - intros userId Hne. apply lookup_insert_ne. congruence.
Qed.

(** X2. On connection a socket is put into exactly the rooms for which its
    user has a membership row (beside those it was in), the subscriptions of
    the other sockets are left alone, and [connectedUsers] points the user
    to this socket. *)
Theorem connection_restores_rooms (db : Db) (hub : Hub) (s : Socket) :
  let hub' := connection db hub s in
  (forall room,
      (sock_id s, room) ∈ joined hub' <->
      (sock_id s, room) ∈ joined hub \/
      exists m, m ∈ chatRoomMembers db /\ mem_userId m = ru_id (sock_user s) /\
                mem_chatRoomId m = room)
  /\ (forall socketId room,
        socketId <> sock_id s ->
        ((socketId, room) ∈ joined hub' <-> (socketId, room) ∈ joined hub))
  /\ connectedUsers hub' !! ru_id (sock_user s) = Some (sock_id s)
  /\ (forall userId, userId <> ru_id (sock_user s) ->
        connectedUsers hub' !! userId = connectedUsers hub !! userId).
Proof. exact (connection_effect db hub s). Qed.

Lemma connection_restores_rooms_witness :
  let alice := mkSocket "s1" (mkReqUser "alice" "alice@example.org" Tables.ADMIN) in
  ("s1", "r2") ∈ joined (connection Fixtures.db0 (mkHub ∅ ∅) alice)
  /\ connectedUsers (connection Fixtures.db0 (mkHub ∅ ∅) alice) !! "alice" = Some "s1".
Proof.
  intros alice.
  destruct (connection_restores_rooms Fixtures.db0 (mkHub ∅ ∅) alice)
    as (Hrooms & _ & Huser & _).
  split; [| exact Huser].
  apply Hrooms. right. exists (mkMember "m3" "alice" "r2" OWNER).
  split; [| split; reflexivity].
  do 2 (apply elem_of_cons; right). apply elem_of_cons. left. reflexivity.
Defined.

(** X3. Leaving a room on the socket and joining it again is a round trip
    for a member: the registry is what it was.  After [leave_room] the
    socket is outside the room, whoever asks and whether or not the user is
    a member. *)
Theorem leave_room_then_join_room (db : Db) (hub : Hub) (s : Socket)
    (chatRoomId : string) :
  (sock_id s ∉ socketsIn (fst (leave_room hub s chatRoomId)) chatRoomId)
  /\ (forall socketId room,
        (socketId, room) <> (sock_id s, chatRoomId) ->
        ((socketId, room) ∈ joined (fst (leave_room hub s chatRoomId)) <->
         (socketId, room) ∈ joined hub))
  /\ ((sock_id s, chatRoomId) ∈ joined hub ->
      is_Some (Prisma.findFirstMember db (ru_id (sock_user s)) chatRoomId) ->
      fst (join_room db (fst (leave_room hub s chatRoomId)) s chatRoomId) = hub).
Proof.
  unfold leave_room. cbn [fst]. split; [| split].
  - rewrite elem_of_socketsIn. cbn [socketLeave joined].
    rewrite elem_of_difference, elem_of_singleton. intros [_ H]. apply H. reflexivity.
  - intros socketId room Hne. cbn [socketLeave joined].
    rewrite elem_of_difference, elem_of_singleton. tauto.
  - intros Hin [m Hm]. unfold join_room. rewrite Hm. cbn [fst].
    destruct hub as [j c]. unfold socketJoin, socketLeave. cbn [joined connectedUsers] in *.
    f_equal. apply set_eq. intros p.
    rewrite elem_of_union, elem_of_difference, elem_of_singleton.
    destruct (decide (p = (sock_id s, chatRoomId))) as [-> | Hne]; tauto.
Qed.

Lemma leave_room_then_join_room_witness :
  let s := mkSocket "s1" (Auth.mkReqUser "bob" "bob@example.org" Tables.USER) in
  let hub := mkHub {[("s1", "r1"); ("s2", "r1")]} ∅ in
  fst (join_room Fixtures.db0 (fst (leave_room hub s "r1")) s "r1") = hub.
Proof.
  intros s hub.
  apply (leave_room_then_join_room Fixtures.db0 hub s "r1").
  - subst hub. cbn [joined]. apply elem_of_union. left.
    apply elem_of_singleton. reflexivity.
  - eexists. reflexivity.
Defined.

Lemma split_cons (sep c : ascii) (s : string) :
  RateLimiter.split sep (String c s)
  = if bool_decide (c = sep) then EmptyString :: RateLimiter.split sep s
    else match RateLimiter.split sep s with
         | x :: xs => String c x :: xs
         | [] => [String c EmptyString]
         end.
Proof. reflexivity. Qed.

Lemma no_separator_cons (sep c : ascii) (s : string) :
  Js.includes (String c s) (String sep EmptyString) = false ->
  c <> sep /\ Js.includes s (String sep EmptyString) = false.
Proof.
  cbn [Js.includes String.prefix]. intros H.
  apply orb_false_iff in H as [Hc Hrest]. split; [| exact Hrest].
  intros ->. destruct (ascii_dec sep sep) as [_ | Hne]; [| contradiction].
  destruct s; discriminate.
Qed.

Lemma split_head (sep : ascii) (rest : string) (local : string) :
  Js.includes local (String sep EmptyString) = false ->
  RateLimiter.split sep (local +:+ String sep rest)
  = local :: RateLimiter.split sep rest.
Proof.
  induction local as [| c local IH]; intros Hno.
  - change (EmptyString +:+ String sep rest) with (String sep rest).
    rewrite split_cons, bool_decide_eq_true_2 by reflexivity. reflexivity.
  - apply no_separator_cons in Hno as [Hc Hrest].
    change (String c local +:+ String sep rest)
      with (String c (local +:+ String sep rest)).
    rewrite split_cons.
    rewrite bool_decide_eq_false_2 by exact Hc.
    rewrite (IH Hrest). reflexivity.
Qed.

Lemma split_none (sep : ascii) (s : string) :
  Js.includes s (String sep EmptyString) = false -> RateLimiter.split sep s = [s].
Proof.
  induction s as [| c s IH]; intros Hno.
  - reflexivity.
  - apply no_separator_cons in Hno as [Hc Hrest].
    rewrite split_cons, bool_decide_eq_false_2 by exact Hc.
    rewrite (IH Hrest). reflexivity.
Qed.

(** X4. A typing notice reaches exactly the other sockets of the room: every
    socket subscribed to the room except the sender's, and no socket outside
    it.  No membership is asked for, and the registry is not changed.  The
    [username] sent with [user_typing] is the part of the sender's email
    before its first [@]. *)
Theorem typing_reaches_the_others (hub : Hub) (s : Socket) (chatRoomId : string)
    (local domain : string) :
  ru_email (sock_user s) = local +:+ "@" +:+ domain ->
  Js.includes local "@" = false ->
  (forall socketId,
      socketId ∈ dl_to (typing_start hub s chatRoomId) <->
      socketId <> sock_id s /\ (socketId, chatRoomId) ∈ joined hub)
  /\ dl_to (typing_stop hub s chatRoomId) = dl_to (typing_start hub s chatRoomId)
  /\ dl_notice (typing_start hub s chatRoomId)
     = UserTyping (ru_id (sock_user s)) local
  /\ dl_notice (typing_stop hub s chatRoomId) = UserStopTyping (ru_id (sock_user s)).
Proof.
  intros Hemail Hlocal. split; [| split; [| split]].
  - intros socketId. unfold typing_start, toOthers. cbn [dl_to].
    rewrite elem_of_difference, elem_of_socketsIn, elem_of_singleton. tauto.
  - reflexivity.
  - unfold typing_start, toOthers, usernameOf. cbn [dl_notice].
    rewrite Hemail.
    change ("@" +:+ domain) with (String "@" domain).
    rewrite (split_head "@" domain local Hlocal). reflexivity.
  - reflexivity.
Qed.

Lemma typing_reaches_the_others_witness :
  let s := mkSocket "s1" (Auth.mkReqUser "bob" "bob@example.org" Tables.USER) in
  let hub := mkHub {[("s1", "r1"); ("s2", "r1"); ("s3", "r2")]} ∅ in
  dl_notice (typing_start hub s "r1") = UserTyping "bob" "bob"
  /\ ("s2" ∈ dl_to (typing_start hub s "r1") <->
      "s2" <> "s1" /\ ("s2", "r1") ∈ joined hub).
Proof.
  intros s hub.
  destruct (typing_reaches_the_others hub s "r1" "bob" "example.org")
    as (Hto & _ & Hname & _); [reflexivity | reflexivity |].
  split; [exact Hname | apply Hto].
Defined.

Lemma filter_other_socket (socketId : string) (rooms : list string)
    (X : gset (string * string)) (other : string) :
  other <> socketId ->
  forall room, room ∈ rooms ->
    (other, room) ∈ filter (fun p => fst p <> socketId)
                      (list_to_set ((fun r => (other, r)) <$> rooms) ∪ X).
Proof.
  intros Hne room Hin. apply elem_of_filter. split; [exact Hne |].
  apply elem_of_union. left. apply elem_of_list_to_set, list_elem_of_fmap.
  exists room. split; [reflexivity | exact Hin].
Qed.

(** X5. [connectedUsers] is keyed by user, and [disconnect] deletes the
    user's entry without looking at the socket it holds.  When a user
    connects on a second socket and the first one disconnects, the user has
    no entry in [connectedUsers] although the second socket is still in all
    the user's rooms. *)
Theorem disconnect_forgets_user_with_live_socket (db : Db) (hub : Hub)
    (s1 s2 : Socket) :
  sock_user s1 = sock_user s2 ->
  sock_id s1 <> sock_id s2 ->
  let hub' := disconnect (connection db (connection db hub s1) s2) s1 in
  connectedUsers (connection db (connection db hub s1) s2) !! ru_id (sock_user s2)
  = Some (sock_id s2)
  /\ connectedUsers hub' !! ru_id (sock_user s2) = None
  /\ (forall room, room ∈ roomsOf db (ru_id (sock_user s2)) ->
        (sock_id s2, room) ∈ joined hub')
  /\ (forall room, (sock_id s1, room) ∉ joined hub').
Proof.
  intros Huser Hid hub'.
  destruct (connection_effect db (connection db hub s1) s2)
    as (Hrooms & _ & Hpoint & _).
  split; [exact Hpoint | split; [| split]].
  - subst hub'. unfold disconnect. cbn [connectedUsers].
    rewrite Huser. apply lookup_delete_eq.
  - intros room Hroom. subst hub'. unfold disconnect. cbn [joined].
    apply elem_of_filter. split; [cbn [fst]; congruence |].
    apply Hrooms. right. apply elem_of_roomsOf. exact Hroom.
  - intros room Hin. subst hub'. unfold disconnect in Hin. cbn [joined] in Hin.
    apply elem_of_filter in Hin as [Hne _]. cbn [fst] in Hne. contradiction.
Qed.

Lemma disconnect_forgets_user_with_live_socket_witness :
  let alice := Auth.mkReqUser "alice" "alice@example.org" Tables.ADMIN in
  let hub' := disconnect
                (connection Fixtures.db0
                   (connection Fixtures.db0 (mkHub ∅ ∅) (mkSocket "s1" alice))
                   (mkSocket "s2" alice))
                (mkSocket "s1" alice) in
  connectedUsers hub' !! "alice" = None /\ ("s2", "r1") ∈ joined hub'.
Proof.
  intros alice hub'.
  destruct (disconnect_forgets_user_with_live_socket Fixtures.db0 (mkHub ∅ ∅)
              (mkSocket "s1" alice) (mkSocket "s2" alice))
    as (_ & Hgone & Hrooms & _); [reflexivity | discriminate |].
  split; [exact Hgone |].
  apply Hrooms. apply elem_of_roomsOf.
  exists (mkMember "m1" "alice" "r1" OWNER).
  split; [apply elem_of_cons; left; reflexivity | split; reflexivity].
Defined.

End RegistryFacts.

(** ** Resets of the ledger *)

Section LedgerFacts.
Import Ledger.

Lemma quota_of_rows (env : Env) (db : Db) (userId : string) (u : User) (s : Subscription) :
  ledgerReadable env = true ->
  users db !! userId = Some u ->
  subscriptions db !! userId = Some s ->
  checkUsageQuota env db userId
  = mkQuota (0 <? monthlyMessageLimit s - messagesUsed s)
      (Z.max 0 (monthlyMessageLimit s - messagesUsed s)).
Proof.
  intros Hread Hu Hs.
  unfold checkUsageQuota, readLedger, Prisma.findUserWithSubscription.
  rewrite Hread, Hu, Hs. reflexivity.
Qed.

(** X6. [resetMonthlyUsage] sets the consumed count of every subscription to
    0 and changes nothing else: limits, users, rooms, memberships and
    messages stay.  Afterwards the quota check of a user with an account and
    a subscription reports the whole limit as remaining, and lets the user
    through exactly when the limit is positive.  Resetting twice is
    resetting once. *)
Theorem resetMonthlyUsage_restores_allowance (env : Env) (db : Db) :
  ledgerReadable env = true ->
  (forall userId u s,
      users db !! userId = Some u -> subscriptions db !! userId = Some s ->
      checkUsageQuota env (resetMonthlyUsage db) userId
      = mkQuota (0 <? monthlyMessageLimit s) (Z.max 0 (monthlyMessageLimit s)))
  /\ (forall userId,
        subscriptions (resetMonthlyUsage db) !! userId
        = (fun s => mkSubscription (monthlyMessageLimit s) 0)
            <$> subscriptions db !! userId)
  /\ users (resetMonthlyUsage db) = users db
  /\ chatRooms (resetMonthlyUsage db) = chatRooms db
  /\ chatRoomMembers (resetMonthlyUsage db) = chatRoomMembers db
  /\ messages (resetMonthlyUsage db) = messages db
  /\ resetMonthlyUsage (resetMonthlyUsage db) = resetMonthlyUsage db.
Proof.
  intros Hread.
  assert (forall userId,
             subscriptions (resetMonthlyUsage db) !! userId
             = (fun s => mkSubscription (monthlyMessageLimit s) 0)
                 <$> subscriptions db !! userId) as Hsub
      by (intros userId; apply lookup_fmap).
  split; [| split; [exact Hsub | repeat split]].
  - intros userId u s Hu Hs.
    rewrite (quota_of_rows env _ userId u (mkSubscription (monthlyMessageLimit s) 0) Hread).
    + cbn [monthlyMessageLimit messagesUsed]. rewrite Z.sub_0_r. reflexivity.
    + exact Hu.
    + rewrite Hsub, Hs. reflexivity.
  - unfold resetMonthlyUsage. cbn [users subscriptions chatRooms chatRoomMembers messages].
    f_equal. rewrite <- map_fmap_compose. apply map_fmap_ext. intros k s _. reflexivity.
Qed.

Lemma resetMonthlyUsage_restores_allowance_witness :
  checkUsageQuota Fixtures.echo (resetMonthlyUsage Fixtures.db0) "bob" = mkQuota true 50.
Proof.
  destruct (resetMonthlyUsage_restores_allowance Fixtures.echo Fixtures.db0 eq_refl)
    as [Hq _].
  exact (Hq "bob" (mkUser 50) (mkSubscription 50 50) eq_refl eq_refl).
Defined.

(** X7. The admin reset of one user sets that user's consumed count to 0 and
    leaves every other subscription alone.  For a user with an account and a
    positive limit the quota check then passes with the whole limit, so an
    ai-chat request that passes the room checks, on which the provider
    answers with a text the store takes, succeeds and reports the limit
    minus one, as long as the user's lifetime counter is below the top of its
    column.  Without a subscription row the update throws and the store is
    unchanged. *)
Theorem admin_reset_reopens_quota (env : Env) (st : Tables.Store) (actor : Auth.ReqUser)
    (userId : string) :
  (subscriptions (Tables.core st) !! userId = None ->
   Admin.postResetUsage st actor userId = (st, Tables.Uncaught))
  /\ (forall u s,
        ledgerReadable env = true ->
        users (Tables.core st) !! userId = Some u ->
        subscriptions (Tables.core st) !! userId = Some s ->
        0 < monthlyMessageLimit s ->
        let out := Admin.postResetUsage st actor userId in
        snd out = Tables.Success "User usage reset successfully"
        /\ checkUsageQuota env (Tables.core (fst out)) userId
           = mkQuota true (monthlyMessageLimit s)
        /\ (forall other, other <> userId ->
              subscriptions (Tables.core (fst out)) !! other
              = subscriptions (Tables.core st) !! other)
        /\ (forall chatRoomId message context model r,
              Js.truthy message = true ->
              memberOfAiRoom (Tables.core st) userId chatRoomId ->
              generateForRoute env message context model = Some r ->
              Prisma.validMessage (aiMessageRow chatRoomId r) = true ->
              messageCount u < Prisma.maxInt ->
              exists db' body,
                aiChat env (Tables.core (fst out)) userId chatRoomId message context model
                = (db', Ok body)
                /\ usage_remaining body = monthlyMessageLimit s - 1)).
Proof.
  split.
  - intros Hnone. unfold Admin.postResetUsage, resetMessagesUsed. rewrite Hnone.
    reflexivity.
  - intros u s Hread Hu Hs Hpos out. subst out.
    unfold Admin.postResetUsage, resetMessagesUsed. rewrite Hs. cbn [fst snd Tables.core].
    set (db' := mkDb _ _ _ _ _).
    assert (checkUsageQuota env db' userId = mkQuota true (monthlyMessageLimit s)) as Hq.
    { rewrite (quota_of_rows env db' userId u (mkSubscription (monthlyMessageLimit s) 0) Hread).
      - cbn [monthlyMessageLimit messagesUsed]. rewrite Z.sub_0_r. f_equal.
        + apply Z.ltb_lt. exact Hpos.
        + lia.
      - exact Hu.
      - apply lookup_insert_eq. }
    split; [reflexivity | split; [exact Hq | split]].
    + intros other Hne. subst db'. cbn [subscriptions].
      apply lookup_insert_ne. congruence.
    + intros chatRoomId message context model r Hmsg Hroom Hgen Hvalid Hcount.
      assert (memberOfAiRoom db' userId chatRoomId) as Hroom'.
      { destruct Hroom as (m & room & H1 & H2 & H3). exists m, room.
        repeat split; assumption. }
      rewrite aiChat_after_room_checks by assumption. cbv zeta.
      rewrite Hq, Hgen. cbn [negb canUse remaining].
      assert (Prisma.createMessage db' (aiMessageRow chatRoomId r)
              = Some (withMessage db' (aiMessageRow chatRoomId r))) as ->.
      { apply createMessage_Some. split; [exact Hvalid | split; [| reflexivity]].
        apply aiMessageRow_references, (memberOfAiRoom_room db' userId), Hroom'. }
      rewrite (incrementUsage_ok _ userId u (mkSubscription (monthlyMessageLimit s) 0)).
      * eexists _, _. split; reflexivity.
      * exact Hu.
      * subst db'. cbn [withMessage subscriptions]. apply lookup_insert_eq.
      * exact Hcount.
      * unfold Prisma.maxInt. cbn [messagesUsed]. lia.
Qed.

Lemma admin_reset_reopens_quota_witness :
  let admin := Auth.mkReqUser "alice" "alice@example.org" Tables.ADMIN in
  checkUsageQuota Fixtures.echo
    (Tables.core (fst (Admin.postResetUsage Fixtures2.store0 admin "bob"))) "bob"
  = mkQuota true 50
  /\ Admin.postResetUsage Fixtures2.store0 admin "dave"
     = (Fixtures2.store0, Tables.Uncaught).
Proof.
  intros admin.
  destruct (admin_reset_reopens_quota Fixtures.echo Fixtures2.store0 admin "bob")
    as [_ Hbob].
  destruct (admin_reset_reopens_quota Fixtures.echo Fixtures2.store0 admin "dave")
    as [Hdave _].
  split.
  - destruct (Hbob (mkUser 50) (mkSubscription 50 50) eq_refl eq_refl eq_refl)
      as (_ & Hq & _); [simpl; lia | exact Hq].
  - apply Hdave. reflexivity.
Defined.

(** X8. The [remaining] field of [GET /stats] is the limit minus the
    consumed count, not clamped: it is negative when more was consumed than
    the limit, and 0 without a subscription.  The [remaining] of
    [checkUsageQuota] is that value clamped at 0, so the two agree exactly
    when the consumed count does not exceed the limit. *)
Theorem stats_remaining_is_unclamped (env : Env) (db : Db) (userId : string) (u : User) :
  ledgerReadable env = true ->
  users db !! userId = Some u ->
  remaining (checkUsageQuota env db userId) = Z.max 0 (statsRemaining db userId)
  /\ (remaining (checkUsageQuota env db userId) = statsRemaining db userId <->
      0 <= statsRemaining db userId)
  /\ (forall s, subscriptions db !! userId = Some s ->
        statsRemaining db userId = monthlyMessageLimit s - messagesUsed s)
  /\ (subscriptions db !! userId = None -> statsRemaining db userId = 0).
Proof.
  intros Hread Hu.
  assert (remaining (checkUsageQuota env db userId) = Z.max 0 (statsRemaining db userId))
    as Hmax.
  { unfold checkUsageQuota, readLedger, Prisma.findUserWithSubscription, statsRemaining.
    rewrite Hread, Hu. destruct (subscriptions db !! userId) as [s |]; reflexivity. }
  split; [exact Hmax | split; [| split]].
  - rewrite Hmax. lia.
  - intros s Hs. unfold statsRemaining. rewrite Hs. reflexivity.
  - intros Hs. unfold statsRemaining. rewrite Hs. reflexivity.
Qed.

Lemma stats_remaining_is_unclamped_witness :
  let db := fst (Interleaving.run Fixtures.echo
                   [0; 1; 0; 1; 0; 1; 0; 1; 0; 1; 0; 1; 0; 1]%nat
                   (Fixtures.db0,
                    [Interleaving.start "alice" Fixtures.hello;
                     Interleaving.start "alice"
                       (mkCall 2 "r1" "hello" None "gemini-pro")])) in
  statsRemaining db "alice" = -1
  /\ remaining (checkUsageQuota Fixtures.echo db "alice") = 0.
Proof.
  intros db.
  destruct (stats_remaining_is_unclamped Fixtures.echo db "alice" (mkUser 2) eq_refl eq_refl)
    as (Hmax & _ & Hstats & _).
  split.
  - apply (Hstats (mkSubscription 1 2)). reflexivity.
  - rewrite Hmax. rewrite (Hstats (mkSubscription 1 2) eq_refl). reflexivity.
Defined.

End LedgerFacts.

(** ** Authentication and the admin routes *)

Section AuthFacts.
Import Auth.

Variable verify : string -> option string.

Lemma findActive_inv (accounts : gmap string Tables.Account) (userId : string)
    (u : ReqUser) :
  findActive accounts userId = Some u ->
  exists a, accounts !! userId = Some a /\ Tables.acc_status a = Tables.ACTIVE /\
            u = mkReqUser userId (Tables.acc_email a) (Tables.acc_role a).
Proof.
  unfold findActive. destruct (accounts !! userId) as [a |]; [| discriminate].
  destruct (bool_decide (Tables.acc_status a = Tables.ACTIVE)) eqn:Hs; [| discriminate].
  apply bool_decide_eq_true in Hs. intros H. injection H as <-. eauto.
Qed.

Lemma authenticateToken_Next (accounts : gmap string Tables.Account)
    (authorization : option string) (u : ReqUser) :
  authenticateToken verify accounts authorization = Next u ->
  exists token a,
    bearerToken authorization = Some token /\ verify token = Some (ru_id u) /\
    accounts !! ru_id u = Some a /\ Tables.acc_status a = Tables.ACTIVE /\
    Tables.acc_role a = ru_role u.
Proof.
  unfold authenticateToken.
  destruct (bearerToken authorization) as [token |]; [| discriminate].
  destruct (verify token) as [userId |] eqn:Hv; [| discriminate].
  destruct (findActive accounts userId) as [u' |] eqn:Hf; [| discriminate].
  intros H. injection H as ->.
  apply findActive_inv in Hf as (a & Ha & Hs & ->). cbn [ru_id ru_role].
  exists token, a. repeat split; assumption.
Qed.

Lemma requireAdmin_Next (u actor : ReqUser) :
  requireAdmin (Some u) = Next actor -> actor = u /\ ru_role u = Tables.ADMIN.
Proof.
  unfold requireAdmin, requireRole.
  destruct (bool_decide (ru_role u ∈ [Tables.ADMIN])) eqn:Hin; [| discriminate].
  apply bool_decide_eq_true, list_elem_of_singleton in Hin.
  intros H. injection H as <-. split; [reflexivity | exact Hin].
Qed.

Lemma request_keeps_an_admin (st : Tables.Store) (authorization : option string)
    (c : Admin.Call) :
  (exists userId a, Tables.accounts st !! userId = Some a /\
                    Tables.acc_role a = Tables.ADMIN) ->
  (exists userId a,
      Tables.accounts (fst (Admin.request verify st authorization c)) !! userId = Some a /\
      Tables.acc_role a = Tables.ADMIN)
  /\ dom (Tables.accounts (fst (Admin.request verify st authorization c)))
     = dom (Tables.accounts st).
Proof.
  intros Hadmin. unfold Admin.request.
  destruct (authenticateToken verify (Tables.accounts st) authorization) as [u | s m] eqn:Hauth;
    [| split; [exact Hadmin | reflexivity]].
  destruct (requireAdmin (Some u)) as [actor | s m] eqn:Hreq;
    [| split; [exact Hadmin | reflexivity]].
  apply requireAdmin_Next in Hreq as [-> Hrole].
  apply authenticateToken_Next in Hauth as (_ & a & _ & _ & Ha & _ & Har).
  rewrite <- Har in Hrole.
  destruct c as [target role | target status | target]; cbn [Admin.route].
  - unfold Admin.putUserRole.
    destruct (Admin.parseRole role) as [r |] eqn:Hparse;
      [| split; [exact Hadmin | reflexivity]].
    destruct (bool_decide (target = ru_id u) && negb (bool_decide (role = "ADMIN")))
      eqn:Hguard; [split; [exact Hadmin | reflexivity] |].
    destruct (Tables.accounts st !! target) as [t |] eqn:Ht;
      [| split; [exact Hadmin | reflexivity]].
    cbn [fst Tables.accounts]. split.
    + destruct (decide (target = ru_id u)) as [-> | Hne].
      * exists (ru_id u), (Tables.mkAccount (Tables.acc_email t) r (Tables.acc_status t)).
        split; [apply lookup_insert_eq |]. cbn [Tables.acc_role].
        rewrite bool_decide_eq_true_2 in Hguard by reflexivity.
        cbn [andb] in Hguard. apply negb_false_iff, bool_decide_eq_true in Hguard.
        subst role. vm_compute in Hparse. congruence.
      * exists (ru_id u), a. split; [| exact Hrole].
        rewrite lookup_insert_ne by exact Hne. exact Ha.
    + apply dom_insert_lookup_L. eauto.
  - unfold Admin.putUserStatus.
    destruct (Admin.parseStatus status) as [s |];
      [| split; [exact Hadmin | reflexivity]].
    destruct (Tables.accounts st !! target) as [t |] eqn:Ht;
      [| split; [exact Hadmin | reflexivity]].
    cbn [fst Tables.accounts]. split.
    + destruct Hadmin as (userId & a0 & Ha0 & Hr0).
      destruct (decide (target = userId)) as [-> | Hne].
      * eexists userId, _. split; [apply lookup_insert_eq |].
        cbn [Tables.acc_role]. congruence.
      * exists userId, a0. split; [| exact Hr0].
        rewrite lookup_insert_ne by exact Hne. exact Ha0.
    + apply dom_insert_lookup_L. eauto.
  - unfold Admin.postResetUsage.
    destruct (Ledger.resetMessagesUsed (Tables.core st) target);
      split; try exact Hadmin; reflexivity.
Qed.

(** X9. The admin router never leaves the store without an administrator:
    after any sequence of requests to the role, status and reset-usage
    routes, with whatever credentials, an account with role [ADMIN] exists
    if one existed before, and the set of accounts is the same.  (A role
    change goes through only for a caller who is an active [ADMIN], and such
    a caller cannot give themselves another role.) *)
Theorem admin_router_keeps_an_admin (rs : list (option string * Admin.Call)) :
  forall st : Tables.Store,
    (exists userId a, Tables.accounts st !! userId = Some a /\
                      Tables.acc_role a = Tables.ADMIN) ->
    (exists userId a,
        Tables.accounts (Admin.requests verify st rs) !! userId = Some a /\
        Tables.acc_role a = Tables.ADMIN)
    /\ dom (Tables.accounts (Admin.requests verify st rs)) = dom (Tables.accounts st).
Proof.
  induction rs as [| [authorization c] rs IH]; intros st Hadmin.
  - split; [exact Hadmin | reflexivity].
  - cbn [Admin.requests].
    destruct (request_keeps_an_admin st authorization c Hadmin) as [Hstep Hdom].
    destruct (IH _ Hstep) as [Hrest Hdom'].
    split; [exact Hrest | congruence].
Qed.

(** X10. The status route has no guard for the caller's own account: an
    administrator who sets their own status to anything but [ACTIVE] gets a
    success, and from then on the same credentials are refused with 401 by
    [authenticateToken], on every route. *)
Theorem self_suspension_locks_out (st : Tables.Store) (authorization : option string)
    (u : ReqUser) (status : string) (s : Tables.UserStatus) :
  authenticateToken verify (Tables.accounts st) authorization = Next u ->
  ru_role u = Tables.ADMIN ->
  Admin.parseStatus status = Some s ->
  s <> Tables.ACTIVE ->
  let out := Admin.request verify st authorization (Admin.PutStatus (ru_id u) status) in
  snd out = Tables.Success "User status updated successfully"
  /\ authenticateToken verify (Tables.accounts (fst out)) authorization
     = Reject 401 "Invalid or expired token"
  /\ (forall c, Admin.request verify (fst out) authorization c
                = (fst out, Tables.Failure 401 "Invalid or expired token")).
Proof.
  intros Hauth Hrole Hparse Hs out.
  pose proof (authenticateToken_Next _ _ _ Hauth) as (token & a & Htok & Hv & Ha & _ & _).
  assert (out = (Tables.mkStore (Tables.core st)
                   (<[ru_id u := Tables.mkAccount (Tables.acc_email a) (Tables.acc_role a) s]>
                      (Tables.accounts st))
                   (Tables.access st),
                 Tables.Success "User status updated successfully")) as Hout.
  { subst out. unfold Admin.request. rewrite Hauth.
    unfold requireAdmin, requireRole. rewrite Hrole.
    rewrite bool_decide_eq_true_2 by (apply list_elem_of_singleton; reflexivity).
    cbn [Admin.route]. unfold Admin.putUserStatus. rewrite Hparse, Ha. reflexivity. }
  rewrite Hout. cbn [fst snd Tables.accounts].
  assert (authenticateToken verify
            (<[ru_id u := Tables.mkAccount (Tables.acc_email a) (Tables.acc_role a) s]>
               (Tables.accounts st)) authorization
          = Reject 401 "Invalid or expired token") as Hno.
  { unfold authenticateToken. rewrite Htok, Hv. unfold findActive.
    rewrite lookup_insert_eq. cbn [Tables.acc_status].
    rewrite bool_decide_eq_false_2 by exact Hs. reflexivity. }
  split; [reflexivity | split; [exact Hno |]].
  intros c. unfold Admin.request. cbn [Tables.accounts]. rewrite Hno. reflexivity.
Qed.

End AuthFacts.

Lemma self_suspension_locks_out_witness :
  let out := Admin.request Fixtures2.verify0 Fixtures2.store0 (Some "Bearer tok-alice")
               (Admin.PutStatus "alice" "SUSPENDED") in
  snd out = Tables.Success "User status updated successfully"
  /\ Auth.authenticateToken Fixtures2.verify0 (Tables.accounts (fst out))
       (Some "Bearer tok-alice")
     = Auth.Reject 401 "Invalid or expired token".
Proof.
  intros out.
  destruct (self_suspension_locks_out Fixtures2.verify0 Fixtures2.store0
              (Some "Bearer tok-alice")
              (Auth.mkReqUser "alice" "alice@example.org" Tables.ADMIN)
              "SUSPENDED" Tables.SUSPENDED)
    as (Hok & Hno & _); [reflexivity | reflexivity | reflexivity | discriminate |].
  split; [exact Hok | exact Hno].
Defined.

Lemma admin_router_keeps_an_admin_witness :
  exists userId a,
    Tables.accounts
      (Admin.requests Fixtures2.verify0 Fixtures2.store0
         [(Some "Bearer tok-alice", Admin.PutRole "alice" "USER");
          (Some "Bearer tok-alice", Admin.PutRole "bob" "ADMIN");
          (Some "Bearer tok-bob", Admin.PutRole "alice" "USER")]) !! userId = Some a
    /\ Tables.acc_role a = Tables.ADMIN.
Proof.
  apply (admin_router_keeps_an_admin Fixtures2.verify0).
  exists "alice", (Tables.mkAccount "alice@example.org" Tables.ADMIN Tables.ACTIVE).
  split; reflexivity.
Defined.

Section TokenFacts.
Import Auth.

Variable verify : string -> option string.

Lemma bearerToken_of_header (scheme token : string) :
  Js.includes scheme " " = false ->
  Js.includes token " " = false ->
  Js.truthy token = true ->
  bearerToken (Some (scheme +:+ " " +:+ token)) = Some token.
Proof.
  intros Hscheme Htoken Htruthy. unfold bearerToken.
  change (" " +:+ token) with (String " " token).
  rewrite (split_head " " token scheme Hscheme), (split_none " " token Htoken).
  cbn [lookup list_lookup]. rewrite Htruthy.
  destruct scheme; reflexivity.
Qed.

(** X11. The HTTP middleware and the socket middleware admit the same
    identities.  For a header made of a scheme word, one space and a token
    (neither containing a space), [authenticateToken] lets the request
    through as user [u] exactly when the socket handshake with that token is
    accepted as [u]; every refusal of the handshake is a 401 of the
    middleware.  The scheme word is not looked at. *)
Theorem transports_admit_the_same_users (accounts : gmap string Tables.Account)
    (scheme token : string) :
  Js.includes scheme " " = false ->
  Js.includes token " " = false ->
  Js.truthy token = true ->
  authenticateToken verify accounts (Some (scheme +:+ " " +:+ token))
  = match socketAuth verify accounts (Some token) with
    | inl u => Next u
    | inr _ => Reject 401 "Invalid or expired token"
    end.
Proof.
  intros Hscheme Htoken Htruthy.
  unfold authenticateToken, socketAuth.
  rewrite (bearerToken_of_header scheme token Hscheme Htoken Htruthy), Htruthy.
  destruct (verify token) as [userId |]; [| reflexivity].
  destruct (findActive accounts userId); reflexivity.
Qed.

(** X12. The limiter's [max] grants the premium maximum to every request
    whose [Authorization] header carries a second word, before and whatever
    the verification of that word says: the requests that get the plain
    maximum are exactly those that [authenticateToken] refuses with
    [Access token required]. *)
Theorem premium_limit_needs_no_valid_token (cfg : RateLimiter.Config)
    (accounts : gmap string Tables.Account) (req : RateLimiter.Request) :
  (authenticateToken verify accounts (RateLimiter.authorization req)
   = Reject 401 "Access token required" <->
   RateLimiter.hasToken req = false)
  /\ (RateLimiter.hasToken req = false ->
      RateLimiter.max cfg req = default 100 (RateLimiter.RATE_LIMIT_MAX_REQUESTS cfg))
  /\ (RateLimiter.hasToken req = true ->
      RateLimiter.max cfg req
      = default 1000 (RateLimiter.RATE_LIMIT_PREMIUM_MAX_REQUESTS cfg)).
Proof.
  assert (RateLimiter.hasToken req
          = bool_decide (is_Some (bearerToken (RateLimiter.authorization req)))) as Hhas.
  { unfold RateLimiter.hasToken, bearerToken.
    destruct (RateLimiter.authorization req) as [h |]; [| reflexivity].
    destruct (Js.truthy h); [| reflexivity]. cbn [andb].
    destruct (RateLimiter.split " " h !! 1%nat) as [t |]; [| reflexivity].
    destruct (Js.truthy t); reflexivity. }
  split; [| split].
  - rewrite Hhas. unfold authenticateToken.
    destruct (bearerToken (RateLimiter.authorization req)) as [token |].
    + rewrite bool_decide_eq_true_2 by eauto.
      destruct (verify token) as [userId |]; [| split; discriminate].
      destruct (findActive accounts userId); split; discriminate.
    + rewrite bool_decide_eq_false_2 by (intros [x Hx]; discriminate).
      split; reflexivity.
  - intros H. unfold RateLimiter.max. rewrite H. reflexivity.
  - intros H. unfold RateLimiter.max. rewrite H. reflexivity.
Qed.

End TokenFacts.

Lemma transports_admit_the_same_users_witness :
  Auth.authenticateToken Fixtures2.verify0 Fixtures2.accounts0 (Some "Basic tok-bob")
  = Auth.Next (Auth.mkReqUser "bob" "bob@example.org" Tables.USER).
Proof.
  exact (transports_admit_the_same_users Fixtures2.verify0 Fixtures2.accounts0
           "Basic" "tok-bob" eq_refl eq_refl eq_refl).
Defined.

Lemma premium_limit_needs_no_valid_token_witness :
  RateLimiter.max (RateLimiter.mkConfig None None None)
    (RateLimiter.mkRequest "10.0.0.1" (Some "Bearer garbage")) = 1000
  /\ Auth.authenticateToken Fixtures2.verify0 Fixtures2.accounts0 (Some "Bearer garbage")
     = Auth.Reject 401 "Invalid or expired token".
Proof.
  split; [| reflexivity].
  apply (premium_limit_needs_no_valid_token Fixtures2.verify0
           (RateLimiter.mkConfig None None None) Fixtures2.accounts0
           (RateLimiter.mkRequest "10.0.0.1" (Some "Bearer garbage"))).
  reflexivity.
Defined.

(** ** Rooms over HTTP *)

Section RoomFacts.
Import Rooms.

Lemma createMember_Some (db db' : Db) (m : ChatRoomMember) :
  createMember db m = Some db' ->
  db' = mkDb (users db) (subscriptions db) (chatRooms db)
          (chatRoomMembers db ++ [m]) (messages db)
  /\ (mem_id m ∉ mem_id <$> chatRoomMembers db)
  /\ ((mem_userId m, mem_chatRoomId m)
      ∉ (fun x => (mem_userId x, mem_chatRoomId x)) <$> chatRoomMembers db).
Proof.
  unfold createMember.
  destruct (bool_decide (mem_id m ∈ _)) eqn:Hid; [discriminate |].
  destruct (bool_decide ((mem_userId m, mem_chatRoomId m) ∈ _)) eqn:Hpair; [discriminate |].
  apply bool_decide_eq_false in Hid, Hpair.
  intros H. injection H as <-. repeat split; assumption.
Qed.

Lemma find_app_none {A} (f : A -> bool) (l k : list A) :
  find f l = None -> find f (l ++ k) = find f k.
Proof.
  induction l as [| x l IH]; [reflexivity |].
  simpl. destruct (f x); [discriminate | exact IH].
Qed.

Lemma filter_keeps_all {A} (P : A -> Prop) `{!forall x, Decision (P x)} (l : list A) :
  Forall P l -> filter P l = l.
Proof.
  induction 1 as [| x l Hx _ IH]; [reflexivity |].
  rewrite filter_cons_True by exact Hx. rewrite IH. reflexivity.
Qed.

Lemma findFirstMember_absent (db : Db) (userId chatRoomId : string) :
  (userId, chatRoomId) ∉ (fun x => (mem_userId x, mem_chatRoomId x)) <$> chatRoomMembers db ->
  Prisma.findFirstMember db userId chatRoomId = None.
Proof.
  intros Hno.
  destruct (Prisma.findFirstMember db userId chatRoomId) as [m |] eqn:Hfind; [| reflexivity].
  apply findFirstMember_elem in Hfind as (Hin & <- & <-).
  exfalso. apply Hno. apply list_elem_of_fmap. exists m. split; [reflexivity | exact Hin].
Qed.

Lemma findFirstMember_present (db : Db) (userId chatRoomId : string) (m : ChatRoomMember) :
  Prisma.findFirstMember db userId chatRoomId = Some m ->
  (userId, chatRoomId) ∈ (fun x => (mem_userId x, mem_chatRoomId x)) <$> chatRoomMembers db.
Proof.
  intros Hfind. apply findFirstMember_elem in Hfind as (Hin & <- & <-).
  apply list_elem_of_fmap. exists m. split; [reflexivity | exact Hin].
Qed.

Lemma memberCount_snoc (db : Db) (m : ChatRoomMember) (chatRoomId : string) :
  memberCount (mkDb (users db) (subscriptions db) (chatRooms db)
                 (chatRoomMembers db ++ [m]) (messages db)) chatRoomId
  = memberCount db chatRoomId
    + (if bool_decide (mem_chatRoomId m = chatRoomId) then 1 else 0).
Proof.
  unfold memberCount. cbn [chatRoomMembers].
  rewrite filter_app, length_app.
  destruct (bool_decide (mem_chatRoomId m = chatRoomId)) eqn:Hr.
  - apply bool_decide_eq_true in Hr.
    rewrite filter_cons_True by exact Hr. simpl. lia.
  - apply bool_decide_eq_false in Hr.
    rewrite filter_cons_False by exact Hr. simpl. lia.
Qed.

Lemma wellFormed_snoc (db : Db) (m : ChatRoomMember) :
  wellFormedMembers db ->
  mem_id m ∉ mem_id <$> chatRoomMembers db ->
  (mem_userId m, mem_chatRoomId m)
  ∉ (fun x => (mem_userId x, mem_chatRoomId x)) <$> chatRoomMembers db ->
  wellFormedMembers (mkDb (users db) (subscriptions db) (chatRooms db)
                       (chatRoomMembers db ++ [m]) (messages db)).
Proof.
  intros [Hids Hpairs] Hid Hpair. unfold wellFormedMembers. cbn [chatRoomMembers].
  rewrite !fmap_app. split; apply NoDup_app; (split; [assumption |]); split.
  - intros x Hx Hx'. apply list_elem_of_singleton in Hx'. subst x. contradiction.
  - apply NoDup_singleton.
  - intros x Hx Hx'. apply list_elem_of_singleton in Hx'. subst x. contradiction.
  - apply NoDup_singleton.
Qed.

(** Closes the cases in which [join] answers a failure. *)
Local Ltac refused Hwf :=
  cbn [fst snd];
  split; [exact Hwf | split; [auto | split; [intros ? ?; congruence | reflexivity]]].

(** X13. [POST /:chatRoomId/join] keeps the membership table within the
    schema's constraints and within the room's capacity: no identifier and
    no (user, room) pair is ever duplicated, and a room that held at most
    [maxMembers] rows still does.  A success means that the room is not
    private, had room left and did not hold the caller, and adds exactly one
    [MEMBER] row for the caller; every other answer leaves the store as it
    was. *)
Theorem join_keeps_schema_and_capacity (st : Tables.Store)
    (userId newMemberId chatRoomId : string) :
  wellFormedMembers (Tables.core st) ->
  let out := postJoin st userId newMemberId chatRoomId in
  wellFormedMembers (Tables.core (fst out))
  /\ (forall a, Tables.access st !! chatRoomId = Some a ->
        memberCount (Tables.core st) chatRoomId <= Tables.maxMembers a ->
        memberCount (Tables.core (fst out)) chatRoomId <= Tables.maxMembers a)
  /\ (forall body, snd out = Tables.Success body ->
        (exists a, Tables.access st !! chatRoomId = Some a /\
                   Tables.room_type a <> Tables.PRIVATE /\
                   memberCount (Tables.core st) chatRoomId < Tables.maxMembers a)
        /\ Prisma.findFirstMember (Tables.core st) userId chatRoomId = None
        /\ fst out
           = Tables.mkStore
               (mkDb (users (Tables.core st)) (subscriptions (Tables.core st))
                  (chatRooms (Tables.core st))
                  (chatRoomMembers (Tables.core st)
                     ++ [mkMember newMemberId userId chatRoomId MEMBER])
                  (messages (Tables.core st)))
               (Tables.accounts st) (Tables.access st))
  /\ ((forall body, snd out <> Tables.Success body) -> fst out = st).
Proof.
  intros Hwf out. subst out. unfold postJoin.
  destruct (chatRooms (Tables.core st) !! chatRoomId) as [room |];
    [| refused Hwf].
  destruct (Tables.access st !! chatRoomId) as [a |] eqn:Ha;
    [| refused Hwf].
  destruct (bool_decide (Tables.room_type a = Tables.PRIVATE)) eqn:Hpriv;
    [refused Hwf |].
  destruct (Tables.maxMembers a <=? memberCount (Tables.core st) chatRoomId) eqn:Hfull;
    [refused Hwf |].
  destruct (Prisma.findFirstMember (Tables.core st) userId chatRoomId) as [m |] eqn:Hfind;
    [refused Hwf |].
  destruct (createMember (Tables.core st) (mkMember newMemberId userId chatRoomId MEMBER))
    as [db' |] eqn:Hcreate;
    [| refused Hwf].
  apply createMember_Some in Hcreate as (-> & Hid & Hpair).
  apply bool_decide_eq_false in Hpriv. apply Z.leb_gt in Hfull.
  cbn [fst snd Tables.core]. split; [| split; [| split]].
  - apply wellFormed_snoc; assumption.
  - intros a' Ha' _. injection Ha' as <-.
    rewrite memberCount_snoc. cbn [mem_chatRoomId].
    rewrite bool_decide_eq_true_2 by reflexivity. lia.
  - intros body _. split; [| split; reflexivity].
    exists a. repeat split; assumption.
  - intros Hnot. exfalso. exact (Hnot _ eq_refl).
Qed.

Lemma join_keeps_schema_and_capacity_witness :
  let out := postJoin Fixtures2.store0 "carol" "m5" "r1" in
  wellFormedMembers (Tables.core (fst out))
  /\ memberCount (Tables.core (fst out)) "r1" <= 4.
Proof.
  intros out.
  destruct (join_keeps_schema_and_capacity Fixtures2.store0 "carol" "m5" "r1" wellFormed_db0)
    as (Hwf & Hcap & _).
  split; [exact Hwf |].
  apply (Hcap (Tables.mkAccess Tables.PUBLIC 4)); [reflexivity |].
  vm_compute. discriminate.
Defined.

(** X14. Joining a room and leaving it again is a round trip: after a
    successful [join], the caller's [leave] succeeds and the store is
    exactly the one before the join. *)
Theorem join_then_leave_round_trip (st st' : Tables.Store)
    (userId newMemberId chatRoomId body : string) :
  postJoin st userId newMemberId chatRoomId = (st', Tables.Success body) ->
  postLeave st' userId chatRoomId = (st, Ok "Successfully left chat room").
Proof.
  intros Hjoin. unfold postJoin in Hjoin.
  destruct (chatRooms (Tables.core st) !! chatRoomId) as [room |]; [| discriminate].
  destruct (Tables.access st !! chatRoomId) as [a |]; [| discriminate].
  destruct (bool_decide (Tables.room_type a = Tables.PRIVATE)); [discriminate |].
  destruct (Tables.maxMembers a <=? memberCount (Tables.core st) chatRoomId);
    [discriminate |].
  destruct (Prisma.findFirstMember (Tables.core st) userId chatRoomId) as [m |] eqn:Hfind;
    [discriminate |].
  destruct (createMember (Tables.core st) (mkMember newMemberId userId chatRoomId MEMBER))
    as [db' |] eqn:Hcreate; [| discriminate].
  injection Hjoin as <- _.
  apply createMember_Some in Hcreate as (-> & Hid & _). cbn [mem_id] in Hid.
  unfold postLeave, leave, Prisma.findFirstMember. cbn [Tables.core chatRoomMembers].
  unfold Prisma.findFirstMember in Hfind. rewrite (find_app_none _ _ _ Hfind).
  cbn [find]. unfold Prisma.member_matches at 1. cbn [mem_userId mem_chatRoomId].
  rewrite !bool_decide_eq_true_2 by reflexivity. cbn [andb mem_role mem_id].
  rewrite bool_decide_eq_false_2 by discriminate.
  unfold Prisma.deleteMember. cbn [users subscriptions chatRooms chatRoomMembers messages].
  rewrite filter_app, filter_cons_False, filter_nil, app_nil_r
    by (cbn [mem_id]; intros H; apply H; reflexivity).
  assert (filter (fun m0 => mem_id m0 <> newMemberId) (chatRoomMembers (Tables.core st))
          = chatRoomMembers (Tables.core st)) as ->.
  { apply filter_keeps_all, Forall_forall. intros x Hx Heq. apply Hid.
    rewrite <- Heq. apply list_elem_of_fmap. exists x. split; [reflexivity | exact Hx]. }
  destruct st as [[us subs rooms members msgs] accs acc]. reflexivity.
Qed.

Lemma join_then_leave_round_trip_witness :
  postLeave (fst (postJoin Fixtures2.store0 "carol" "m5" "r1")) "carol" "r1"
  = (Fixtures2.store0, Ok "Successfully left chat room").
Proof.
  apply (join_then_leave_round_trip Fixtures2.store0 _ "carol" "m5" "r1"
           "Successfully joined chat room").
  reflexivity.
Defined.

End RoomFacts.

Section MembershipFacts.
Import Rooms.

(** X15. After a successful [leave] the caller is no longer a member, on a
    table that satisfies the schema's constraints: the membership lookup
    finds nothing, so the ai-chat route answers 404, [send_message] on the
    socket is refused without writing anything, and a [join_room] is
    refused; a socket that was in the room is still in it, since the route
    does not touch the registry. *)
Theorem leave_ends_membership (env : Env) (db db' : Db) (userId chatRoomId body : string) :
  wellFormedMembers db ->
  leave db userId chatRoomId = (db', Ok body) ->
  Prisma.findFirstMember db' userId chatRoomId = None
  /\ (forall message context model,
        Js.truthy message = true ->
        aiChat env db' userId chatRoomId message context model
        = (db', ApiError "Chat room not found or access denied" 404))
  /\ (forall emitted content type,
        send_message env (mkState db' emitted) userId chatRoomId content type
        = mkState db'
            (emitted ++ [ToSocket "error"
                           (ErrorMessage "Not authorized to send messages to this room")]))
  /\ (forall hub s,
        Auth.ru_id (Registry.sock_user s) = userId ->
        fst (Registry.join_room db' hub s chatRoomId) = hub).
Proof.
  intros Hwf Hleave.
  assert (Prisma.findFirstMember db' userId chatRoomId = None) as Hgone.
  { unfold leave in Hleave.
    destruct (Prisma.findFirstMember db userId chatRoomId) as [m |] eqn:Hfind;
      [| discriminate].
    destruct (bool_decide (mem_role m = OWNER)); [discriminate |].
    injection Hleave as <- _.
    destruct (Prisma.findFirstMember (Prisma.deleteMember db (mem_id m)) userId chatRoomId)
      as [m' |] eqn:Hfind'; [| reflexivity].
    exfalso.
    apply findFirstMember_elem in Hfind as (Hin & Hu & Hr).
    apply findFirstMember_elem in Hfind' as (Hin' & Hu' & Hr').
    cbn [Prisma.deleteMember chatRoomMembers] in Hin'.
    apply list_elem_of_filter in Hin' as [Hid Hin'].
    apply Hid. f_equal.
    destruct Hwf as [_ Hpairs].
    apply (NoDup_fmap_elem_inj _ _ _ _ Hpairs Hin' Hin). simpl. congruence. }
  split; [exact Hgone | split; [| split]].
  - intros message context model Hmsg. unfold aiChat. rewrite Hmsg, Hgone. reflexivity.
  - intros emitted content type. unfold send_message. cbn [st_db]. rewrite Hgone.
    reflexivity.
  - intros hub s Hs. unfold Registry.join_room. rewrite Hs, Hgone. reflexivity.
Qed.

Lemma leave_ends_membership_witness :
  Prisma.findFirstMember (fst (leave Fixtures.db0 "bob" "r1")) "bob" "r1" = None.
Proof.
  apply (leave_ends_membership Fixtures.echo Fixtures.db0 _ "bob" "r1"
           "Successfully left chat room" wellFormed_db0).
  reflexivity.
Defined.

(** X16. A room that [POST /] created has its creator as owner: the
    creator's membership row is the [OWNER] row just written, the creator
    passes the room checks of the ai-chat route at once (the assistant is on
    by default), and the creator's [leave] is refused.  The capacity is
    between 2 and 100, and the name has 1 to 100 characters in the count of
    the validator.  When no type was sent the room is [PRIVATE], and then
    every [join] request on it, by anyone, is refused with 403. *)
Theorem created_room_is_owned (st st' : Tables.Store)
    (userId newRoomId newMemberId name body : string)
    (description type : option string) (maxMembers : option Z) :
  postRoom st userId newRoomId newMemberId name description type maxMembers
  = (st', Tables.Success body) ->
  Prisma.findFirstMember (Tables.core st') userId newRoomId
  = Some (mkMember newMemberId userId newRoomId OWNER)
  /\ memberOfAiRoom (Tables.core st') userId newRoomId
  /\ leave (Tables.core st') userId newRoomId = (Tables.core st', ownerCannotLeave)
  /\ (exists a, Tables.access st' !! newRoomId = Some a /\
                2 <= Tables.maxMembers a <= 100 /\
                (type = None -> Tables.room_type a = Tables.PRIVATE))
  /\ (1 <= validatorLength name <= 100)%nat
  /\ (type = None ->
      forall other newId,
        postJoin st' other newId newRoomId
        = (st', Tables.Failure 403 "Cannot join private chat room")).
Proof.
  intros Hpost. unfold postRoom in Hpost.
  destruct (createChatRoomValid name description type maxMembers) eqn:Hvalid;
    [| discriminate]. cbn [negb] in Hpost.
  destruct (chatRooms (Tables.core st) !! newRoomId); [discriminate |].
  destruct (Tables.access st !! newRoomId); [discriminate |].
  destruct (Prisma.hasNul name || Prisma.hasNul (default "" description));
    [discriminate |].
  destruct (createMember _ (mkMember newMemberId userId newRoomId OWNER))
    as [db2 |] eqn:Hcreate; [| discriminate].
  injection Hpost as <- _.
  apply createMember_Some in Hcreate as (-> & _ & Hpair).
  cbn [mem_userId mem_chatRoomId chatRoomMembers] in Hpair.
  cbn [Tables.core Tables.access users subscriptions chatRooms chatRoomMembers messages].
  assert (Prisma.findFirstMember
            (mkDb (users (Tables.core st)) (subscriptions (Tables.core st))
               (<[newRoomId := mkChatRoom true "gemini-pro"]> (chatRooms (Tables.core st)))
               (chatRoomMembers (Tables.core st)
                  ++ [mkMember newMemberId userId newRoomId OWNER])
               (messages (Tables.core st))) userId newRoomId
          = Some (mkMember newMemberId userId newRoomId OWNER)) as Hfind.
  { pose proof (findFirstMember_absent (Tables.core st) userId newRoomId Hpair) as Hnone.
    unfold Prisma.findFirstMember in *. cbn [chatRoomMembers].
    rewrite (find_app_none _ _ _ Hnone). cbn [find].
    unfold Prisma.member_matches. cbn [mem_userId mem_chatRoomId].
    rewrite !bool_decide_eq_true_2 by reflexivity. reflexivity. }
  assert ((1 <= validatorLength name <= 100)%nat) as Hname.
  { unfold createChatRoomValid, isLength in Hvalid.
    do 3 (apply andb_true_iff in Hvalid as [Hvalid _]).
    apply andb_true_iff in Hvalid as [Hlo Hhi].
    apply Nat.leb_le in Hlo, Hhi. lia. }
  assert (2 <= default 10 maxMembers <= 100) as Hcap.
  { unfold createChatRoomValid in Hvalid.
    apply andb_true_iff in Hvalid as [_ Hmax].
    destruct maxMembers as [n |]; [| simpl; lia].
    apply andb_true_iff in Hmax as [Hlo Hhi].
    apply Z.leb_le in Hlo, Hhi. simpl. lia. }
  split; [exact Hfind | split; [| split; [| split; [| split; [exact Hname |]]]]].
  - eexists _, _. split; [exact Hfind |]. cbn [mem_chatRoomId chatRooms].
    split; [apply lookup_insert_eq | reflexivity].
  - unfold leave. rewrite Hfind. reflexivity.
  - eexists. split; [apply lookup_insert_eq |]. cbn [Tables.maxMembers Tables.room_type].
    split; [exact Hcap |]. intros ->. reflexivity.
  - intros -> other newId. unfold postJoin. cbn [Tables.core Tables.access chatRooms].
    rewrite !lookup_insert_eq. reflexivity.
Qed.

Lemma created_room_is_owned_witness :
  let name := Fixtures2.times 51 Fixtures2.eAcute in
  let st' := fst (postRoom Fixtures2.store0 "carol" "r9" "m9" name None None None) in
  String.length name = 102%nat
  /\ leave (Tables.core st') "carol" "r9" = (Tables.core st', ownerCannotLeave)
  /\ postJoin st' "bob" "m10" "r9"
     = (st', Tables.Failure 403 "Cannot join private chat room").
Proof.
  intros name st'.
  destruct (created_room_is_owned Fixtures2.store0 st' "carol" "r9" "m9" name
              "Chat room created successfully" None None None eq_refl)
    as (_ & _ & Hleave & _ & _ & Hjoin).
  split; [reflexivity | split; [exact Hleave | apply Hjoin; reflexivity]].
Defined.

Lemma incrementUsage_messages (db : Db) (userId : string) :
  messages (fst (incrementUsage db userId)) = messages db.
Proof.
  unfold incrementUsage, Prisma.incrementMessagesUsed, Prisma.incrementMessageCount.
  destruct (subscriptions db !! userId) as [s |]; [| reflexivity].
  destruct (Prisma.incrementInt (messagesUsed s)); [| reflexivity]. cbn [users].
  destruct (users db !! userId) as [u |]; [| reflexivity].
  destruct (Prisma.incrementInt (messageCount u)); reflexivity.
Qed.

Lemma handleAIResponse_appends (env : Env) (st : State)
    (chatRoomId userMessage userId : string) (context : option (list Turn)) :
  exists rest,
    messages (st_db (handleAIResponse env st chatRoomId userMessage userId context))
    = messages (st_db st) ++ rest.
Proof.
  unfold handleAIResponse.
  destruct (negb (canUse _)); [exists []; rewrite app_nil_r; reflexivity |].
  destruct (generateForSocket env userMessage context) as [r |];
    [| exists []; rewrite app_nil_r; reflexivity].
  destruct (Prisma.createMessage (st_db st) (aiMessageRow chatRoomId r)) as [db1 |]
    eqn:Hcreate; [| exists []; rewrite app_nil_r; reflexivity].
  apply createMessage_Some in Hcreate as (_ & _ & ->).
  pose proof (incrementUsage_messages
                (withMessage (st_db st) (aiMessageRow chatRoomId r)) userId) as Hm.
  destruct (incrementUsage _ userId) as [db2 [|]]; cbn [fst] in Hm;
    cbn [emit st_db]; rewrite Hm; eexists; reflexivity.
Qed.

(** X17. [POST /:chatRoomId/messages] writes at most one message, authored
    by the caller with sender [USER], and only for a member, a type among
    [TEXT], [IMAGE], [FILE] and a content of 1 to 4000 characters in the
    count of the validator; it never writes an assistant message and never
    touches users, subscriptions, rooms or memberships, whatever the content
    says.  Every answer that is not a success leaves the store as it was. *)
Theorem http_send_is_checked_and_silent (db : Db) (userId chatRoomId content : string)
    (type : option string) :
  let out := HttpMessages.postMessage db userId chatRoomId content type in
  users (fst out) = users db
  /\ subscriptions (fst out) = subscriptions db
  /\ chatRooms (fst out) = chatRooms db
  /\ chatRoomMembers (fst out) = chatRoomMembers db
  /\ (forall m, snd out = Tables.Success m ->
        messages (fst out) = messages db ++ [m]
        /\ m = mkMessage content (default "TEXT" type) USER (Some userId) chatRoomId
                 None None None
        /\ (1 <= validatorLength content <= 4000)%nat
        /\ default "TEXT" type ∈ ["TEXT"; "IMAGE"; "FILE"]
        /\ is_Some (Prisma.findFirstMember db userId chatRoomId))
  /\ ((forall m, snd out <> Tables.Success m) -> fst out = db).
Proof.
  unfold HttpMessages.postMessage.
  destruct (sendMessageValid content type) eqn:Hvalid; cbn [negb].
  2: { cbn [fst snd]. repeat split; try reflexivity; intros; congruence. }
  destruct (Prisma.findFirstMember db userId chatRoomId) as [m |] eqn:Hfind.
  2: { cbn [fst snd]. repeat split; try reflexivity; intros; congruence. }
  destruct (Prisma.createMessage db _) as [db1 |] eqn:Hcreate.
  2: { cbn [fst snd]. repeat split; try reflexivity; intros; congruence. }
  apply createMessage_Some in Hcreate as (_ & _ & ->).
  cbn [fst snd withMessage users subscriptions chatRooms chatRoomMembers messages].
  split; [reflexivity | split; [reflexivity | split; [reflexivity | split; [reflexivity |]]]].
  split.
  - intros m' Hm'. injection Hm' as <-.
    unfold sendMessageValid, isLength in Hvalid.
    apply andb_true_iff in Hvalid as [Hlen Htype].
    apply andb_true_iff in Hlen as [Hlo Hhi].
    apply Nat.leb_le in Hlo, Hhi.
    split; [reflexivity | split; [reflexivity | split; [lia | split; [| eauto]]]].
    destruct type as [t |]; cbn [default].
    + apply bool_decide_eq_true in Htype.
      destruct Htype as [-> | [-> | ->]]; repeat constructor.
    + repeat constructor.
  - intros Hnot. exfalso. exact (Hnot _ eq_refl).
Qed.

Lemma http_send_is_checked_and_silent_witness :
  let out := HttpMessages.postMessage Fixtures.db0 "bob" "r1" "@ai are you there?" None in
  map msg_sender (messages (fst out)) = [USER]
  /\ subscriptions (fst out) = subscriptions Fixtures.db0.
Proof.
  intros out.
  destruct (http_send_is_checked_and_silent Fixtures.db0 "bob" "r1" "@ai are you there?" None)
    as (_ & Hsubs & _ & _ & Hok & _).
  split; [| exact Hsubs].
  destruct (Hok _ eq_refl) as (Hmsgs & _). fold out in Hmsgs. rewrite Hmsgs. reflexivity.
Defined.

(** X18. The socket handler does not run the validator of the HTTP route.
    A content or type that the route rejects with 400 (an empty content, one
    of more than 4000 characters, a type outside TEXT, IMAGE, FILE) is
    written by a member's [send_message] event whenever the store takes the
    row: the type is one of the enum (so [SYSTEM] goes through), the content
    is without U+0000, and the room and the sender have their rows.  When
    the store refuses the row, the event writes nothing and the sender gets
    [Failed to send message]. *)
Theorem socket_accepts_what_http_rejects (env : Env) (db : Db) (emitted : list Emit)
    (userId chatRoomId content : string) (type : option string) :
  sendMessageValid content type = false ->
  is_Some (Prisma.findFirstMember db userId chatRoomId) ->
  let userRow :=
    mkMessage content (default "TEXT" type) USER (Some userId) chatRoomId None None None in
  let st := send_message env (mkState db emitted) userId chatRoomId content type in
  HttpMessages.postMessage db userId chatRoomId content type
  = (db, Tables.Failure 400 "Validation failed")
  /\ (is_Some (Prisma.createMessage db userRow) <->
      default "TEXT" type ∈ Prisma.messageTypes /\ Prisma.hasNul content = false /\
      is_Some (chatRooms db !! chatRoomId) /\ is_Some (users db !! userId))
  /\ (is_Some (Prisma.createMessage db userRow) ->
      exists rest, messages (st_db st) = messages db ++ userRow :: rest)
  /\ (Prisma.createMessage db userRow = None ->
      st = mkState db (emitted ++ [ToSocket "error" (ErrorMessage "Failed to send message")])).
Proof.
  intros Hvalid [m Hm] userRow st. split; [| split; [| split]].
  - unfold HttpMessages.postMessage. rewrite Hvalid. reflexivity.
  - split.
    + intros [db1 Hcreate]. apply createMessage_Some in Hcreate as (Hrow & Href & _).
      unfold Prisma.validMessage in Hrow. unfold Prisma.messageReferences in Href.
      cbn [userRow msg_type msg_content msg_userId msg_chatRoomId] in Hrow, Href.
      repeat (apply andb_true_iff in Hrow as [Hrow ?]).
      apply andb_true_iff in Href as [Hroom Huser].
      apply bool_decide_eq_true in Hrow, Hroom, Huser.
      split; [exact Hrow | split; [| split; assumption]].
      destruct (Prisma.hasNul content); [discriminate | reflexivity].
    + intros (Htype & Hnul & Hroom & Huser).
      exists (withMessage db userRow). apply createMessage_Some.
      split; [| split; [| reflexivity]].
      * unfold Prisma.validMessage.
        cbn [userRow msg_type msg_content msg_aiModel msg_promptTokens
             msg_completionTokens default].
        rewrite Hnul, bool_decide_eq_true_2 by exact Htype. reflexivity.
      * unfold Prisma.messageReferences. cbn [userRow msg_userId msg_chatRoomId].
        rewrite !bool_decide_eq_true_2 by assumption. reflexivity.
  - intros [db1 Hcreate]. subst st. unfold send_message. cbn [st_db st_emitted].
    rewrite Hm. fold userRow. rewrite Hcreate.
    apply createMessage_Some in Hcreate as (_ & _ & ->).
    set (st1 := emit _ _).
    assert (messages (st_db st1) = messages db ++ [userRow]) as Hst1 by reflexivity.
    destruct (chatRooms (st_db st1) !! chatRoomId) as [room |].
    + destruct (allowAI room && Js.includes (Js.toLowerCase content) "@ai").
      * destruct (handleAIResponse_appends env st1 chatRoomId content userId None)
          as [rest Hrest].
        exists rest. rewrite Hrest, Hst1, <- app_assoc. reflexivity.
      * exists []. exact Hst1.
    + exists []. exact Hst1.
  - intros Hcreate. subst st. unfold send_message. cbn [st_db st_emitted].
    rewrite Hm. fold userRow. rewrite Hcreate. reflexivity.
Qed.

Lemma socket_accepts_what_http_rejects_witness :
  HttpMessages.postMessage Fixtures.db0 "bob" "r1" "notice" (Some "SYSTEM")
  = (Fixtures.db0, Tables.Failure 400 "Validation failed")
  /\ (exists rest,
        messages (st_db (send_message Fixtures.echo (mkState Fixtures.db0 [])
                           "bob" "r1" "notice" (Some "SYSTEM")))
        = mkMessage "notice" "SYSTEM" USER (Some "bob") "r1" None None None :: rest)
  /\ send_message Fixtures.echo (mkState Fixtures.db0 []) "bob" "r1" "clip" (Some "VIDEO")
     = mkState Fixtures.db0 [ToSocket "error" (ErrorMessage "Failed to send message")].
Proof.
  destruct (socket_accepts_what_http_rejects Fixtures.echo Fixtures.db0 []
              "bob" "r1" "notice" (Some "SYSTEM")) as (Hhttp & _ & Hwrites & _).
  - reflexivity.
  - eexists. reflexivity.
  - destruct (socket_accepts_what_http_rejects Fixtures.echo Fixtures.db0 []
                "bob" "r1" "clip" (Some "VIDEO")) as (_ & _ & _ & Hrefused).
    + reflexivity.
    + eexists. reflexivity.
    + split; [exact Hhttp | split].
      * apply Hwrites. eexists. reflexivity.
      * apply Hrefused. reflexivity.
Defined.

End MembershipFacts.

(** ** Account deletion *)

Section AccountFacts.
Import Users.




End AccountFacts.

(** ** Token estimates and the last user turn *)

Lemma ceil_div4_bounds (n : nat) :
  4 * (Js.ceil_div4 n - 1) < Z.of_nat n <= 4 * Js.ceil_div4 n.
Proof.
  unfold Js.ceil_div4.
  pose proof (Z.div_mod (Z.of_nat n + 3) 4 ltac:(lia)) as Hdm.
  pose proof (Z.mod_pos_bound (Z.of_nat n + 3) 4 ltac:(lia)) as Hb.
  lia.
Qed.

Lemma length_of_ascii (s : string) :
  Js.isAscii s = true -> Js.length s = String.length s.
Proof.
  induction s as [| c s IH]; [reflexivity |].
  cbn [Js.isAscii Js.length String.length]. intros H.
  apply andb_true_iff in H as [Hc Hs]. rewrite (IH Hs).
  apply Nat.ltb_lt in Hc. unfold Js.units, Js.continuation.
  assert ((128 <=? nat_of_ascii c)%nat = false) as -> by (apply Nat.leb_gt; lia).
  assert ((240 <=? nat_of_ascii c)%nat = false) as -> by (apply Nat.leb_gt; lia).
  reflexivity.
Qed.

(** X20. The token counts of a response are the lengths of the prompt sent
    and of the text received, in UTF-16 code units, divided by four and
    rounded up: each count [t] satisfies [4 (t - 1) < length <= 4 t], so it
    is 0 exactly for a length of 0; for an ASCII text the length is the
    number of bytes.  The model reported is the one asked for, [gemini-pro]
    when none was, and the content is the provider's answer to the full
    prompt under that model. *)
Theorem token_estimates_bound_length (env : Env) (prompt : string)
    (options : ChatOptions) (r : ChatResponse) :
  generateResponse env prompt options = Some r ->
  let full := fullPrompt (opt_systemPrompt options) prompt in
  4 * (r_promptTokens r - 1) < Z.of_nat (Js.length full) <= 4 * r_promptTokens r
  /\ 4 * (r_completionTokens r - 1) < Z.of_nat (Js.length (r_content r))
     <= 4 * r_completionTokens r
  /\ (r_promptTokens r = 0 <-> Js.length full = 0%nat)
  /\ (Js.isAscii full = true -> Js.length full = String.length full)
  /\ r_model r = default defaultModel (opt_model options)
  /\ generateContent env (r_model r) full = Some (r_content r).
Proof.
  intros H. cbv zeta. unfold generateResponse in H. cbv zeta in H.
  set (full := fullPrompt (opt_systemPrompt options) prompt) in *.
  destruct (generateContent env (default defaultModel (opt_model options)) full)
    as [text |] eqn:Hgen; [| discriminate].
  injection H as <-. cbn [r_promptTokens r_completionTokens r_content r_model].
  pose proof (ceil_div4_bounds (Js.length full)) as Hp.
  pose proof (ceil_div4_bounds (Js.length text)) as Hc.
  split; [exact Hp | split; [exact Hc | split; [| split; [| split]]]].
  - split.
    + intros H0. rewrite H0 in Hp. lia.
    + intros H0. rewrite H0. reflexivity.
  - apply length_of_ascii.
  - reflexivity.
  - exact Hgen.
Qed.

Lemma token_estimates_bound_length_witness :
  String.length (Fixtures2.times 4 Fixtures2.eAcute) = 8%nat
  /\ 4 * (1 - 1) < Z.of_nat (Js.length (Fixtures2.times 4 Fixtures2.eAcute)) <= 4 * 1.
Proof.
  split; [reflexivity |].
  exact (proj1 (token_estimates_bound_length Fixtures.echo
                  (Fixtures2.times 4 Fixtures2.eAcute) (mkOptions None None)
                  (mkResponse (Fixtures2.times 4 Fixtures2.eAcute) 1 1 "gemini-pro")
                  eq_refl)).
Defined.

Lemma last_such_skips {A} (p : A -> bool) (l : list A) (x : A) (rest : list A) :
  p x = true -> Forall (fun y => p y = false) rest ->
  Js.last_such p (l ++ x :: rest) = Some x.
Proof.
  intros Hx Hrest. unfold Js.last_such.
  rewrite filter_app, filter_cons_True by exact Hx.
  assert (filter (fun y => p y = true) rest = []) as ->.
  { induction Hrest as [| y rest Hy _ IH]; [reflexivity |].
    rewrite filter_cons_False by (rewrite Hy; discriminate). exact IH. }
  apply last_snoc.
Qed.

(** X21. [generateChatResponse] closes its prompt with the content of the
    last user turn of the list, wherever that turn stands: assistant turns
    after it do not matter.  A list without any user turn gives a prompt
    that ends in an empty [User: ] line. *)
Theorem chat_prompt_repeats_last_user_turn :
  (forall (before after : list Turn) (message : string),
      Forall (fun t => role t = assistant) after ->
      chatPrompt (before ++ mkTurn user message :: after)
      = conversationHistory (before ++ mkTurn user message :: after)
          +:+ Js.nl +:+ "User: " +:+ message)
  /\ (forall msgs : list Turn,
        Forall (fun t => role t = assistant) msgs ->
        chatPrompt msgs = conversationHistory msgs +:+ Js.nl +:+ "User: ").
Proof.
  split.
  - intros before after message Hafter. unfold chatPrompt, lastUserMessage.
    rewrite (last_such_skips _ before (mkTurn user message) after); [reflexivity | |].
    + apply bool_decide_eq_true. reflexivity.
    + eapply Forall_impl; [exact Hafter |]. intros t Ht. cbn beta.
      rewrite Ht. reflexivity.
  - intros msgs Hall. unfold chatPrompt, lastUserMessage, Js.last_such.
    assert (filter (fun x => bool_decide (role x = user) = true) msgs = []) as ->.
    { induction Hall as [| t msgs Ht _ IH]; [reflexivity |].
      rewrite filter_cons_False by (rewrite Ht; discriminate). exact IH. }
    reflexivity.
Qed.

Lemma chat_prompt_repeats_last_user_turn_witness :
  chatPrompt [mkTurn user "q"; mkTurn assistant "a"]
  = "User: q" +:+ Js.nl +:+ "Assistant: a" +:+ Js.nl +:+ "User: q".
Proof.
  destruct chat_prompt_repeats_last_user_turn as [Hlast _].
  apply (Hlast [] [mkTurn assistant "a"] "q").
  constructor; [reflexivity | constructor].
Defined.

(** ** The other calls of the limiter's store *)

Section StoreFacts.
Import RedisStore.

(** X22. [resetKey] forgets the window: whatever the counter and the expiry
    were, the next hit on the key is hit number 1 of a new window that
    expires 900 000 ms after it. *)
Theorem resetKey_starts_a_new_window (r : gmap string RedisEntry) (key : string)
    (now windowMs maxHits : Z) :
  resetKey r key !! key = None
  /\ incr (resetKey r key) now key
     = (<[key := mkEntry 1 (Some (now + 900000))]> r, (1, now + 900000))
  /\ check (resetKey r key) now key windowMs maxHits
     = (<[key := mkEntry 1 (Some (now + 900000))]> r,
        mkCheck (1 <=? maxHits) 1 (now + 900000)).
Proof.
  assert (incr (resetKey r key) now key
          = (<[key := mkEntry 1 (Some (now + 900000))]> r, (1, now + 900000))) as Hincr.
  { rewrite incr_fresh.
    - unfold resetKey. rewrite insert_delete_eq. reflexivity.
    - unfold redis_get, resetKey. rewrite lookup_delete_eq. reflexivity. }
  split; [apply lookup_delete_eq | split; [exact Hincr |]].
  unfold check. rewrite Hincr. reflexivity.
Qed.

(** X23. [decrement] undoes a hit but not its expiry, and the store re-arms
    the expiry whenever [incr] brings the counter to 1.  Inside a window
    whose counter is [c >= 1], a [decrement] followed by a hit at [t2]
    returns [c] as the number of hits; for [c >= 2] the expiry stays, but
    for [c = 1] the window is restarted and expires 900 000 ms after [t2].
    On a key that is absent or expired, [decrement] writes -1 without an
    expiry, and the hit after it is counted as hit 0 of a key that never
    expires. *)
Theorem decrement_then_hit (r : gmap string RedisEntry) (key : string) (t1 t2 : Z) :
  (forall c e,
      r !! key = Some (mkEntry c (Some e)) ->
      1 <= c -> t1 < e -> t2 < e ->
      incr (decrement r t1 key) t2 key
      = (<[key := mkEntry c (Some (if c =? 1 then t2 + 900000 else e))]> r,
         (c, t2 + 900000)))
  /\ (redis_get r t1 key = None ->
      decrement r t1 key = <[key := mkEntry (-1) None]> r
      /\ incr (decrement r t1 key) t2 key
         = (<[key := mkEntry 0 None]> r, (0, t2 + 900000))).
Proof.
  split.
  - intros c e Hr Hc Ht1 Ht2. unfold decrement, redis_decr.
    rewrite (redis_get_live key r t1 c e Hr Ht1). cbn [value expireAt].
    unfold incr, redis_incr, redis_get. rewrite lookup_insert_eq.
    unfold live. cbn [expireAt value].
    assert ((t2 <? e) = true) as -> by (apply Z.ltb_lt; exact Ht2).
    cbn [value expireAt].
    replace (c - 1 + 1) with c by lia.
    destruct (c =? 1) eqn:Hone.
    + unfold redis_expire, redis_get. rewrite lookup_insert_eq.
      unfold live. cbn [expireAt value].
      assert ((t2 <? e) = true) as -> by (apply Z.ltb_lt; exact Ht2).
      rewrite !insert_insert_eq. apply Z.eqb_eq in Hone. subst c. reflexivity.
    + rewrite insert_insert_eq. reflexivity.
  - intros Hnone. unfold decrement, redis_decr. rewrite Hnone.
    split; [reflexivity |].
    unfold incr, redis_incr, redis_get. rewrite lookup_insert_eq.
    cbn [live expireAt value Z.add Z.eqb Z.opp Pos.eqb].
    rewrite insert_insert_eq. reflexivity.
Qed.

Lemma decrement_then_hit_witness :
  let r := fst (incr ∅ 0 "rate_limit:10.0.0.1") in
  (expireAt <$> fst (incr (decrement r 10 "rate_limit:10.0.0.1") 500
                       "rate_limit:10.0.0.1") !! "rate_limit:10.0.0.1")
  = Some (Some 900500)
  /\ snd (incr (decrement ∅ 10 "k") 20 "k") = (0, 900020).
Proof.
  intros r. split.
  - destruct (decrement_then_hit r "rate_limit:10.0.0.1" 10 500) as [Hlive _].
    rewrite (Hlive 1 900000); [| reflexivity | lia | lia | lia].
    cbn [fst]. rewrite lookup_insert_eq. reflexivity.
  - destruct (decrement_then_hit ∅ "k" 10 20) as [_ Hfresh].
    destruct (Hfresh eq_refl) as [_ Hhit]. rewrite Hhit. reflexivity.
Defined.

Lemma string_length_app (a b : string) :
  String.length (a +:+ b) = (String.length a + String.length b)%nat.
Proof.
  induction a as [| c a IH]; [reflexivity |].
  change (String c a +:+ b) with (String c (a +:+ b)). simpl. rewrite IH. reflexivity.
Qed.

(** X24. Windows are kept per key.  A hit on one key leaves the entry of
    every other key as it was, so different keys never share a counter; and
    the key of a request without [Authorization] header differs from the key
    of a request with one from the same address, so the two are counted in
    separate windows. *)
Theorem windows_are_per_key (r : gmap string RedisEntry) (now windowMs maxHits : Z)
    (key : string) :
  (forall other, other <> key ->
      fst (check r now key windowMs maxHits) !! other = r !! other)
  /\ (forall address header,
        Js.truthy header = true ->
        keyGenerator (mkRequest address (Some header))
        <> keyGenerator (mkRequest address None)).
Proof.
  split.
  - intros other Hne. unfold check, incr, redis_incr.
    destruct (redis_get r now key) as [e |]; cbn [fst snd].
    + destruct (value e + 1 =? 1); cbn [fst].
      * unfold redis_expire, redis_get. rewrite lookup_insert_eq.
        destruct (live now _); rewrite ?lookup_insert_ne by congruence; reflexivity.
      * apply lookup_insert_ne. congruence.
    + cbn [Z.eqb Pos.eqb fst].
      unfold redis_expire, redis_get. rewrite lookup_insert_eq.
      cbn [live expireAt]. rewrite !lookup_insert_ne by congruence. reflexivity.
  - intros address header Hh. unfold keyGenerator. cbn [authorization ip]. rewrite Hh.
    intros Heq. apply (f_equal String.length) in Heq.
    rewrite !string_length_app in Heq. simpl in Heq. lia.
Qed.

Lemma windows_are_per_key_witness :
  fst (check ∅ 0 "rate_limit:10.0.0.1" 900000 5) !! "rate_limit:10.0.0.2" = None
  /\ keyGenerator (mkRequest "10.0.0.1" (Some "Bearer x"))
     <> keyGenerator (mkRequest "10.0.0.1" None).
Proof.
  destruct (windows_are_per_key ∅ 0 900000 5 "rate_limit:10.0.0.1") as [Hframe Hkeys].
  split.
  - rewrite Hframe by discriminate. reflexivity.
  - apply Hkeys. reflexivity.
Defined.

End StoreFacts.

(** ** Traffic of several users *)

Section TrafficFacts.
Import Traffic.

Variable env : Env.

Lemma okBodies_cons {A} (r : ApiResult A) (rs : list (ApiResult A)) :
  okBodies (r :: rs) = okBodies [r] ++ okBodies rs.
Proof. destruct r; reflexivity. Qed.

(** One request either leaves the store as it was or consumes one unit of
    its caller, while the caller's counters are below the top of their
    columns. *)
Lemma answer_step (db db1 : Db) (caller : string) (c : AiChatCall)
    (r : ApiResult AiChatData) :
  (forall u, users db !! caller = Some u -> messageCount u < Prisma.maxInt) ->
  (forall s, subscriptions db !! caller = Some s ->
             monthlyMessageLimit s <= Prisma.maxInt) ->
  answer env db caller c = (db1, r) ->
  (okBodies [r] = [] /\ db1 = db)
  \/ (exists body u s,
        okBodies [r] = [body] /\
        users db !! caller = Some u /\ subscriptions db !! caller = Some s /\
        db1 = consumed (withMessage db (data_message body)) caller u s).
Proof.
  intros Hcount Hlimit Hcall. destruct r as [body | msg status].
  - right. apply answer_Ok_inv in Hcall as [_ Hcall].
    apply aiChat_Ok_inv in Hcall as (u & s & Hu & Hs & _ & _ & _ & _ & _ & ->).
    exists body, u, s. repeat split; assumption.
  - left. apply answer_error_unchanged in Hcall as ->; [| assumption | assumption].
    split; reflexivity.
Qed.

(** X25. Over any run of requests to the ai-chat route by any users,
    answered one after the other, during which the lifetime counters stay
    below the top of their column (the limits being [Int]s), the lifetime
    counter and the monthly counter of every user move together: both go up
    by the same number [n >= 0], and the limit stays.  The messages written
    are exactly the assistant messages returned in the successful answers,
    in order; rooms and memberships are not touched. *)
Theorem usage_counters_move_together (calls : list (string * AiChatCall)) :
  forall (db db' : Db) (rs : list (ApiResult AiChatData)),
    (forall userId u, users db !! userId = Some u ->
                      messageCount u + Z.of_nat (length calls) <= Prisma.maxInt) ->
    (forall userId s, subscriptions db !! userId = Some s ->
                      monthlyMessageLimit s <= Prisma.maxInt) ->
    aiChatMany env db calls = (db', rs) ->
    messages db' = messages db ++ (data_message <$> okBodies rs)
    /\ chatRooms db' = chatRooms db
    /\ chatRoomMembers db' = chatRoomMembers db
    /\ (forall userId u s,
          users db !! userId = Some u ->
          subscriptions db !! userId = Some s ->
          exists n, 0 <= n
            /\ users db' !! userId = Some (mkUser (messageCount u + n))
            /\ subscriptions db' !! userId
               = Some (mkSubscription (monthlyMessageLimit s) (messagesUsed s + n))).
Proof.
  induction calls as [| [caller c] calls IH]; intros db db' rs Hcount Hlimit Hrun.
  - injection Hrun as <- <-. cbn [okBodies omap list_omap fmap list_fmap].
    rewrite app_nil_r. repeat split.
    intros userId u s Hu Hs. exists 0. rewrite Hu, Hs, !Z.add_0_r.
    destruct u, s. repeat split. lia.
  - cbn [aiChatMany] in Hrun. rewrite length_cons in Hcount.
    destruct (answer env db caller c) as [db1 r] eqn:Hcall.
    destruct (aiChatMany env db1 calls) as [db2 rs'] eqn:Hrest.
    injection Hrun as <- <-.
    rewrite (okBodies_cons r rs').
    apply answer_step in Hcall.
    2: { intros u Hu. specialize (Hcount caller u Hu). lia. }
    2: { intros s Hs. exact (Hlimit caller s Hs). }
    destruct Hcall as [[-> ->] | (body & u0 & s0 & -> & Hu0 & Hs0 & ->)].
    + apply (IH db db2 rs'); [| exact Hlimit | exact Hrest].
      intros userId u Hu. specialize (Hcount userId u Hu). lia.
    + destruct (IH (consumed (withMessage db (data_message body)) caller u0 s0) db2 rs')
        as (Hmsgs & Hrooms & Hmembers & Hcounters).
      * intros userId u. cbn [consumed withMessage users].
        destruct (decide (userId = caller)) as [-> | Hne].
        -- rewrite lookup_insert_eq. intros H. injection H as <-. cbn [messageCount].
           specialize (Hcount caller u0 Hu0). lia.
        -- rewrite lookup_insert_ne by congruence. intros Hu.
           specialize (Hcount userId u Hu). lia.
      * intros userId s. cbn [consumed withMessage subscriptions].
        destruct (decide (userId = caller)) as [-> | Hne].
        -- rewrite lookup_insert_eq. intros H. injection H as <-.
           cbn [monthlyMessageLimit]. exact (Hlimit caller s0 Hs0).
        -- rewrite lookup_insert_ne by congruence. apply Hlimit.
      * exact Hrest.
      * cbn [consumed withMessage users subscriptions chatRooms chatRoomMembers messages]
          in Hmsgs, Hrooms, Hmembers, Hcounters.
        split; [| split; [exact Hrooms | split; [exact Hmembers |]]].
        -- rewrite Hmsgs, <- app_assoc. reflexivity.
        -- intros userId u s Hu Hs.
           destruct (decide (userId = caller)) as [-> | Hne].
           ++ rewrite Hu in Hu0. injection Hu0 as <-.
              rewrite Hs in Hs0. injection Hs0 as <-.
              destruct (Hcounters caller (mkUser (messageCount u + 1))
                          (mkSubscription (monthlyMessageLimit s) (messagesUsed s + 1)))
                as (n & Hn & Hu2 & Hs2);
                [apply lookup_insert_eq | apply lookup_insert_eq |].
              cbn [messageCount monthlyMessageLimit messagesUsed] in Hu2, Hs2.
              exists (1 + n). rewrite Hu2, Hs2, !Z.add_assoc. repeat split. lia.
           ++ destruct (Hcounters userId u s) as (n & Hn & Hu2 & Hs2).
              ** rewrite lookup_insert_ne by congruence. exact Hu.
              ** rewrite lookup_insert_ne by congruence. exact Hs.
              ** exists n. repeat split; assumption.
Qed.

End TrafficFacts.

Lemma usage_counters_move_together_witness :
  let calls := [("alice", Fixtures.hello); ("bob", Fixtures.hello);
                ("alice", Fixtures.hello)] in
  let out := Traffic.aiChatMany Fixtures.echo Fixtures.db0 calls in
  map msg_sender (messages (fst out)) = [AI]
  /\ length (okBodies (snd out)) = 1%nat.
Proof.
  intros calls out.
  destruct (usage_counters_move_together Fixtures.echo calls
              Fixtures.db0 (fst out) (snd out))
    as (Hmsgs & _).
  - intros userId u Hu.
    assert (map_Forall (fun _ x => messageCount x <= 50) (users Fixtures.db0)) as Hall
      by (eapply bool_decide_unpack; vm_compute; exact I).
    pose proof (map_Forall_lookup_1 _ _ _ _ Hall Hu) as Hle. cbv beta in Hle.
    unfold Prisma.maxInt. simpl. lia.
  - intros userId s Hs.
    assert (map_Forall (fun _ x => monthlyMessageLimit x <= 50)
              (subscriptions Fixtures.db0)) as Hall
      by (eapply bool_decide_unpack; vm_compute; exact I).
    pose proof (map_Forall_lookup_1 _ _ _ _ Hall Hs) as Hle. cbv beta in Hle.
    unfold Prisma.maxInt. lia.
  - reflexivity.
  - split; [rewrite Hmsgs |]; reflexivity.
Defined.

(** ** Where the assistant's answers go *)



(** ** Writes that throw *)

(** X27. The two updates of [incrementUsage] are separate statements, and
    the route writes the assistant message before them.  For a caller whose
    lifetime counter is at the top of its column, a request that passes
    every check and on which the provider answers is answered with the 500
    of a failed generation, although the assistant message has been written
    and the consumed count has gone up by one; the lifetime counter has
    not moved. *)
Theorem usage_update_is_not_atomic (env : Env) (db : Db)
    (userId chatRoomId message : string) (context : option (list Turn)) (model : string)
    (u : User) (s : Subscription) (r : ChatResponse) :
  Js.truthy message = true ->
  memberOfAiRoom db userId chatRoomId ->
  ledgerReadable env = true ->
  users db !! userId = Some u ->
  subscriptions db !! userId = Some s ->
  messagesUsed s < monthlyMessageLimit s ->
  monthlyMessageLimit s <= Prisma.maxInt ->
  messageCount u = Prisma.maxInt ->
  generateForRoute env message context model = Some r ->
  Prisma.validMessage (aiMessageRow chatRoomId r) = true ->
  aiChat env db userId chatRoomId message context model
  = (mkDb (users db)
       (<[userId := mkSubscription (monthlyMessageLimit s) (messagesUsed s + 1)]>
          (subscriptions db))
       (chatRooms db) (chatRoomMembers db)
       (messages db ++ [aiMessageRow chatRoomId r]),
     generationFailedError).
Proof.
  intros Hmsg Hroom Hread Hu Hs Hlt Hlimit Htop Hgen Hvalid.
  rewrite aiChat_after_room_checks by assumption. cbv zeta.
  rewrite (quota_of_rows env db userId u s Hread Hu Hs).
  cbn [canUse remaining].
  assert ((0 <? monthlyMessageLimit s - messagesUsed s) = true) as ->
    by (apply Z.ltb_lt; lia).
  cbn [negb]. rewrite Hgen.
  assert (Prisma.createMessage db (aiMessageRow chatRoomId r)
          = Some (withMessage db (aiMessageRow chatRoomId r))) as ->.
  { apply createMessage_Some. split; [exact Hvalid | split; [| reflexivity]].
    apply aiMessageRow_references, (memberOfAiRoom_room db userId), Hroom. }
  unfold incrementUsage, Prisma.incrementMessagesUsed, Prisma.incrementMessageCount.
  cbn [withMessage users subscriptions]. rewrite Hs.
  rewrite incrementInt_Some by lia.
  cbn [users]. rewrite Hu. rewrite incrementInt_None by lia. reflexivity.
Qed.

Lemma usage_update_is_not_atomic_witness :
  let db :=
    mkDb (<["alice" := mkUser 2147483647]> (users Fixtures.db0))
      (subscriptions Fixtures.db0) (chatRooms Fixtures.db0)
      (chatRoomMembers Fixtures.db0) [] in
  let out := aiChat Fixtures.echo db "alice" "r1" "hello" None "gemini-pro" in
  snd out = generationFailedError
  /\ map msg_sender (messages (fst out)) = [AI]
  /\ Fixtures.usedBy (fst out) "alice" = Some 1
  /\ users (fst out) !! "alice" = Some (mkUser 2147483647).
Proof.
  intros db out.
  assert (exists r, generateForRoute Fixtures.echo "hello" None "gemini-pro" = Some r)
    as [r Hgen] by (eexists; reflexivity).
  pose proof (usage_update_is_not_atomic Fixtures.echo db "alice" "r1" "hello" None
                "gemini-pro" (mkUser 2147483647) (mkSubscription 1 0) r) as H.
  subst out. rewrite H.
  - injection Hgen as <-. repeat split; reflexivity.
  - reflexivity.
  - exists (mkMember "m1" "alice" "r1" OWNER), (mkChatRoom true "gemini-pro").
    repeat split; reflexivity.
  - reflexivity.
  - reflexivity.
  - reflexivity.
  - simpl. lia.
  - unfold Prisma.maxInt. simpl. lia.
  - reflexivity.
  - exact Hgen.
  - injection Hgen as <-. reflexivity.
Defined.

(** X28. The [ai_chat] event takes any room identifier.  For an identifier
    that names no room, the foreign key of the message refuses the row: the
    event writes nothing, consumes nothing, and emits one [ai_error] to that
    room name, whatever the quota and the provider say. *)
Theorem ai_chat_on_missing_room (env : Env) (st : State)
    (userId chatRoomId message : string) (context : option (list Turn)) :
  chatRooms (st_db st) !! chatRoomId = None ->
  st_db (ai_chat env st userId chatRoomId message context) = st_db st
  /\ exists text,
      st_emitted (ai_chat env st userId chatRoomId message context)
      = st_emitted st ++ [ToRoom chatRoomId "ai_error" (ErrorMessage text)].
Proof.
  intros Hroom. unfold ai_chat, handleAIResponse.
  destruct (negb (canUse _)); [split; [reflexivity | eexists; reflexivity] |].
  destruct (generateForSocket env message context) as [r |];
    [| split; [reflexivity | eexists; reflexivity]].
  assert (Prisma.createMessage (st_db st) (aiMessageRow chatRoomId r) = None) as ->.
  { apply createMessage_None. right.
    destruct (Prisma.messageReferences _ _) eqn:Href; [| reflexivity].
    apply aiMessageRow_references in Href as [room Hsome]. congruence. }
  split; [reflexivity | eexists; reflexivity].
Qed.

Lemma ai_chat_on_missing_room_witness :
  st_db (ai_chat Fixtures.echo (mkState Fixtures.db0 []) "carol" "r7" "hello" None)
  = Fixtures.db0
  /\ exists text,
      st_emitted (ai_chat Fixtures.echo (mkState Fixtures.db0 []) "carol" "r7" "hello" None)
      = [] ++ [ToRoom "r7" "ai_error" (ErrorMessage text)].
Proof.
  exact (ai_chat_on_missing_room Fixtures.echo (mkState Fixtures.db0 [])
           "carol" "r7" "hello" None eq_refl).
Defined.
